(** * yahoo_fantasy.py: weekly fantasy-basketball report

    A shallow embedding of the computational core of [yahoo_fantasy.py]:
    the scoreboard extraction ([extract_matchup_scores]), the round-robin
    matchup comparison ([create_matchup_comparison]), the per-category
    extremes ([max_min_stats]), the cell colours
    ([highlight_max_and_min_cols], [highlight_adds]), the credential-file
    check of [refresh_oauth_file], and, of the main script, the day-by-day
    accumulation loop, the differences of the matchups and the boost of
    the added players.

    Modelling conventions.
    - A Python [float] cell of a dataframe is a rational [Q]: every finite
      float is a rational and [<], [>], [==] on finite floats are the exact
      comparisons [Qlt], [Qeq].  NaN and infinities are outside the model.
    - A Python [int] is a [Z].
    - The subtraction of two floats rounds: where the script subtracts, the
      model takes the subtraction as a parameter [float_sub] and assumes
      nothing about it.
    - A dataframe built from a list of dicts is a list of rows; a row keeps
      its float columns in a finite map from the column label.  A label
      missing from a row is the [KeyError] of pandas.
    - A Python exception is a value of [exn]; code that can raise lives in
      the [result] monad.
    - The functions are modelled as they compute with [visualize=False]:
      the directories, the csv and image exports and the plots
      ([os.makedirs], [to_csv], [dfi.export], [savefig]) do not feed back
      into any returned value, and whether they succeed depends on the
      file system and the plotting libraries. *)

From Stdlib Require Import ZArith QArith String Ascii List DecimalString Lia.
From stdpp Require Import base option list gmap strings.

Local Open Scope string_scope.
Local Open Scope Z_scope.

(** ** Exceptions *)

Inductive exn : Type :=
| KeyError (key : string)
| IndexError
| ValueError (msg : string)
| OSError (path : string).

Inductive result (A : Type) : Type :=
| Ok (a : A)
| Raise (e : exn).
Arguments Ok {A} a.
Arguments Raise {A} e.

#[global] Instance result_ret : MRet result := fun A a => Ok a.
#[global] Instance result_bind : MBind result := fun A B f m =>
  match m with
  | Ok a => f a
  | Raise e => Raise e
  end.

(** [for x in xs: s = body(x, s)] with exceptions leaving the loop. *)
Fixpoint for_each {A S : Type} (xs : list A) (body : A → S → result S) (s : S)
  : result S :=
  match xs with
  | [] => Ok s
  | x :: rest => s' ← body x s; for_each rest body s'
  end.

(** [range(n)] *)
Definition range (n : nat) : list nat := seq 0 n.

(** ** Float comparisons *)

(** [a < b], [a > b] and [a == b] on two finite floats. *)
Definition float_lt (a b : Q) : bool :=
  match Qcompare a b with Lt => true | _ => false end.
Definition float_gt (a b : Q) : bool := float_lt b a.
Definition float_eq (a b : Q) : bool := Qeq_bool a b.

(** ** Dataframes of team rows *)

(** One row of the dataframe of [extract_matchup_scores]: the three text
    columns and, under their labels, the float columns (the stat
    categories, the made and attempted shots, and later the summary
    columns). *)
Record TeamRow : Type := {
  manager : string;
  teamName : string;
  matchupNumber : string;
  stats : gmap string Q
}.

Abbreviation DataFrame := (list TeamRow) (only parsing).

(** [row[cat]] *)
Definition getitem (row : TeamRow) (cat : string) : result Q :=
  match stats row !! cat with
  | Some v => Ok v
  | None => Raise (KeyError cat)
  end.

(** [df.loc[i]] on the default integer index *)
Definition df_loc (df : DataFrame) (i : nat) : result TeamRow :=
  match df !! i with
  | Some row => Ok row
  | None => Raise (KeyError "loc")
  end.

(** [df[name] = values]: a float column set from an array that has one
    entry per row, by position. *)
Definition set_column (name : string) (values : list Q) (df : DataFrame)
  : DataFrame :=
  zip_with (fun row v =>
    {| manager := manager row; teamName := teamName row;
       matchupNumber := matchupNumber row;
       stats := <[name := v]> (stats row) |}) df values.

(** ** create_matchup_comparison: one head-to-head comparison *)

(** The three counters of lines 117-119. *)
Record Tally : Type := {
  curScore : Z;
  vsScore : Z;
  tieScore : Z
}.

(** [curScore = 0; vsScore = 0; tieScore = 0] and the three [+= 1]. *)
Definition tally0 : Tally := {| curScore := 0; vsScore := 0; tieScore := 0 |}.

Definition cur_point (t : Tally) : Tally :=
  {| curScore := curScore t + 1; vsScore := vsScore t; tieScore := tieScore t |}.
Definition vs_point (t : Tally) : Tally :=
  {| curScore := curScore t; vsScore := vsScore t + 1; tieScore := tieScore t |}.
Definition tie_point (t : Tally) : Tally :=
  {| curScore := curScore t; vsScore := vsScore t; tieScore := tieScore t + 1 |}.

(** Body of [for cat in nonTOs]. *)
Definition score_nonTO (a b : Q) (t : Tally) : Tally :=
  if float_gt a b then cur_point t
  else if float_lt a b then vs_point t
  else tie_point t.

(** The turnover category, lines 128-134. *)
Definition score_TO (a b : Q) (t : Tally) : Tally :=
  if float_lt a b then cur_point t
  else if float_gt a b then vs_point t
  else tie_point t.

Fixpoint tally_nonTOs (curTeam vsTeam : TeamRow) (nonTOs : list string)
    (t : Tally) : result Tally :=
  match nonTOs with
  | [] => Ok t
  | cat :: rest =>
      a ← getitem curTeam cat;
      b ← getitem vsTeam cat;
      tally_nonTOs curTeam vsTeam rest (score_nonTO a b t)
  end.

(** The three counters after the category loop and the turnover test. *)
Definition compare_rows (nonTOs : list string) (TOs : string)
    (curTeam vsTeam : TeamRow) : result Tally :=
  t ← tally_nonTOs curTeam vsTeam nonTOs tally0;
  a ← getitem curTeam TOs;
  b ← getitem vsTeam TOs;
  Ok (score_TO a b t).

(** [f'{n}'] for an int *)
Definition str_of_int (n : Z) : string := NilZero.string_of_int (Z.to_int n).

(** Lines 135-138. *)
Definition format_score (t : Tally) : string :=
  if tieScore t >? 0
  then str_of_int (curScore t) +:+ "-" +:+ str_of_int (vsScore t) +:+ "-"
       +:+ str_of_int (tieScore t)
  else str_of_int (curScore t) +:+ "-" +:+ str_of_int (vsScore t).

(** Lines 139-145. *)
Definition winner_value (t : Tally) : Q :=
  if curScore t >? vsScore t then 1%Q
  else if vsScore t >? curScore t then 0%Q
  else (1 # 2)%Q.

(** [statCats[:-1]] and [statCats[-1]] *)
Definition all_but_last (statCats : list string) : list string :=
  removelast statCats.
Definition last_item (statCats : list string) : result string :=
  match last statCats with
  | Some c => Ok c
  | None => Raise IndexError
  end.

(** ** create_matchup_comparison: the two result arrays *)

Abbreviation Matrix A := (list (list A)) (only parsing).

(** [m[i, j]] *)
Definition mget {A : Type} (m : Matrix A) (i j : nat) : option A :=
  row ← m !! i; row !! j.

(** [m[i, j] = x]; the loops below only write inside the array. *)
Definition mset {A : Type} (m : Matrix A) (i j : nat) (x : A) : Matrix A :=
  alter (fun row => <[j := x]> row) i m.

(** [np.empty((n, n), dtype=object)] holds [None]; [np.zeros((n, n))]. *)
Definition np_full {A : Type} (n : nat) (x : A) : Matrix A :=
  replicate n (replicate n x).

(** [m[np.diag_indices(n)] = x] *)
Definition set_diag {A : Type} (x : A) (m : Matrix A) : Matrix A :=
  imap (fun i row => <[i := x]> row) m.

(** [m[m != v] = x] and [m[m == v] = x] on a float array *)
Definition set_where_ne (v x : Q) (m : Matrix Q) : Matrix Q :=
  map (map (fun c => if float_eq c v then c else x)) m.
Definition set_where_eq (v x : Q) (m : Matrix Q) : Matrix Q :=
  map (map (fun c => if float_eq c v then x else c)) m.

(** [m.sum(axis=1)] *)
Definition sum_axis1 (m : Matrix Q) : list Q :=
  map (fun row => fold_left Qplus row 0%Q) m.

(** The two arrays of lines 110-111. *)
Record Arrays : Type := {
  matchupScore : Matrix (option string);
  matchupWinner : Matrix Q
}.

(** Lines 116-145: the body of [for j in range(df.shape[0])]. *)
Definition inner_body (nonTOs : list string) (TOs : string) (df : DataFrame)
    (i : nat) (curTeam : TeamRow) (j : nat) (arr : Arrays) : result Arrays :=
  vsTeam ← df_loc df j;
  t ← compare_rows nonTOs TOs curTeam vsTeam;
  Ok {| matchupScore := mset (matchupScore arr) i j (Some (format_score t));
        matchupWinner := mset (matchupWinner arr) i j (winner_value t) |}.

(** Lines 113-145: the body of [for i in range(df.shape[0])]. *)
Definition outer_body (nonTOs : list string) (TOs : string) (df : DataFrame)
    (i : nat) (arr : Arrays) : result Arrays :=
  curTeam ← df_loc df i;
  for_each (range (length df)) (inner_body nonTOs TOs df i curTeam) arr.

(** Lines 110-145: both arrays when the nested loops are done. *)
Definition comparison_loops (nonTOs : list string) (TOs : string)
    (df : DataFrame) : result Arrays :=
  for_each (range (length df)) (outer_body nonTOs TOs df)
    {| matchupScore := np_full (length df) None;
       matchupWinner := np_full (length df) 0%Q |}.

(** ** fix_names_teams *)

(** [str.isalnum] on one character.  A character of a name is taken to be
    a code point below 256, carried by one [ascii]. *)
Definition isalnum (c : ascii) : bool :=
  let n := N_of_ascii c in
  ((48 <=? n) && (n <=? 57) || (65 <=? n) && (n <=? 90)
   || (97 <=? n) && (n <=? 122)
   || (n =? 170) || (n =? 178) || (n =? 179) || (n =? 181) || (n =? 185)
   || (n =? 186) || (188 <=? n) && (n <=? 190)
   || (192 <=? n) && (n <=? 214) || (216 <=? n) && (n <=? 246)
   || (248 <=? n) && (n <=? 255))%N.

(** The two inner loops of [fix_names_teams]: the characters kept. *)
Fixpoint keep_name_chars (s : string) : string :=
  match s with
  | EmptyString => EmptyString
  | String char rest =>
      if isalnum char || Ascii.eqb char " " || Ascii.eqb char "-"
      then String char (keep_name_chars rest)
      else keep_name_chars rest
  end.

(** The loop over [df.iterrows()]. *)
Definition fix_names_teams (df : DataFrame) : DataFrame :=
  map (fun row =>
    {| manager := keep_name_chars (manager row);
       teamName := keep_name_chars (teamName row);
       matchupNumber := matchupNumber row;
       stats := stats row |}) df.

(** ** create_matchup_comparison *)

(** [statCats] is the list of display names of [league.stat_categories()]. *)
Definition create_matchup_comparison (statCats : list string) (df : DataFrame)
  : result (DataFrame * Matrix (option string) * Matrix Q) :=
  let nonTOs := all_but_last statCats in
  TOs ← last_item statCats;
  arr ← comparison_loops nonTOs TOs df;
  let matchupWinner := set_diag 0%Q (matchupWinner arr) in
  let matchupWinnerCopy := set_where_ne 1 0 matchupWinner in
  let df := set_column "totalWins" (sum_axis1 matchupWinnerCopy) df in
  let matchupWinnerCopy := set_where_ne 0 1 matchupWinner in
  let df := set_column "totalLosses"
    (map (fun s => (s - 1)%Q)
       (sum_axis1 (map (map (fun c => (1 - c)%Q)) matchupWinnerCopy))) df in
  let matchupWinnerCopy := set_where_ne (1 # 2) 0 matchupWinner in
  let matchupWinnerCopy := set_where_eq (1 # 2) 1 matchupWinnerCopy in
  let df := set_column "totalTies" (sum_axis1 matchupWinnerCopy) df in
  let matchupWinner := set_diag (-1)%Q matchupWinner in
  let matchupScore := set_diag (Some "N/A") (matchupScore arr) in
  let df := fix_names_teams df in
  Ok (df, matchupScore, matchupWinner).

(** ** max_min_stats *)

(** [df[stat]]: the column as a list.  A dataframe made from an empty list
    of dicts has no columns at all. *)
Fixpoint column_cells (df : DataFrame) (stat : string) : result (list Q) :=
  match df with
  | [] => Ok []
  | row :: rest =>
      v ← getitem row stat;
      vs ← column_cells rest stat;
      Ok (v :: vs)
  end.

(** [df[stat]], with the [KeyError] of a frame without columns. *)
Definition column (df : DataFrame) (stat : string) : result (list Q) :=
  match df with
  | [] => Raise (KeyError stat)
  | _ => column_cells df stat
  end.

(** [Series.max()] and [Series.min()] of a non-empty float column. *)
Definition series_max (col : list Q) : result Q :=
  match col with
  | [] => Raise (ValueError "max of an empty column")
  | v :: rest => Ok (fold_left (fun m x => if float_gt x m then x else m) rest v)
  end.
Definition series_min (col : list Q) : result Q :=
  match col with
  | [] => Raise (ValueError "min of an empty column")
  | v :: rest => Ok (fold_left (fun m x => if float_lt x m then x else m) rest v)
  end.

(** [df[statCats].max()]: one (label, value) pair per requested column, in
    the order of [statCats]. *)
Fixpoint reduce_columns (reduce : list Q → result Q) (df : DataFrame)
    (statCats : list string) : result (list (string * Q)) :=
  match statCats with
  | [] => Ok []
  | stat :: rest =>
      col ← column df stat;
      val ← reduce col;
      vals ← reduce_columns reduce df rest;
      Ok ((stat, val) :: vals)
  end.

(** [xs[mask]] *)
Fixpoint boolean_index {A : Type} (xs : list A) (mask : list bool) : list A :=
  match xs, mask with
  | x :: xs', b :: mask' =>
      if b then x :: boolean_index xs' mask' else boolean_index xs' mask'
  | _, _ => []
  end.

(** [', '.join(names)] *)
Definition join_comma (names : list string) : string :=
  String.concat ", " names.

(** One row of [maxStatDF] or [minStatDF]: the columns ['Stat'], ['Value']
    and ['Manager(s)']. *)
Record StatLine : Type := {
  Stat : string;
  Value : Q;
  Managers : string
}.

(** Lines 302-305 and 315-318: the body of the [iteritems] loops. *)
Definition stat_line (df : DataFrame) (stat : string) (val : Q)
  : result StatLine :=
  col ← column df stat;
  let mask := map (fun v => float_eq v val) col in
  let managers := map manager (boolean_index df mask) in
  Ok {| Stat := stat; Value := val; Managers := join_comma managers |}.

Fixpoint stat_lines (df : DataFrame) (cats : list (string * Q))
  : result (list StatLine) :=
  match cats with
  | [] => Ok []
  | (stat, val) :: rest =>
      line ← stat_line df stat val;
      lines ← stat_lines df rest;
      Ok (line :: lines)
  end.

(** Returns [(maxStatDF, minStatDF)]. *)
Definition max_min_stats (origStatCats : list string) (df : DataFrame)
  : result (list StatLine * list StatLine) :=
  let statCats := (origStatCats ++ ["FGM"; "FGA"; "FTM"; "FTA"])%list in
  maxCats ← reduce_columns series_max df statCats;
  maxStatList ← stat_lines df maxCats;
  minCats ← reduce_columns series_min df statCats;
  minStatList ← stat_lines df minCats;
  Ok (maxStatList, minStatList).

(** ** refresh_oauth_file *)

(** [p.rfind(c)]: the highest index of [c], or [-1]. *)
Fixpoint rfind_from (c : ascii) (p : string) (i : Z) (found : Z) : Z :=
  match p with
  | EmptyString => found
  | String a rest => rfind_from c rest (i + 1) (if Ascii.eqb a c then i else found)
  end.
Definition rfind (c : ascii) (p : string) : Z := rfind_from c p 0 (-1).

(** The [while] loop of [genericpath._splitext]: is there a character other
    than the dot in [p[filenameIndex:dotIndex]]? *)
Fixpoint has_non_dot (p : string) (filenameIndex : Z) (steps : nat) : bool :=
  match steps with
  | O => false
  | S steps' =>
      match String.get (Z.to_nat filenameIndex) p with
      | Some a =>
          if Ascii.eqb a "." then has_non_dot p (filenameIndex + 1) steps'
          else true
      | None => true
      end
  end.

(** [os.path.splitext] of [posixpath]. *)
Definition splitext (p : string) : string * string :=
  let sepIndex := rfind "/" p in
  let dotIndex := rfind "." p in
  if (dotIndex >? sepIndex)
     && has_non_dot p (sepIndex + 1) (Z.to_nat (dotIndex - (sepIndex + 1)))
  then (String.substring 0 (Z.to_nat dotIndex) p,
        String.substring (Z.to_nat dotIndex)
          (String.length p - Z.to_nat dotIndex) p)
  else (p, "").

(** The two formats of the credential file. *)
Inductive Format : Type := Json | Yaml.

(** The message of line 427. *)
Definition wrong_format : string :=
  "Wrong file format for yahoo oauth keys. Please use json or yaml".

(** The file to write back: lines 434-442. *)
Record Rewrite : Type := {
  rw_path : string;
  rw_format : Format;
  rw_keys : gmap string string
}.

(** [d[k]] on a dict. *)
Definition dict_get (d : gmap string string) (k : string) : result string :=
  match d !! k with
  | Some v => Ok v
  | None => Raise (KeyError k)
  end.

Section OAuth.

(** [open(oauthFile)] followed by [json.load] or [yaml.safe_load]: the
    file system and the parsers are outside the script. *)
Variable load : Format → string → result (gmap string string).

(** Lines 429-442. *)
Definition rewrite_keys (oauthFile : string) (fmt : Format)
    (oauthKeys : gmap string string) : result Rewrite :=
  consumer_key ← dict_get oauthKeys "consumer_key";
  consumer_secret ← dict_get oauthKeys "consumer_secret";
  Ok {| rw_path := oauthFile; rw_format := fmt;
        rw_keys := <["consumer_secret" := consumer_secret]>
                     (<["consumer_key" := consumer_key]> ∅) |}.

(** Lines 414-442.  [None] when nothing is rewritten; the OAuth session
    and the league lookup that follow are calls into the client
    libraries. *)
Definition refresh_oauth_file (oauthFile : string) (refresh : bool)
  : result (option Rewrite) :=
  if refresh then
    let ext := (splitext oauthFile).2 in
    if String.eqb ext ".json" then
      oauthKeys ← load Json oauthFile;
      rw ← rewrite_keys oauthFile Json oauthKeys;
      Ok (Some rw)
    else if String.eqb ext ".yaml" then
      oauthKeys ← load Yaml oauthFile;
      rw ← rewrite_keys oauthFile Yaml oauthKeys;
      Ok (Some rw)
    else Raise (ValueError wrong_format)
  else Ok None.

End OAuth.

(** ** The main script: the days that are walked *)

(** A [datetime.date] is its proleptic Gregorian ordinal, so that adding a
    [timedelta(days=d)] is adding [d] and the [days] of a difference of two
    dates is the difference of the ordinals. *)
Record datetime : Type := {
  ordinal : Z;
  hour : Z;
  minute : Z;
  second : Z
}.

(** [datetime.datetime.combine(date, datetime.time(h, m, s))] *)
Definition combine (date : Z) (h m s : Z) : datetime :=
  {| ordinal := date; hour := h; minute := m; second := s |}.

(** Lines 480-485; [startDate, endDate = week_date_range(week)]. *)
Definition date_ranges (startDate endDate : Z) : list datetime :=
  let dateDiff_days := endDate - startDate in
  map (fun d => combine (startDate + Z.of_nat d) 23 59 59)
      (range (Z.to_nat (dateDiff_days + 2))).

(** Line 487. *)
Definition previous_sunday (startDate : Z) : datetime :=
  combine (startDate - 1) 23 59 59.

(** [enumerate(xs)] *)
Definition enumerate {A : Type} (xs : list A) : list (nat * A) :=
  zip (seq 0 (length xs)) xs.

(** ** The main script: rosters and the weekly totals *)

(** One entry of [teamObject.roster(day=...)]. *)
Record Player : Type := {
  p_id : Z;
  p_name : string
}.

(** One cell of a stat line of [league.player_stats]: a number, or the
    dash of a category without a value. *)
Inductive Cell (V : Type) : Type :=
| Dash
| Num (v : V).
Arguments Dash {V}.
Arguments Num {V} v.

(** One row of a roster dataframe.  [totals] is the block of the columns
    [statCats], in the order of [statCats]; it is empty while the frame has
    no such columns.  The flags are [False] while the frame has no
    [dropped] and [added] columns. *)
Record RosterRow (V : Type) : Type := {
  player_id : Z;
  name : string;
  totals : list V;
  dropped : bool;
  added : bool
}.
Arguments player_id {V} r.
Arguments name {V} r.
Arguments totals {V} r.
Arguments dropped {V} r.
Arguments added {V} r.

(** A row with one block of columns replaced. *)
Definition with_totals {V : Type} (r : RosterRow V) (t : list V) : RosterRow V :=
  {| player_id := player_id r; name := name r; totals := t;
     dropped := dropped r; added := added r |}.
Definition with_flags {V : Type} (r : RosterRow V) (d a : bool) : RosterRow V :=
  {| player_id := player_id r; name := name r; totals := totals r;
     dropped := d; added := a |}.
Definition with_dropped {V : Type} (r : RosterRow V) (d : bool) : RosterRow V :=
  {| player_id := player_id r; name := name r; totals := totals r;
     dropped := d; added := added r |}.

Abbreviation Frame V := (list (RosterRow V)) (only parsing).

(** The players of the rows, in order. *)
Definition ids {V : Type} (f : Frame V) : list Z := map player_id f.

(** [frame['player_id'].to_list()].  A frame made from an empty roster has
    no columns, and frames never lose rows. *)
Definition player_ids {V : Type} (f : Frame V) : result (list Z) :=
  match f with
  | [] => Raise (KeyError "player_id")
  | _ => Ok (ids f)
  end.

(** [pd.DataFrame(teamObject.roster(day=...))] *)
Definition new_frame {V : Type} (players : list Player) : Frame V :=
  map (fun p => {| player_id := p_id p; name := p_name p; totals := [];
                   dropped := false; added := false |}) players.

(** [frame.loc[frame['player_id'] == pID, ...]]: the rows selected by id. *)
Definition has_id {V : Type} (pID : Z) (r : RosterRow V) : bool :=
  player_id r =? pID.

(** Roster dataframes are objects: the cells of [teamDF] and of the
    [currentRoster] series hold references into a store of frames. *)
Record State (V : Type) : Type := {
  heap : list (Frame V);
  sundayRefs : list nat;
  totalsRefs : list nat
}.
Arguments heap {V} s.
Arguments sundayRefs {V} s.
Arguments totalsRefs {V} s.

(** [series.loc[idx]], read *)
Definition frame_at {V : Type} (h : list (Frame V)) (refs : list nat)
    (idx : nat) : result (Frame V) :=
  match refs !! idx with
  | Some l =>
      match h !! l with
      | Some f => Ok f
      | None => Raise (KeyError "frame")
      end
  | None => Raise (KeyError "loc")
  end.

(** [series.loc[idx]], updated in place *)
Definition update_at {V : Type} (refs : list nat) (idx : nat)
    (g : Frame V → Frame V) (h : list (Frame V)) : result (list (Frame V)) :=
  match refs !! idx with
  | Some l => Ok (alter g l h)
  | None => Raise (KeyError "loc")
  end.

Section Week.

(** Stat values with the number [0] and the [+] of [+=].  Nothing is
    assumed about them, so the sums below are sums in the order of the
    days, as floating-point sums are. *)
Context {V : Type} (zero : V) (add : V → V → V).

(** The league: its teams, [teamObject.roster(day=...)],
    [league.player_stats] (one stat line per requested player id, one
    cell per category) and the display names of the categories. *)
Context {Team : Type}.
Variable teams : list Team.
Variable roster : Team → datetime → list Player.
Variable player_stats : datetime → Z → string → Cell V.
Variable statCats : list string.

(** [frame[statCats] = 0] *)
Definition zero_stats (f : Frame V) : Frame V :=
  map (fun r => with_totals r (replicate (length statCats) zero)) f.

(** [frame['dropped'] = False; frame['added'] = False] *)
Definition clear_flags (f : Frame V) : Frame V :=
  map (fun r => with_flags r false false) f.

(** [frame.loc[frame['player_id'] == pID, statCats] = values] *)
Definition set_stats (pID : Z) (values : list V) (f : Frame V) : Frame V :=
  map (fun r => if has_id pID r then with_totals r values else r) f.

(** [frame.loc[frame['player_id'] == pID, statCats] += values] *)
Definition add_stats (pID : Z) (values : list V) (f : Frame V) : Frame V :=
  map (fun r => if has_id pID r
                then with_totals r (zip_with add (totals r) values)
                else r) f.

(** [frame.loc[frame['player_id'] == d, 'dropped'] = True] *)
Definition set_dropped (d : Z) (f : Frame V) : Frame V :=
  map (fun r => if has_id d r then with_dropped r true else r) f.

(** Lines 487-492: the rosters of the Sunday before the week. *)
Definition setup (previousSunday : datetime) : State V :=
  {| heap := map (fun t => zero_stats (new_frame (roster t previousSunday)))
                 teams;
     sundayRefs := seq 0 (length teams);
     totalsRefs := [] |}.

(** Lines 510-517: the body of the first loop over [currentRoster]. *)
Definition collect_body (cur sunday : list nat) (idx : nat)
    (s : list (Frame V) * list Z) : result (list (Frame V) * list Z) :=
  h ← update_at cur idx zero_stats s.1;
  roster ← frame_at h cur idx;
  rosterIDs ← player_ids roster;
  previousRoster ← frame_at h sunday idx;
  previousIDs ← player_ids previousRoster;
  Ok (h, (s.2 ++ rosterIDs ++ previousIDs)%list).

(** [cell == '-'], and the cell after [replace('-', value=0)]. *)
Definition is_dash (c : Cell V) : bool :=
  match c with Dash => true | Num _ => false end.
Definition cell_value (c : Cell V) : V :=
  match c with Dash => zero | Num v => v end.

(** The stat line of one player on one day, category by category. *)
Definition stat_line_of (currentDate : datetime) (pID : Z) : list (Cell V) :=
  map (player_stats currentDate pID) statCats.

(** Lines 519-525: the table of the players who had a game.  The order
    of [list(set(...))] is not specified; the order of first occurrence
    stands for it. *)
Definition fetch_player_stats (currentDate : datetime) (started : list Z)
  : result (list (Z * list V)) :=
  let startedPlayerIDs := remove_dups started in
  match startedPlayerIDs with
  | [] => Raise (KeyError "statCats")
  | _ =>
      if (length statCats =? 9)%nat then
        let playerStats :=
          map (fun pID => (pID, stat_line_of currentDate pID))
              startedPlayerIDs in
        let played :=
          List.filter (fun row => negb (forallb is_dash row.2)) playerStats in
        Ok (map (fun row => (row.1, map cell_value row.2)) played)
      else Raise (ValueError "Unable to coerce to Series")
  end.

(** [playerStats.loc[playerStats['player_id'] == pID, statCats].values]
    for the one row of [pID]. *)
Definition stats_of (playerStats : list (Z * list V)) (pID : Z)
  : result (list V) :=
  match List.filter (fun row => row.1 =? pID) playerStats with
  | [row] => Ok row.2
  | _ => Raise (ValueError "shape mismatch")
  end.

(** Lines 531-541: the body of [for pID in currentPlayers]. *)
Definition assign_player (cur totals : list nat)
    (playerStats : list (Z * list V)) (idx : nat) (pID : Z)
    (h : list (Frame V)) : result (list (Frame V)) :=
  rosterTotals ← frame_at h totals idx;
  totalsIDs ← player_ids rosterTotals;
  if bool_decide (pID ∉ totalsIDs) then
    values ← stats_of playerStats pID;
    h ← update_at cur idx (set_stats pID values) h;
    roster ← frame_at h cur idx;
    match List.filter (has_id pID) roster with
    | row :: _ =>
        update_at totals idx
          (fun f => (f ++ [with_flags row false true])%list) h
    | [] => Raise IndexError
    end
  else
    values ← stats_of playerStats pID;
    update_at totals idx (add_stats pID values) h.

(** Lines 548-549: the body of [for pID in previousPlayers]. *)
Definition assign_previous (sunday : list nat)
    (playerStats : list (Z * list V)) (idx : nat) (pID : Z)
    (h : list (Frame V)) : result (list (Frame V)) :=
  values ← stats_of playerStats pID;
  update_at sunday idx (add_stats pID values) h.

(** [list(set(xs) & set(ys))], in the order of [xs]. *)
Definition intersect_ids (xs ys : list Z) : list Z :=
  List.filter (fun x => bool_decide (x ∈ ys)) (remove_dups xs).

(** [list(set(xs) - set(ys))], in the order of [xs]. *)
Definition subtract_ids (xs ys : list Z) : list Z :=
  List.filter (fun x => bool_decide (x ∉ ys)) (remove_dups xs).

(** Lines 527-549: the body of the second loop over [currentRoster]. *)
Definition team_body (cur sunday totals : list nat)
    (playerStats : list (Z * list V)) (idx : nat) (h : list (Frame V))
  : result (list (Frame V)) :=
  roster ← frame_at h cur idx;
  rosterIDs ← player_ids roster;
  let currentPlayers := intersect_ids (map fst playerStats) rosterIDs in
  h ← for_each currentPlayers (assign_player cur totals playerStats idx) h;
  previousRoster ← frame_at h sunday idx;
  previousIDs ← player_ids previousRoster;
  let previousPlayers := intersect_ids (map fst playerStats) previousIDs in
  for_each previousPlayers (assign_previous sunday playerStats idx) h.

(** Lines 554-557: the body of the loop over [teamDF['rosterTotals']]. *)
Definition dropped_body (cur totals : list nat) (idx : nat)
    (h : list (Frame V)) : result (list (Frame V)) :=
  roster ← frame_at h totals idx;
  rosterIDs ← player_ids roster;
  current ← frame_at h cur idx;
  currentIDs ← player_ids current;
  let droppedPlayerIDs := subtract_ids rosterIDs currentIDs in
  for_each droppedPlayerIDs
    (fun d h => update_at totals idx (set_dropped d) h) h.

(** Lines 507-557: what is done with the rosters of the day once they are
    fetched. *)
Definition day_steps (dIdx : nat) (currentDate : datetime)
    (currentRoster sunday totals : list nat) (h : list (Frame V))
  : result (list (Frame V)) :=
  s ← for_each (range (length currentRoster))
        (collect_body currentRoster sunday) (h, []);
  playerStats ← fetch_player_stats currentDate s.2;
  h ← for_each (range (length currentRoster))
        (team_body currentRoster sunday totals playerStats) s.1;
  if (dIdx =? 6)%nat then
    for_each (range (length totals)) (dropped_body currentRoster totals) h
  else Ok h.

(** Lines 495-557: the body of [for dIdx, currentDate in
    enumerate(dateRanges)].  [currentRoster] is a series of fresh frames;
    on the first day [currentRoster.copy()] copies the references, so
    [teamDF['rosterTotals']] then holds the very same frames. *)
Definition day_body (day : nat * datetime) (st : State V)
  : result (State V) :=
  let '(dIdx, currentDate) := day in
  let n := length teams in
  let currentRoster := seq (length (heap st)) n in
  let h := (heap st ++ map (fun t => new_frame (roster t currentDate)) teams)%list in
  '(h, totals) ←
    (if (dIdx =? 0)%nat then
       let rosterTotals := currentRoster in
       h ← for_each (range n)
             (fun idx h =>
                h ← update_at rosterTotals idx zero_stats h;
                update_at rosterTotals idx clear_flags h) h;
       Ok (h, rosterTotals)
     else Ok (h, totalsRefs st));
  h ← day_steps dIdx currentDate currentRoster (sundayRefs st) totals h;
  Ok {| heap := h; sundayRefs := sundayRefs st; totalsRefs := totals |}.

(** Lines 494-557 for a list of days. *)
Definition walk_days (dateRanges : list datetime) (st : State V)
  : result (State V) :=
  for_each (enumerate dateRanges) day_body st.

(** Lines 480-557. *)
Definition weekly_accumulation (startDate endDate : Z) : result (State V) :=
  walk_days (date_ranges startDate endDate) (setup (previous_sunday startDate)).


End Week.

(** ** highlight_max_and_min_cols *)

(** The index of the first cell that no other cell beats, scanning from
    the left: [better y best] replaces the best cell so far. *)
Fixpoint arg_scan (better : Q → Q → bool) (rest : list Q) (i : nat)
    (best : Q) (besti : nat) : nat :=
  match rest with
  | [] => besti
  | y :: rest' =>
      if better y best then arg_scan better rest' (S i) y i
      else arg_scan better rest' (S i) best besti
  end.

(** [row.argmin()] and [row.argmax()]: the position of the first smallest
    (largest) value; an empty series has none. *)
Definition argmin (row : list Q) : result nat :=
  match row with
  | [] => Raise (ValueError "attempt to get argmin of an empty sequence")
  | x :: rest => Ok (arg_scan float_lt rest 1 x 0)
  end.
Definition argmax (row : list Q) : result nat :=
  match row with
  | [] => Raise (ValueError "attempt to get argmax of an empty sequence")
  | x :: rest => Ok (arg_scan float_gt rest 1 x 0)
  end.

Definition green : string := "background: green".
Definition red : string := "background: red".
Definition yellow : string := "background: yellow".

(** Lines 254-263.  [name] is [row.name], the label of the styled column,
    and [row] its values. *)
Definition highlight_max_and_min_cols (name : string) (row : list Q)
  : result (list string) :=
  let backgrounds := replicate (length row) "" in
  if String.eqb name "TO" then
    let backgrounds := replicate (length row) "" in
    lo ← argmin row;
    let backgrounds := <[lo := green]> backgrounds in
    hi ← argmax row;
    let backgrounds := <[hi := red]> backgrounds in
    Ok backgrounds
  else
    lo ← argmin row;
    let backgrounds := <[lo := red]> backgrounds in
    hi ← argmax row;
    let backgrounds := <[hi := green]> backgrounds in
    Ok backgrounds.

(** ** The main script: what the roster moves were worth *)

(** [xs[c]] by position *)
Definition item {A : Type} (xs : list A) (c : nat) : result A :=
  match xs !! c with
  | Some x => Ok x
  | None => Raise IndexError
  end.

(** [df.loc[i, cols]]: the cells of one row under the labels [cols]. *)
Fixpoint row_cells (row : TeamRow) (cols : list string) : result (list Q) :=
  match cols with
  | [] => Ok []
  | c :: rest =>
      v ← getitem row c;
      vs ← row_cells row rest;
      Ok (v :: vs)
  end.

(** [df['matchupNumber'].unique()], in order of first appearance.  A
    frame made from an empty list of dicts has no columns. *)
Definition matchup_numbers (df : DataFrame) : result (list string) :=
  match df with
  | [] => Raise (KeyError "matchupNumber")
  | _ => Ok (remove_dups (map matchupNumber df))
  end.

(** [df[df['matchupNumber'] == m].index] *)
Definition matchup_index (df : DataFrame) (m : string) : list nat :=
  map fst (List.filter (fun ir => String.eqb (matchupNumber ir.2) m)
             (enumerate df)).

(** One value of [matchupDiffs]: the differences, the opponent and the
    matchup number. *)
Record MatchupDiff : Type := {
  md_stats : list Q;
  md_opponent : string;
  md_number : string
}.

(** Lines 571-574: the body of [for m in df['matchupNumber'].unique()].
    [float_sub a b] is [a - b] on two floats, the difference rounded to a
    float; nothing is assumed about the rounding. *)
Definition matchup_diff_body (float_sub : Q → Q → Q)
    (countingStats : list string) (df : DataFrame)
    (m : string) (matchupDiffs : gmap string MatchupDiff)
  : result (gmap string MatchupDiff) :=
  match matchup_index df m with
  | [i; j] =>
      rowi ← df_loc df i;
      rowj ← df_loc df j;
      si ← row_cells rowi countingStats;
      sj ← row_cells rowj countingStats;
      let matchupDiffs :=
        <[manager rowi := {| md_stats := zip_with float_sub si sj;
                             md_opponent := manager rowj;
                             md_number := m |}]> matchupDiffs in
      sj' ← row_cells rowj countingStats;
      si' ← row_cells rowi countingStats;
      Ok (<[manager rowj := {| md_stats := zip_with float_sub sj' si';
                               md_opponent := manager rowi;
                               md_number := m |}]> matchupDiffs)
  | [] | [_] => Raise (ValueError "not enough values to unpack")
  | _ => Raise (ValueError "too many values to unpack")
  end.

(** Lines 562 and 569-574.  The counting categories are all but the two
    percentages. *)
Definition matchup_diffs (float_sub : Q → Q → Q) (statCats : list string)
    (df : DataFrame) : result (gmap string MatchupDiff) :=
  let countingStats := drop 2 statCats in
  numbers ← matchup_numbers df;
  for_each numbers (matchup_diff_body float_sub countingStats df) ∅.

(** Lines 596-612: the body of [for c in range(len(addedPlayerStats))],
    with the subtraction of floats [float_sub]. *)
Definition boost_body (float_sub : Q → Q → Q)
    (addedPlayerStats weekTotalsDifference : list Q)
    (c : nat) (playerBoost : list (Cell Q)) : result (list (Cell Q)) :=
  if Z.of_nat c =? Z.of_nat (length addedPlayerStats) - 1 then
    d ← item weekTotalsDifference c;
    a ← item addedPlayerStats c;
    if float_gt d a then Ok (playerBoost ++ [Dash])%list
    else Ok (playerBoost ++ [Num (float_sub a d)])%list
  else
    d ← item weekTotalsDifference c;
    if float_lt d 0 then Ok (playerBoost ++ [Dash])%list
    else
      a ← item addedPlayerStats c;
      Ok (playerBoost ++ [Num (float_sub a d)])%list.

(** Lines 594-612: the list [playerBoost]. *)
Definition player_boost (float_sub : Q → Q → Q)
    (addedPlayerStats weekTotalsDifference : list Q)
  : result (list (Cell Q)) :=
  for_each (range (length addedPlayerStats))
    (boost_body float_sub addedPlayerStats weekTotalsDifference) [].

(** [sum(series > 0)] and [sum(series < 0)] *)
Definition count_positive (xs : list Q) : Z :=
  Z.of_nat (length (List.filter (fun x => float_gt x 0) xs)).
Definition count_negative (xs : list Q) : Z :=
  Z.of_nat (length (List.filter (fun x => float_lt x 0) xs)).

(** Lines 616-617, on the cells that line 591 stored under
    [countingStats]: [(improvement, worsened)]. *)
Definition improved_worsened (addedPlayerStats : list Q) : result (Z * Z) :=
  let nonTOs := removelast addedPlayerStats in
  let up := count_positive nonTOs in
  match last addedPlayerStats with
  | None => Raise IndexError
  | Some to =>
      let improvement := up + (if float_lt to 0 then 1 else 0) in
      let down := count_negative nonTOs in
      let worsened := down + (if float_gt to 0 then 1 else 0) in
      Ok (improvement, worsened)
  end.

(** Lines 639-663: the body of [for c in range(len(cols[1:]))]. *)
Definition highlight_body (addedPlayerStats weekTotalsDifference : list Q)
    (c : nat) (playerBoost : list string) : result (list string) :=
  if Z.of_nat c =? Z.of_nat (length addedPlayerStats) - 1 then
    d ← item weekTotalsDifference c;
    if float_lt d 0 then Ok (playerBoost ++ [green])%list
    else
      a ← item addedPlayerStats c;
      if float_gt d a then Ok (playerBoost ++ [yellow])%list
      else Ok (playerBoost ++ [red])%list
  else
    d ← item weekTotalsDifference c;
    if float_lt d 0 then Ok (playerBoost ++ [red])%list
    else
      a ← item addedPlayerStats c;
      if float_gt d a then Ok (playerBoost ++ [yellow])%list
      else Ok (playerBoost ++ [green])%list.

(** Lines 633-665.  [manager] is [cols['manager']] and [ncols] is
    [len(cols)], the manager cell and the styled stat cells. *)
Definition highlight_adds (manager : string) (ncols : nat)
    (addedCountingStatsDict : gmap string (list Q * list Q))
  : result (list string) :=
  match addedCountingStatsDict !! manager with
  | None => Raise (KeyError manager)
  | Some (addedPlayerStats, weekTotalsDifference) =>
      for_each (range (ncols - 1))
        (highlight_body addedPlayerStats weekTotalsDifference) [""]
  end.

(** ** extract_matchup_scores *)

(** [s.split(sep)] for a one-character separator. *)
Fixpoint split (sep : ascii) (s : string) : list string :=
  match s with
  | EmptyString => [EmptyString]
  | String c rest =>
      if Ascii.eqb c sep then EmptyString :: split sep rest
      else match split sep rest with
           | piece :: pieces => String c piece :: pieces
           | [] => [String c EmptyString]
           end
  end.

(** What the function reads of one team of the scoreboard:
    [teamInfo[-1]['managers'][0]['manager']['nickname']],
    [teamInfo[2]['name']] and the [['stat']['value']] of every entry of
    [teamStats['team_stats']['stats']]. *)
Record TeamEntry : Type := {
  nickname : string;
  team_name : string;
  stat_values : list string
}.

Section Extract.

(** [float(text)]: the parser of the interpreter. *)
Variable float : string → result Q.

(** Lines 57-58: the dict comprehension over [zip(statCats, teamStats)];
    a label met twice keeps its last value. *)
Fixpoint labeled_stats (statCats : list string) (teamStats : list string)
    (labeledStats : gmap string Q) : result (gmap string Q) :=
  match statCats, teamStats with
  | statNames :: statCats', statValues :: teamStats' =>
      v ← float statValues;
      labeled_stats statCats' teamStats' (<[statNames := v]> labeledStats)
  | _, _ => Ok labeledStats
  end.

(** Lines 51-66: the body of [for team in range(curMatchup['count'])]. *)
Definition extract_team (statCats : list string) (matchupNumber : string)
    (team : TeamEntry) : result TeamRow :=
  let teamStats := stat_values team in
  fg0 ← item teamStats 0;
  let fg := split "/" fg0 in
  ft0 ← item teamStats 2;
  let ft := split "/" ft0 in
  pct ← item teamStats 1;
  let teamStats := pct :: drop 3 teamStats in
  labeledStats ← labeled_stats statCats teamStats ∅;
  made ← item fg 0;
  FGM ← float made;
  let labeledStats := <["FGM" := FGM]> labeledStats in
  attempted ← item fg 1;
  FGA ← float attempted;
  let labeledStats := <["FGA" := FGA]> labeledStats in
  made ← item ft 0;
  FTM ← float made;
  let labeledStats := <["FTM" := FTM]> labeledStats in
  attempted ← item ft 1;
  FTA ← float attempted;
  let labeledStats := <["FTA" := FTA]> labeledStats in
  Ok {| manager := nickname team; teamName := team_name team;
        matchupNumber := matchupNumber; stats := labeledStats |}.

(** Lines 49-66: the teams of one matchup, appended to [matchupStats]. *)
Definition extract_matchup (statCats : list string) (curWeek : list (list TeamEntry))
    (matchupNumber : nat) (matchupStats : list TeamRow)
  : result (list TeamRow) :=
  curMatchup ← item curWeek matchupNumber;
  let matchupNumber := str_of_int (Z.of_nat matchupNumber) in
  for_each (range (length curMatchup))
    (fun team rows =>
       entry ← item curMatchup team;
       row ← extract_team statCats matchupNumber entry;
       Ok (rows ++ [row])%list) matchupStats.

(** Lines 36-73.  [statCats] is the list of display names of
    [league.stat_categories()]; [curWeek] is the scoreboard of the week,
    one list of teams per matchup.  The value is the list of dicts
    [matchupStats], one per team, that line 68 turns into the frame; when
    the dicts have the same labels it is the frame, row by row. *)
Definition extract_matchup_scores (statCats : list string)
    (curWeek : list (list TeamEntry)) : result (list TeamRow) :=
  for_each (range (length curWeek)) (extract_matchup statCats curWeek) [].

End Extract.

(** * Vocabulary of the statements *)

(** ** Comparisons *)

(** The number of categories counted so far. *)
Definition tally_sum (t : Tally) : Z := curScore t + vsScore t + tieScore t.

(** The same counts seen from the other row. *)
Definition swap_tally (t : Tally) : Tally :=
  {| curScore := vsScore t; vsScore := curScore t; tieScore := tieScore t |}.

(** Every label of [cats] is a column of the row. *)
Definition has_columns (cats : list string) (row : TeamRow) : bool :=
  forallb (fun cat => bool_decide (is_Some (stats row !! cat))) cats.

(** An [n] by [n] array. *)
Definition square {A : Type} (n : nat) (m : Matrix A) : Prop :=
  length m = n ∧ ∀ i row, m !! i = Some row → length row = n.

(** Every row of the dataframe has every column of [cats]. *)
Definition all_have_columns (cats : list string) (df : DataFrame) : bool :=
  forallb (has_columns cats) df.

(** Cell [(i, j)] of both arrays holds the outcome of row [i] against
    row [j]. *)
Definition cell_done (nonTOs : list string) (TOs : string) (df : DataFrame)
    (arr : Arrays) (i j : nat) : Prop :=
  ∃ cur vs t,
    df !! i = Some cur ∧ df !! j = Some vs
    ∧ compare_rows nonTOs TOs cur vs = Ok t
    ∧ mget (matchupScore arr) i j = Some (Some (format_score t))
    ∧ mget (matchupWinner arr) i j = Some (winner_value t).

(** Both arrays are [n] by [n]. *)
Definition arrays_square (n : nat) (arr : Arrays) : Prop :=
  square n (matchupScore arr) ∧ square n (matchupWinner arr).

(** The sum of one row of a float array. *)
Definition qsum (row : list Q) : Q := fold_left Qplus row 0%Q.

(** The values a cell of [matchupWinner] can hold once the diagonal is
    zeroed. *)
Definition is_outcome (c : Q) : Prop := c = 0%Q ∨ c = 1%Q ∨ c = (1 # 2)%Q.

(** The three summary columns, from one row of [matchupWinner] with its
    diagonal zeroed. *)
Definition wins_of (row : list Q) : Q :=
  qsum (map (fun c => if float_eq c 1 then c else 0%Q) row).
Definition losses_of (row : list Q) : Q :=
  (qsum (map (fun c => 1 - c)
          (map (fun c => if float_eq c 0 then c else 1%Q) row)) - 1)%Q.
Definition ties_of (row : list Q) : Q :=
  qsum (map (fun c => if float_eq c (1 # 2) then 1%Q else c)
          (map (fun c => if float_eq c (1 # 2) then c else 0%Q) row)).

(** ** A sample league *)

(** Three teams over three categories. *)
Definition sample_row (m : string) (pts reb to : Q) : TeamRow :=
  {| manager := m; teamName := m +:+ "'s team"; matchupNumber := "0";
     stats := <["PTS" := pts]> (<["REB" := reb]> (<["TO" := to]> ∅)) |}.

Definition sample_cats : list string := ["PTS"; "REB"; "TO"].

Definition sample_df : list TeamRow :=
  [sample_row "ann" 410 (401 # 2) 55; sample_row "bob" 433 (401 # 2) 61;
   sample_row "cy" 410 180 55].

(** ** Extremes of a column *)

(** The row reaches [val] in column [stat]. *)
Definition attains (stat : string) (val : Q) (row : TeamRow) : bool :=
  match stats row !! stat with
  | Some v => float_eq v val
  | None => false
  end.

(** [val] is a cell of column [stat] and no cell of the column is above
    (below) it. *)
Definition is_column_max (df : list TeamRow) (stat : string) (val : Q) : Prop :=
  (∃ row, row ∈ df ∧ stats row !! stat = Some val)
  ∧ ∀ row v, row ∈ df → stats row !! stat = Some v → (v <= val)%Q.
Definition is_column_min (df : list TeamRow) (stat : string) (val : Q) : Prop :=
  (∃ row, row ∈ df ∧ stats row !! stat = Some val)
  ∧ ∀ row v, row ∈ df → stats row !! stat = Some v → (val <= v)%Q.

(** The report line of one category. *)
Definition line_of (df : list TeamRow) (cat : string * Q) : StatLine :=
  {| Stat := cat.1; Value := cat.2;
     Managers := join_comma
                   (map manager (List.filter (attains cat.1 cat.2) df)) |}.

(** Three teams with the points and the made and attempted shots. *)
Definition sample_totals_row (m : string) (pts fgm fga ftm fta : Q) : TeamRow :=
  {| manager := m; teamName := m; matchupNumber := "0";
     stats := <["PTS" := pts]> (<["FGM" := fgm]> (<["FGA" := fga]>
              (<["FTM" := ftm]> (<["FTA" := fta]> ∅)))) |}.

Definition sample_totals_df : list TeamRow :=
  [sample_totals_row "ann" 410 150 320 60 80;
   sample_totals_row "bob" 433 150 333 71 90;
   sample_totals_row "cy" 433 149 300 60 77].

(** A loader for a directory that holds [yahoo_oauth.json] only. *)
Definition sample_load (fmt : Format) (path : string)
  : result (gmap string string) :=
  if String.eqb path "yahoo_oauth.json"
  then Ok (<["consumer_key" := "k"]> (<["consumer_secret" := "s"]>
           (<["access_token" := "t"]> ∅)))
  else Raise (OSError path).

(** ** Weekly totals *)

(** The player had a game that day: not every cell of the stat line is a
    dash. *)
Definition played {V : Type} (player_stats : datetime → Z → string → Cell V)
    (statCats : list string) (pID : Z) (day : datetime) : bool :=
  negb (forallb is_dash (stat_line_of player_stats statCats day pID)).




(** The frame has a row for the player, and every such row carries the
    totals [acc]. *)
Definition tracks {V : Type} (pID : Z) (f : list (RosterRow V)) (acc : list V)
  : Prop :=
  pID ∈ ids f ∧ ∀ r, r ∈ f → player_id r = pID → totals r = acc.

(** Frames are never removed or shortened, and no row changes its player. *)
Definition grows {V : Type} (h h' : list (list (RosterRow V))) : Prop :=
  length h' = length h
  ∧ ∀ l f, h !! l = Some f → ∃ f', h' !! l = Some f' ∧ ids f ⊆ ids f'.

(** Every frame of the store has a row. *)
Definition populated {V : Type} (h : list (list (RosterRow V))) : Prop :=
  ∀ l f, h !! l = Some f → f ≠ [].




(** A league of two teams over nine categories, with integer stat
    values: team 0 keeps player 1 all week, drops player 2 and picks up
    player 3; player 1 has no game on day 101. *)
Definition sample_categories : list string :=
  ["FG%"; "FT%"; "3PTM"; "PTS"; "REB"; "AST"; "ST"; "BLK"; "TO"].

Definition sample_player (i : Z) : Player := {| p_id := i; p_name := "player" |}.

Definition sample_roster (t : nat) (day : datetime) : list Player :=
  match t with
  | O => if ordinal day <? 102
         then [sample_player 1; sample_player 2]
         else [sample_player 1; sample_player 3]
  | _ => [sample_player 4; sample_player 5]
  end.

Definition sample_player_stats (day : datetime) (p : Z) (cat : string)
  : Cell Z :=
  if p =? 1 then
    if ordinal day =? 101 then Dash
    else if String.eqb cat "PTS" then Num (ordinal day - 80) else Dash
  else if p =? 4 then Dash
  else Num 2.

(** ** Further vocabulary *)

(** The number of cells of a row of a float array that equal [v]. *)
Definition count_eq (v : Q) (row : list Q) : nat :=
  length (List.filter (fun c => float_eq c v) row).

(** A character that [fix_names_teams] keeps. *)
Definition name_char (c : ascii) : bool :=
  isalnum c || Ascii.eqb c " " || Ascii.eqb c "-".

(** [r] is the position of the first smallest (largest) cell of the row. *)
Definition first_min (row : list Q) (r : nat) : Prop :=
  ∃ v, row !! r = Some v
       ∧ (∀ j y, row !! j = Some y → (v <= y)%Q)
       ∧ (∀ j y, (j < r)%nat → row !! j = Some y → (v < y)%Q).
Definition first_max (row : list Q) (r : nat) : Prop :=
  ∃ v, row !! r = Some v
       ∧ (∀ j y, row !! j = Some y → (y <= v)%Q)
       ∧ (∀ j y, (j < r)%nat → row !! j = Some y → (y < v)%Q).

(** The format that [refresh_oauth_file] reads a file of this name in. *)
Definition format_of (oauthFile : string) (fmt : Format) : Prop :=
  (splitext oauthFile).2 = ".json" ∧ fmt = Json
  ∨ (splitext oauthFile).2 = ".yaml" ∧ fmt = Yaml.

(** A loader for a directory with one yaml file that lacks the secret. *)
Definition sample_load_yaml (fmt : Format) (path : string)
  : result (gmap string string) :=
  if String.eqb path "keys.yaml"
  then Ok (<["consumer_key" := "k"]> (<["guid" := "g"]> ∅))
  else Raise (OSError path).

(** The teams of the scoreboard in the order the loops visit them, each
    with the position of its matchup. *)
Definition scoreboard_teams (curWeek : list (list TeamEntry))
  : list (nat * TeamEntry) :=
  concat (imap (fun k teams => map (pair k) teams) curWeek).

(** The text [score] reads ["made/attempted"], with two numbers that
    [float] accepts. *)
Definition shots_parse (float : string → result Q) (score : string)
    (made attempted : Q) : Prop :=
  ∃ m a more, split "/" score = m :: a :: more
              ∧ float m = Ok made ∧ float a = Ok attempted.

(** What [extract_team] needs of a team: three stat values or more, the
    first and the third of them two shot counts, and a number in every
    value that is paired with a category. *)
Definition team_parses (float : string → result Q) (statCats : list string)
    (team : TeamEntry) : Prop :=
  ∃ fg pct ft rest fgm fga ftm fta,
    stat_values team = fg :: pct :: ft :: rest
    ∧ shots_parse float fg fgm fga
    ∧ shots_parse float ft ftm fta
    ∧ ∀ v, v ∈ take (length statCats) (pct :: rest) → ∃ q, float v = Ok q.

(** A parser for the samples: whole numbers only. *)
Definition sample_float (text : string) : result Q :=
  match NilZero.int_of_string text with
  | Some n => Ok (inject_Z (Z.of_int n))
  | None => Raise (ValueError "could not convert string to float")
  end.

(** The rows of matchup [m], in the order of the frame. *)
Definition rows_of (df : list TeamRow) (m : string) : list TeamRow :=
  List.filter (fun row => String.eqb (matchupNumber row) m) df.

(** The cells of a row under the labels [cols], for a row that has them. *)
Definition cells_of (row : TeamRow) (cols : list string) : list Q :=
  map (fun c => default 0%Q (stats row !! c)) cols.

(** What [matchupDiffs] holds for the manager of [cur] when [cur] plays
    [vs]. *)
Definition diff_entry (float_sub : Q → Q → Q) (countingStats : list string)
    (cur vs : TeamRow) : MatchupDiff :=
  {| md_stats := zip_with float_sub (cells_of cur countingStats)
                   (cells_of vs countingStats);
     md_opponent := manager vs;
     md_number := matchupNumber cur |}.



(** * Properties *)

(** ** The result monad and loops *)

Lemma bind_Ok {A B : Type} (m : result A) (f : A → result B) (b : B) :
  (m ≫= f) = Ok b ↔ ∃ a, m = Ok a ∧ f a = Ok b.
Proof.
  destruct m as [a|e]; simpl.
  - split; [intros H; eauto | intros (a' & [= <-] & H); done].
  - split; [done | intros (a' & [=] & _)].
Qed.

Lemma for_each_app {A S : Type} (xs ys : list A) (body : A → S → result S) s :
  for_each (xs ++ ys) body s = (for_each xs body s ≫= for_each ys body).
Proof.
  revert s. induction xs as [|x xs IH]; intros s; simpl; [done|].
  destruct (body x s) as [s'|e]; simpl; [apply IH | done].
Qed.

Lemma range_S (n : nat) : range (S n) = (range n ++ [n])%list.
Proof. unfold range. by rewrite seq_S. Qed.

(** Invariant rule for [for k in range(n)]. *)
Lemma for_each_range_inv {S : Type} (P : nat → S → Prop) (n : nat)
    (body : nat → S → result S) (s0 : S) :
  P 0%nat s0 →
  (∀ k s, (k < n)%nat → P k s → ∃ s', body k s = Ok s' ∧ P (Datatypes.S k) s') →
  ∃ s', for_each (range n) body s0 = Ok s' ∧ P n s'.
Proof.
  intros H0 Hstep. induction n as [|n IH].
  - exists s0. done.
  - destruct IH as (s1 & Hrun & HP); [intros k s Hk; apply Hstep; lia|].
    destruct (Hstep n s1) as (s2 & Hb & HP2); [lia | done |].
    exists s2. split; [|done].
    rewrite range_S, for_each_app, Hrun. simpl. by rewrite Hb.
Qed.

(** Invariant rule for a loop over any list. *)
Lemma for_each_inv {A S : Type} (P : S → Prop) (xs : list A)
    (body : A → S → result S) (s0 : S) :
  P s0 →
  (∀ x s, x ∈ xs → P s → ∃ s', body x s = Ok s' ∧ P s') →
  ∃ s', for_each xs body s0 = Ok s' ∧ P s'.
Proof.
  revert s0. induction xs as [|x xs IH]; intros s0 H0 Hstep; simpl.
  - eauto.
  - destruct (Hstep x s0) as (s1 & Hb & HP1); [left | done |].
    rewrite Hb. simpl. apply IH; [done|].
    intros y s Hy. apply Hstep. by right.
Qed.

(** Stdlib's [map] and [List.filter] against stdpp's lookup and
    membership. *)
Lemma map_fmap {A B : Type} (f : A → B) (l : list A) : map f l = f <$> l.
Proof. induction l as [|x l IH]; simpl; [done | by rewrite IH]. Qed.

Lemma lookup_map {A B : Type} (f : A → B) (l : list A) (i : nat) :
  map f l !! i = f <$> l !! i.
Proof. rewrite map_fmap. apply list_lookup_fmap. Qed.

Lemma elem_of_map {A B : Type} (f : A → B) (l : list A) (y : B) :
  y ∈ map f l ↔ ∃ x, y = f x ∧ x ∈ l.
Proof. rewrite map_fmap. apply list_elem_of_fmap. Qed.

Lemma elem_of_List_filter {A : Type} (p : A → bool) (l : list A) (x : A) :
  x ∈ List.filter p l ↔ x ∈ l ∧ p x = true.
Proof. rewrite !list_elem_of_In. apply filter_In. Qed.

(** ** Float comparisons *)

Lemma float_lt_spec (a b : Q) : float_lt a b = true ↔ (a < b)%Q.
Proof.
  unfold float_lt. rewrite Qlt_alt. destruct (a ?= b)%Q; split; congruence.
Qed.

Lemma float_gt_spec (a b : Q) : float_gt a b = true ↔ (b < a)%Q.
Proof. apply float_lt_spec. Qed.

Lemma float_eq_spec (a b : Q) : float_eq a b = true ↔ (a == b)%Q.
Proof. apply Qeq_bool_iff. Qed.

Lemma float_lt_false (a b : Q) : float_lt a b = false ↔ (b <= a)%Q.
Proof.
  rewrite <- not_true_iff_false, float_lt_spec. split.
  - apply Qnot_lt_le.
  - apply Qle_not_lt.
Qed.

Lemma float_lt_asym (a b : Q) : float_lt a b = true → float_lt b a = false.
Proof.
  rewrite float_lt_spec, float_lt_false. apply Qlt_le_weak.
Qed.

(** ** One comparison *)

Example format_score_examples :
  format_score {| curScore := 5; vsScore := 3; tieScore := 1 |} = "5-3-1"
  ∧ format_score {| curScore := 12; vsScore := 0; tieScore := 0 |} = "12-0".
Proof. split; reflexivity. Qed.

Example keep_name_chars_example :
  keep_name_chars "D'Angelo's Team #1!" = "DAngelos Team 1".
Proof. reflexivity. Qed.

Example splitext_examples :
  splitext "yahoo_oauth.json" = ("yahoo_oauth", ".json")
  ∧ splitext "conf.d/keys" = ("conf.d/keys", "")
  ∧ splitext ".hidden" = (".hidden", "")
  ∧ splitext "keys.tar.yaml" = ("keys.tar", ".yaml").
Proof. repeat split; reflexivity. Qed.

Lemma has_columns_lookup cats row cat :
  has_columns cats row = true → cat ∈ cats → ∃ v, stats row !! cat = Some v.
Proof.
  unfold has_columns. rewrite forallb_forall. intros H Hin.
  apply list_elem_of_In in Hin. specialize (H _ Hin).
  apply bool_decide_eq_true in H. by destruct H as [v Hv]; exists v.
Qed.

Lemma getitem_Ok row cat v : getitem row cat = Ok v ↔ stats row !! cat = Some v.
Proof.
  unfold getitem. destruct (stats row !! cat); split; congruence.
Qed.

Lemma score_nonTO_sum a b t : tally_sum (score_nonTO a b t) = tally_sum t + 1.
Proof.
  unfold score_nonTO, tally_sum.
  destruct (float_gt a b), (float_lt a b); simpl; lia.
Qed.

Lemma score_TO_sum a b t : tally_sum (score_TO a b t) = tally_sum t + 1.
Proof.
  unfold score_TO, tally_sum.
  destruct (float_lt a b), (float_gt a b); simpl; lia.
Qed.

Lemma score_nonTO_nonneg a b t :
  0 ≤ curScore t ∧ 0 ≤ vsScore t ∧ 0 ≤ tieScore t →
  0 ≤ curScore (score_nonTO a b t) ∧ 0 ≤ vsScore (score_nonTO a b t)
  ∧ 0 ≤ tieScore (score_nonTO a b t).
Proof.
  unfold score_nonTO. destruct (float_gt a b), (float_lt a b); simpl; lia.
Qed.

Lemma score_nonTO_swap a b t :
  score_nonTO b a (swap_tally t) = swap_tally (score_nonTO a b t).
Proof.
  unfold score_nonTO, float_gt.
  destruct (float_lt a b) eqn:Hab.
  - by rewrite (float_lt_asym _ _ Hab).
  - by destruct (float_lt b a).
Qed.

Lemma score_TO_swap a b t :
  score_TO b a (swap_tally t) = swap_tally (score_TO a b t).
Proof.
  unfold score_TO, float_gt.
  destruct (float_lt b a) eqn:Hba.
  - by rewrite (float_lt_asym _ _ Hba).
  - by destruct (float_lt a b).
Qed.

Lemma tally_nonTOs_app cur vs pre post t :
  tally_nonTOs cur vs (pre ++ post) t
  = (tally_nonTOs cur vs pre t ≫= tally_nonTOs cur vs post).
Proof.
  revert t. induction pre as [|cat pre IH]; intros t; simpl; [done|].
  destruct (getitem cur cat) as [a|]; simpl; [|done].
  destruct (getitem vs cat) as [b|]; simpl; [|done].
  apply IH.
Qed.

Lemma tally_nonTOs_total cur vs cats t :
  has_columns cats cur = true → has_columns cats vs = true →
  ∃ t', tally_nonTOs cur vs cats t = Ok t'
        ∧ tally_sum t' = tally_sum t + Z.of_nat (length cats).
Proof.
  revert t. induction cats as [|cat cats IH]; intros t Hc Hv; simpl.
  - exists t. split; [done | lia].
  - simpl in Hc, Hv. apply andb_true_iff in Hc as [Hc1 Hc], Hv as [Hv1 Hv].
    apply bool_decide_eq_true in Hc1 as [a Ha], Hv1 as [b Hb].
    apply getitem_Ok in Ha, Hb. rewrite Ha, Hb. simpl.
    destruct (IH (score_nonTO a b t) Hc Hv) as (t' & Hrun & Hsum).
    exists t'. split; [done|]. rewrite Hsum, score_nonTO_sum. lia.
Qed.

Lemma tally_nonTOs_swap cur vs cats t t' :
  tally_nonTOs cur vs cats t = Ok t' →
  tally_nonTOs vs cur cats (swap_tally t) = Ok (swap_tally t').
Proof.
  revert t. induction cats as [|cat cats IH]; intros t; simpl.
  - by intros [= <-].
  - destruct (getitem cur cat) as [a|]; simpl; [|done].
    destruct (getitem vs cat) as [b|]; simpl; [|done].
    intros H. rewrite score_nonTO_swap. by apply IH.
Qed.

Lemma tally_nonTOs_nonneg cur vs cats t t' :
  tally_nonTOs cur vs cats t = Ok t' →
  0 ≤ curScore t ∧ 0 ≤ vsScore t ∧ 0 ≤ tieScore t →
  0 ≤ curScore t' ∧ 0 ≤ vsScore t' ∧ 0 ≤ tieScore t'.
Proof.
  revert t. induction cats as [|cat cats IH]; intros t; simpl.
  - by intros [= <-].
  - destruct (getitem cur cat) as [a|]; simpl; [|done].
    destruct (getitem vs cat) as [b|]; simpl; [|done].
    intros H Ht. apply (IH _ H). by apply score_nonTO_nonneg.
Qed.

Lemma compare_rows_swap nonTOs TOs cur vs t :
  compare_rows nonTOs TOs cur vs = Ok t →
  compare_rows nonTOs TOs vs cur = Ok (swap_tally t).
Proof.
  unfold compare_rows. intros H.
  apply bind_Ok in H as (t0 & H0 & H).
  apply bind_Ok in H as (a & Ha & H).
  apply bind_Ok in H as (b & Hb & H).
  injection H as <-.
  apply (tally_nonTOs_swap _ _ _ tally0) in H0.
  change (swap_tally tally0) with tally0 in H0.
  rewrite H0. simpl. rewrite Hb. simpl. rewrite Ha. simpl.
  by rewrite score_TO_swap.
Qed.

(** [statCats] splits into [statCats[:-1]] and [statCats[-1]]. *)
Lemma last_item_split statCats TOs :
  last_item statCats = Ok TOs →
  statCats = (all_but_last statCats ++ [TOs])%list.
Proof.
  unfold last_item, all_but_last.
  destruct (last statCats) as [c|] eqn:Hl; [|done].
  intros [= <-].
  destruct (decide (statCats = [])) as [->|Hne]; [done|].
  rewrite (app_removelast_last "" Hne) at 1. f_equal. f_equal.
  apply last_Some in Hl as (pre & ->).
  by rewrite List.last_last.
Qed.

Lemma has_columns_app cats1 cats2 row :
  has_columns (cats1 ++ cats2) row
  = has_columns cats1 row && has_columns cats2 row.
Proof. unfold has_columns. apply forallb_app. Qed.

Lemma compare_rows_total nonTOs TOs cur vs :
  has_columns (nonTOs ++ [TOs]) cur = true →
  has_columns (nonTOs ++ [TOs]) vs = true →
  ∃ t, compare_rows nonTOs TOs cur vs = Ok t
       ∧ tally_sum t = Z.of_nat (length (nonTOs ++ [TOs]))
       ∧ 0 ≤ curScore t ∧ 0 ≤ vsScore t ∧ 0 ≤ tieScore t.
Proof.
  rewrite !has_columns_app. intros [Hc1 Hc2]%andb_true_iff [Hv1 Hv2]%andb_true_iff.
  destruct (tally_nonTOs_total cur vs nonTOs tally0 Hc1 Hv1) as (t0 & Ht0 & Hsum).
  destruct (has_columns_lookup [TOs] cur TOs Hc2) as [a Ha]; [by left|].
  destruct (has_columns_lookup [TOs] vs TOs Hv2) as [b Hb]; [by left|].
  exists (score_TO a b t0). unfold compare_rows.
  rewrite Ht0. simpl.
  apply getitem_Ok in Ha, Hb. rewrite Ha, Hb. simpl.
  split; [done|]. split.
  - rewrite score_TO_sum, Hsum, length_app. unfold tally_sum. simpl. lia.
  - pose proof (tally_nonTOs_nonneg _ _ _ _ _ Ht0) as Hnn.
    unfold score_TO. destruct (float_lt a b), (float_gt a b); simpl in *; lia.
Qed.

(** ** Arrays *)

Lemma square_np_full {A : Type} (n : nat) (x : A) : square n (np_full n x).
Proof.
  split; [apply length_replicate|].
  intros i row [-> _]%lookup_replicate. apply length_replicate.
Qed.

Lemma square_mset {A : Type} n (m : Matrix A) i j x :
  square n m → square n (mset m i j x).
Proof.
  intros [Hlen Hrows]. unfold mset. split; [by rewrite length_alter|].
  intros i' row. destruct (decide (i = i')) as [<-|Hne].
  - rewrite list_lookup_alter_eq. destruct (m !! i) as [r|] eqn:Hr; [|done].
    intros [= <-]. rewrite length_insert. eauto.
  - rewrite list_lookup_alter_ne by done. eauto.
Qed.

Lemma mget_mset_eq {A : Type} n (m : Matrix A) i j x :
  square n m → (i < n)%nat → (j < n)%nat → mget (mset m i j x) i j = Some x.
Proof.
  intros [Hlen Hrows] Hi Hj. unfold mget, mset.
  rewrite list_lookup_alter_eq.
  destruct (lookup_lt_is_Some_2 m i) as [r Hr]; [lia|].
  rewrite Hr. simpl. apply list_lookup_insert_eq.
  rewrite (Hrows _ _ Hr). done.
Qed.

Lemma mget_mset_ne {A : Type} (m : Matrix A) i j i' j' x :
  (i, j) ≠ (i', j') → mget (mset m i j x) i' j' = mget m i' j'.
Proof.
  intros Hne. unfold mget, mset.
  destruct (decide (i = i')) as [<-|Hi].
  - rewrite list_lookup_alter_eq. destruct (m !! i) as [r|]; [|done].
    simpl. apply list_lookup_insert_ne. congruence.
  - by rewrite list_lookup_alter_ne.
Qed.

Lemma square_set_diag {A : Type} n (m : Matrix A) x :
  square n m → square n (set_diag x m).
Proof.
  intros [Hlen Hrows]. unfold set_diag. split; [by rewrite length_imap|].
  intros i row. rewrite list_lookup_imap.
  destruct (m !! i) as [r|] eqn:Hr; [|done].
  intros [= <-]. rewrite length_insert. eauto.
Qed.

Lemma mget_set_diag_eq {A : Type} n (m : Matrix A) x i :
  square n m → (i < n)%nat → mget (set_diag x m) i i = Some x.
Proof.
  intros [Hlen Hrows] Hi. unfold mget, set_diag.
  rewrite list_lookup_imap.
  destruct (lookup_lt_is_Some_2 m i) as [r Hr]; [lia|].
  rewrite Hr. simpl. apply list_lookup_insert_eq. by rewrite (Hrows _ _ Hr).
Qed.

Lemma mget_set_diag_ne {A : Type} (m : Matrix A) x i j :
  i ≠ j → mget (set_diag x m) i j = mget m i j.
Proof.
  intros Hne. unfold mget, set_diag. rewrite list_lookup_imap.
  destruct (m !! i) as [r|]; [|done]. simpl. by apply list_lookup_insert_ne.
Qed.

Lemma mget_square_is_Some {A : Type} n (m : Matrix A) i j :
  square n m → (i < n)%nat → (j < n)%nat → is_Some (mget m i j).
Proof.
  intros [Hlen Hrows] Hi Hj. unfold mget.
  destruct (lookup_lt_is_Some_2 m i) as [r Hr]; [lia|].
  rewrite Hr. simpl. apply lookup_lt_is_Some_2. by rewrite (Hrows _ _ Hr).
Qed.

(** ** The comparison loops *)

Lemma all_have_columns_lookup cats df i row :
  all_have_columns cats df = true → df !! i = Some row →
  has_columns cats row = true.
Proof.
  unfold all_have_columns. rewrite forallb_forall. intros H Hi.
  apply H, list_elem_of_In, list_elem_of_lookup. eauto.
Qed.

Lemma inner_body_step nonTOs TOs df i cur j arr :
  all_have_columns (nonTOs ++ [TOs]) df = true →
  df !! i = Some cur → (j < length df)%nat →
  arrays_square (length df) arr →
  (∀ i' j', (i' < i ∧ j' < length df ∨ i' = i ∧ j' < j)%nat →
            cell_done nonTOs TOs df arr i' j') →
  ∃ arr', inner_body nonTOs TOs df i cur j arr = Ok arr'
    ∧ arrays_square (length df) arr'
    ∧ ∀ i' j', (i' < i ∧ j' < length df ∨ i' = i ∧ j' < S j)%nat →
               cell_done nonTOs TOs df arr' i' j'.
Proof.
  intros Hcols Hcur Hj [Hsq1 Hsq2] Hdone.
  destruct (lookup_lt_is_Some_2 df j Hj) as [vs Hvs].
  pose proof (lookup_lt_Some _ _ _ Hcur) as Hi.
  destruct (compare_rows_total nonTOs TOs cur vs) as (t & Ht & _);
    [by eapply all_have_columns_lookup | by eapply all_have_columns_lookup |].
  unfold inner_body, df_loc. rewrite Hvs. simpl. rewrite Ht. simpl.
  eexists. split; [done|]. split.
  - split; simpl; by apply square_mset.
  - intros i' j' Hij.
    destruct (decide ((i, j) = (i', j'))) as [[= <- <-]|Hne].
    + exists cur, vs, t. simpl.
      rewrite (mget_mset_eq (length df)), (mget_mset_eq (length df)) by done.
      done.
    + destruct (Hdone i' j') as (c & v & t' & ? & ? & ? & ? & ?).
      { destruct Hij as [?|[-> ?]]; [by left | right].
        split; [done|]. destruct (decide (j' = j)) as [->|]; [done | lia]. }
      exists c, v, t'. simpl. by rewrite !mget_mset_ne.
Qed.

Lemma outer_body_step nonTOs TOs df i arr :
  all_have_columns (nonTOs ++ [TOs]) df = true →
  (i < length df)%nat →
  arrays_square (length df) arr →
  (∀ i' j', (i' < i)%nat → (j' < length df)%nat →
            cell_done nonTOs TOs df arr i' j') →
  ∃ arr', outer_body nonTOs TOs df i arr = Ok arr'
    ∧ arrays_square (length df) arr'
    ∧ ∀ i' j', (i' < S i)%nat → (j' < length df)%nat →
               cell_done nonTOs TOs df arr' i' j'.
Proof.
  intros Hcols Hi Hsq Hdone.
  destruct (lookup_lt_is_Some_2 df i Hi) as [cur Hcur].
  unfold outer_body, df_loc. rewrite Hcur. simpl.
  destruct (for_each_range_inv
    (fun j arr' => arrays_square (length df) arr'
       ∧ ∀ i' j', (i' < i ∧ j' < length df ∨ i' = i ∧ j' < j)%nat →
                  cell_done nonTOs TOs df arr' i' j')
    (length df) (inner_body nonTOs TOs df i cur) arr) as (arr' & Hrun & Hsq' & Hd').
  - split; [done|]. intros i' j' [[? ?]|[_ ?]]; [by apply Hdone | lia].
  - intros j s Hj [Hs Hd]. by apply inner_body_step.
  - exists arr'. split; [done|]. split; [done|].
    intros i' j' Hi' Hj'. apply Hd'.
    destruct (decide (i' = i)) as [->|]; [by right | left; lia].
Qed.

Lemma comparison_loops_spec nonTOs TOs df :
  all_have_columns (nonTOs ++ [TOs]) df = true →
  ∃ arr, comparison_loops nonTOs TOs df = Ok arr
    ∧ arrays_square (length df) arr
    ∧ ∀ i j, (i < length df)%nat → (j < length df)%nat →
             cell_done nonTOs TOs df arr i j.
Proof.
  intros Hcols. unfold comparison_loops.
  destruct (for_each_range_inv
    (fun i arr' => arrays_square (length df) arr'
       ∧ ∀ i' j', (i' < i)%nat → (j' < length df)%nat →
                  cell_done nonTOs TOs df arr' i' j')
    (length df) (outer_body nonTOs TOs df)
    {| matchupScore := np_full (length df) None;
       matchupWinner := np_full (length df) 0%Q |}) as (arr & Hrun & Hsq & Hd).
  - split; [split; apply square_np_full|]. intros; lia.
  - intros i s Hi [Hs Hd]. by apply outer_body_step.
  - eauto.
Qed.

(** ** The summary columns *)

Lemma fold_left_Qplus (row : list Q) (a : Q) :
  (fold_left Qplus row a == a + qsum row)%Q.
Proof.
  unfold qsum. revert a. induction row as [|x row IH]; intros a; simpl.
  - ring.
  - rewrite (IH (a + x)%Q), (IH (0 + x)%Q). ring.
Qed.

Lemma qsum_cons (x : Q) (row : list Q) : (qsum (x :: row) == x + qsum row)%Q.
Proof.
  unfold qsum at 1. simpl. rewrite fold_left_Qplus. ring.
Qed.

Lemma qsum_three_parts (f g h : Q → Q) (row : list Q) :
  (∀ c, c ∈ row → (f c + g c + h c == 1)%Q) →
  (qsum (map f row) + qsum (map g row) + qsum (map h row)
   == inject_Z (Z.of_nat (length row)))%Q.
Proof.
  induction row as [|c row IH]; intros Hone.
  - reflexivity.
  - cbn [map length]. rewrite !qsum_cons.
    rewrite Nat2Z.inj_succ, <- Z.add_1_l, inject_Z_plus.
    rewrite <- IH by (intros c' Hc'; apply Hone; by right).
    rewrite <- (Hone c) by (by left). ring.
Qed.

Lemma winner_value_outcome t : is_outcome (winner_value t).
Proof.
  unfold winner_value, is_outcome.
  destruct (curScore t >? vsScore t), (vsScore t >? curScore t); auto.
Qed.

Lemma row_totals (row : list Q) :
  (∀ c, c ∈ row → is_outcome c) →
  (wins_of row + losses_of row + ties_of row
   == inject_Z (Z.of_nat (length row)) - 1)%Q.
Proof.
  intros Hrow. unfold wins_of, losses_of, ties_of.
  rewrite !map_map.
  rewrite <- (qsum_three_parts
    (fun c => if float_eq c 1 then c else 0%Q)
    (fun c => (1 - (if float_eq c 0 then c else 1))%Q)
    (fun c => if float_eq (if float_eq c (1 # 2) then c else 0%Q) (1 # 2)
              then 1%Q
              else if float_eq c (1 # 2) then c else 0%Q) row).
  - ring.
  - intros c Hc. destruct (Hrow c Hc) as [->|[->| ->]]; reflexivity.
Qed.

Lemma sum_axis1_lookup (m : Matrix Q) i row :
  m !! i = Some row → sum_axis1 m !! i = Some (qsum row).
Proof.
  intros H. unfold sum_axis1. rewrite lookup_map, H. done.
Qed.

Lemma set_column_lookup name values df i row v :
  df !! i = Some row → values !! i = Some v →
  ∃ row', set_column name values df !! i = Some row'
    ∧ manager row' = manager row ∧ teamName row' = teamName row
    ∧ stats row' = <[name := v]> (stats row).
Proof.
  intros Hr Hv. unfold set_column. rewrite lookup_zip_with, Hr. simpl.
  rewrite Hv. simpl. eauto.
Qed.

Lemma length_set_column name values df :
  length values = length df → length (set_column name values df) = length df.
Proof.
  intros H. unfold set_column. rewrite length_zip_with. lia.
Qed.

(** ** create_matchup_comparison as a whole *)

Lemma create_matchup_comparison_unfold statCats TOs df arr :
  last_item statCats = Ok TOs →
  comparison_loops (all_but_last statCats) TOs df = Ok arr →
  let winner0 := set_diag 0%Q (matchupWinner arr) in
  create_matchup_comparison statCats df
  = Ok (fix_names_teams
          (set_column "totalTies"
             (sum_axis1 (set_where_eq (1 # 2) 1 (set_where_ne (1 # 2) 0 winner0)))
             (set_column "totalLosses"
                (map (fun s => (s - 1)%Q)
                   (sum_axis1 (map (map (fun c => (1 - c)%Q))
                                 (set_where_ne 0 1 winner0))))
                (set_column "totalWins" (sum_axis1 (set_where_ne 1 0 winner0))
                   df))),
        set_diag (Some "N/A") (matchupScore arr),
        set_diag (-1)%Q winner0).
Proof.
  intros Hlast Hloops. unfold create_matchup_comparison.
  rewrite Hlast. simpl. rewrite Hloops. reflexivity.
Qed.

Lemma create_matchup_comparison_run statCats TOs df :
  last_item statCats = Ok TOs →
  all_have_columns statCats df = true →
  ∃ arr, comparison_loops (all_but_last statCats) TOs df = Ok arr
    ∧ arrays_square (length df) arr
    ∧ ∀ i j, (i < length df)%nat → (j < length df)%nat →
             cell_done (all_but_last statCats) TOs df arr i j.
Proof.
  intros Hlast Hcols. apply comparison_loops_spec.
  by rewrite <- (last_item_split _ _ Hlast).
Qed.

Lemma winner0_row statCats TOs df arr i :
  arrays_square (length df) arr →
  (∀ i j, (i < length df)%nat → (j < length df)%nat →
          cell_done (all_but_last statCats) TOs df arr i j) →
  (i < length df)%nat →
  ∃ row, set_diag 0%Q (matchupWinner arr) !! i = Some row
    ∧ length row = length df ∧ ∀ c, c ∈ row → is_outcome c.
Proof.
  intros [_ Hsq] Hcells Hi.
  pose proof (square_set_diag _ _ 0%Q Hsq) as [Hlen Hrows].
  destruct (lookup_lt_is_Some_2 (set_diag 0%Q (matchupWinner arr)) i) as [row Hrow];
    [lia|].
  exists row. split; [done|]. split; [by eapply Hrows|].
  intros c [j Hj]%list_elem_of_lookup.
  pose proof (lookup_lt_Some _ _ _ Hj) as Hjn. rewrite (Hrows _ _ Hrow) in Hjn.
  assert (mget (set_diag 0%Q (matchupWinner arr)) i j = Some c) as Hc.
  { unfold mget. rewrite Hrow. done. }
  destruct (decide (i = j)) as [<-|Hne].
  - rewrite (mget_set_diag_eq (length df)) in Hc by done.
    injection Hc as <-. by left.
  - rewrite mget_set_diag_ne in Hc by done.
    destruct (Hcells i j Hi Hjn) as (cur & vs & t & _ & _ & _ & _ & Hw).
    rewrite Hw in Hc. injection Hc as <-. apply winner_value_outcome.
Qed.

(** ** C1 *)

(** C1. For every pair of team rows [(i, j)] of the dataframe the category
    comparison of [create_matchup_comparison] ends with counts [curScore],
    [vsScore], [tieScore] whose sum is the number of stat categories; each
    category, turnovers included, adds one point to exactly one of the
    three counts. *)
Theorem C1_counts_sum_to_category_count statCats TOs df i j curTeam vsTeam :
  last_item statCats = Ok TOs →
  all_have_columns statCats df = true →
  df !! i = Some curTeam → df !! j = Some vsTeam →
  (∃ t, compare_rows (all_but_last statCats) TOs curTeam vsTeam = Ok t
        ∧ curScore t + vsScore t + tieScore t = Z.of_nat (length statCats))
  ∧ (∀ a b t, score_nonTO a b t = cur_point t ∨ score_nonTO a b t = vs_point t
              ∨ score_nonTO a b t = tie_point t)
  ∧ (∀ a b t, score_TO a b t = cur_point t ∨ score_TO a b t = vs_point t
              ∨ score_TO a b t = tie_point t).
Proof.
  intros Hlast Hcols Hi Hj. split; [|split].
  - pose proof (last_item_split _ _ Hlast) as Hsplit.
    destruct (compare_rows_total (all_but_last statCats) TOs curTeam vsTeam)
      as (t & Ht & Hsum & _).
    + rewrite <- Hsplit. by eapply all_have_columns_lookup.
    + rewrite <- Hsplit. by eapply all_have_columns_lookup.
    + exists t. split; [done|]. rewrite <- Hsplit in Hsum. exact Hsum.
  - intros a b t. unfold score_nonTO.
    destruct (float_gt a b), (float_lt a b); auto.
  - intros a b t. unfold score_TO.
    destruct (float_lt a b), (float_gt a b); auto.
Qed.

Lemma C1_counts_sum_witness :
  ∃ t, compare_rows ["PTS"; "REB"] "TO"
         (sample_row "ann" 410 (401 # 2) 55) (sample_row "bob" 433 (401 # 2) 61)
       = Ok t
       ∧ curScore t + vsScore t + tieScore t = 3.
Proof.
  exact (proj1 (C1_counts_sum_to_category_count sample_cats "TO" sample_df
                  0 1 _ _ eq_refl eq_refl eq_refl eq_refl)).
Defined.

(** What [create_matchup_comparison] returns, cell by cell. *)
Lemma returned_arrays statCats TOs df :
  last_item statCats = Ok TOs →
  all_have_columns statCats df = true →
  ∃ arr df' score winner,
    comparison_loops (all_but_last statCats) TOs df = Ok arr
    ∧ create_matchup_comparison statCats df = Ok (df', score, winner)
    ∧ (∀ i j, (i < length df)%nat → (j < length df)%nat →
              cell_done (all_but_last statCats) TOs df arr i j)
    ∧ (∀ i j, i ≠ j → mget score i j = mget (matchupScore arr) i j
                      ∧ mget winner i j = mget (matchupWinner arr) i j)
    ∧ (∀ i, (i < length df)%nat → mget score i i = Some (Some "N/A")
                                  ∧ mget winner i i = Some (-1)%Q).
Proof.
  intros Hlast Hcols.
  destruct (create_matchup_comparison_run _ _ _ Hlast Hcols)
    as (arr & Hloops & [Hsq1 Hsq2] & Hcells).
  exists arr. do 3 eexists. split; [done|]. split.
  { by apply (create_matchup_comparison_unfold _ TOs). }
  split; [done|]. split.
  - intros i j Hne. by rewrite !mget_set_diag_ne.
  - intros i Hi. split.
    + by apply (mget_set_diag_eq (length df)).
    + apply (mget_set_diag_eq (length df)); [|done]. by apply square_set_diag.
Qed.

(** ** C2 *)

(** C2. The pairwise comparison of [create_matchup_comparison] fills a
    win/loss/tie matrix: for every pair of row indices [(i, j)] the loops
    leave [matchupWinner[i, j]] at 1 when the category-point count of team
    [i] exceeds that of team [j], at 0 when it is smaller and at 0.5 when
    the two counts are equal. *)
Theorem C2_winner_matrix statCats TOs df i j curTeam vsTeam :
  last_item statCats = Ok TOs →
  all_have_columns statCats df = true →
  df !! i = Some curTeam → df !! j = Some vsTeam →
  ∃ arr t,
    comparison_loops (all_but_last statCats) TOs df = Ok arr
    ∧ compare_rows (all_but_last statCats) TOs curTeam vsTeam = Ok t
    ∧ (curScore t > vsScore t → mget (matchupWinner arr) i j = Some 1%Q)
    ∧ (curScore t < vsScore t → mget (matchupWinner arr) i j = Some 0%Q)
    ∧ (curScore t = vsScore t → mget (matchupWinner arr) i j = Some (1 # 2)%Q).
Proof.
  intros Hlast Hcols Hi Hj.
  destruct (create_matchup_comparison_run _ _ _ Hlast Hcols)
    as (arr & Hloops & _ & Hcells).
  destruct (Hcells i j) as (cur & vs & t & Hcur & Hvs & Ht & _ & Hw);
    [by eapply lookup_lt_Some | by eapply lookup_lt_Some |].
  rewrite Hi in Hcur. rewrite Hj in Hvs.
  injection Hcur as <-. injection Hvs as <-.
  exists arr, t. split; [done|]. split; [done|].
  rewrite Hw. unfold winner_value.
  split; [|split]; intros Hcmp.
  - destruct (Z.gtb_spec (curScore t) (vsScore t)); [done | lia].
  - destruct (Z.gtb_spec (curScore t) (vsScore t)); [lia|].
    destruct (Z.gtb_spec (vsScore t) (curScore t)); [done | lia].
  - destruct (Z.gtb_spec (curScore t) (vsScore t)); [lia|].
    destruct (Z.gtb_spec (vsScore t) (curScore t)); [lia | done].
Qed.

Lemma C2_winner_matrix_witness :
  ∃ arr t,
    comparison_loops ["PTS"; "REB"] "TO" sample_df = Ok arr
    ∧ compare_rows ["PTS"; "REB"] "TO"
        (sample_row "bob" 433 (401 # 2) 61) (sample_row "cy" 410 180 55) = Ok t
    ∧ (curScore t > vsScore t → mget (matchupWinner arr) 1 2 = Some 1%Q)
    ∧ (curScore t < vsScore t → mget (matchupWinner arr) 1 2 = Some 0%Q)
    ∧ (curScore t = vsScore t → mget (matchupWinner arr) 1 2 = Some (1 # 2)%Q).
Proof.
  exact (C2_winner_matrix sample_cats "TO" sample_df 1 2 _ _
           eq_refl eq_refl eq_refl eq_refl).
Defined.

(** ** C3 *)

(** C3. In the arrays returned by [create_matchup_comparison], for distinct
    rows [i] and [j] the entry [matchupScore[i, j]] is the text
    [curScore-vsScore-tieScore] when [tieScore] is positive and
    [curScore-vsScore] when it is zero, for the counts of row [i] against
    row [j]; every diagonal entry is ['N/A']. *)
Theorem C3_score_strings statCats TOs df i j curTeam vsTeam :
  last_item statCats = Ok TOs →
  all_have_columns statCats df = true →
  df !! i = Some curTeam → df !! j = Some vsTeam →
  ∃ df' score winner t,
    create_matchup_comparison statCats df = Ok (df', score, winner)
    ∧ compare_rows (all_but_last statCats) TOs curTeam vsTeam = Ok t
    ∧ 0 ≤ tieScore t
    ∧ (i ≠ j → tieScore t > 0 →
       mget score i j
       = Some (Some (str_of_int (curScore t) +:+ "-" +:+ str_of_int (vsScore t)
                     +:+ "-" +:+ str_of_int (tieScore t))))
    ∧ (i ≠ j → tieScore t = 0 →
       mget score i j
       = Some (Some (str_of_int (curScore t) +:+ "-" +:+ str_of_int (vsScore t))))
    ∧ mget score i i = Some (Some "N/A").
Proof.
  intros Hlast Hcols Hi Hj.
  destruct (returned_arrays _ _ _ Hlast Hcols)
    as (arr & df' & score & winner & Hloops & Hrun & Hcells & Hoff & Hdiag).
  pose proof (lookup_lt_Some _ _ _ Hi) as Hin.
  pose proof (lookup_lt_Some _ _ _ Hj) as Hjn.
  destruct (Hcells i j Hin Hjn) as (cur & vs & t & Hcur & Hvs & Ht & Hs & _).
  rewrite Hi in Hcur. rewrite Hj in Hvs.
  injection Hcur as <-. injection Hvs as <-.
  exists df', score, winner, t. split; [done|]. split; [done|].
  assert (0 ≤ tieScore t) as Hnn.
  { pose proof (last_item_split _ _ Hlast) as Hsplit.
    destruct (compare_rows_total (all_but_last statCats) TOs curTeam vsTeam)
      as (t' & Ht' & _ & _ & _ & Htie).
    - rewrite <- Hsplit. by eapply all_have_columns_lookup.
    - rewrite <- Hsplit. by eapply all_have_columns_lookup.
    - rewrite Ht in Ht'. by injection Ht' as <-. }
  split; [done|]. split; [|split].
  - intros Hne Htie. destruct (Hoff i j Hne) as [-> _]. rewrite Hs.
    unfold format_score. by destruct (Z.gtb_spec (tieScore t) 0); [|lia].
  - intros Hne Htie. destruct (Hoff i j Hne) as [-> _]. rewrite Hs.
    unfold format_score. by destruct (Z.gtb_spec (tieScore t) 0); [lia|].
  - by apply Hdiag.
Qed.

Lemma C3_score_strings_witness :
  ∃ df' score winner,
    create_matchup_comparison sample_cats sample_df = Ok (df', score, winner)
    ∧ mget score 0 1 = Some (Some "1-1-1")
    ∧ mget score 1 2 = Some (Some "2-1")
    ∧ mget score 0 0 = Some (Some "N/A").
Proof.
  destruct (C3_score_strings sample_cats "TO" sample_df 0 1 _ _
              eq_refl eq_refl eq_refl eq_refl)
    as (df' & score & winner & t & Hrun & Ht & _ & Htie & _ & Hdiag).
  destruct (C3_score_strings sample_cats "TO" sample_df 1 2 _ _
              eq_refl eq_refl eq_refl eq_refl)
    as (df2 & score2 & winner2 & t2 & Hrun2 & Ht2 & _ & _ & Hzero & _).
  rewrite Hrun in Hrun2. injection Hrun2 as <- <- <-.
  injection Ht as <-. injection Ht2 as <-.
  exists df', score, winner. split; [done|].
  split; [apply Htie; [discriminate | reflexivity]|].
  split; [apply Hzero; [discriminate | reflexivity] | done].
Defined.

(** ** C8 *)

(** C8. The last stat category (turnovers) is scored the other way round:
    the row with the strictly smaller turnover value takes the point, a
    larger value gives the point to the opponent and equal values count as
    a tie; in every other category the strictly larger value takes the
    point. *)
Theorem C8_turnovers_inverted statCats TOs curTeam vsTeam a b t0 :
  last_item statCats = Ok TOs →
  stats curTeam !! TOs = Some a → stats vsTeam !! TOs = Some b →
  tally_nonTOs curTeam vsTeam (all_but_last statCats) tally0 = Ok t0 →
  (∃ t, compare_rows (all_but_last statCats) TOs curTeam vsTeam = Ok t
        ∧ ((a < b)%Q → t = cur_point t0)
        ∧ ((b < a)%Q → t = vs_point t0)
        ∧ ((a == b)%Q → t = tie_point t0))
  ∧ (∀ pre cat post x y t1,
       all_but_last statCats = (pre ++ cat :: post)%list →
       stats curTeam !! cat = Some x → stats vsTeam !! cat = Some y →
       tally_nonTOs curTeam vsTeam pre tally0 = Ok t1 →
       ∃ t2, tally_nonTOs curTeam vsTeam (pre ++ [cat]) tally0 = Ok t2
             ∧ ((y < x)%Q → t2 = cur_point t1)
             ∧ ((x < y)%Q → t2 = vs_point t1)
             ∧ ((x == y)%Q → t2 = tie_point t1)).
Proof.
  intros Hlast Ha Hb Ht0. split.
  - exists (score_TO a b t0). unfold compare_rows. rewrite Ht0. simpl.
    apply getitem_Ok in Ha, Hb. rewrite Ha, Hb. simpl. split; [done|].
    unfold score_TO, float_gt.
    split; [|split].
    + intros Hlt. by apply float_lt_spec in Hlt as ->.
    + intros Hlt. pose proof Hlt as Hlt'. apply float_lt_spec in Hlt as ->.
      apply Qlt_le_weak, float_lt_false in Hlt' as ->. done.
    + intros Heq.
      assert (float_lt a b = false) as ->.
      { apply float_lt_false. rewrite Heq. apply Qle_refl. }
      assert (float_lt b a = false) as ->.
      { apply float_lt_false. rewrite Heq. apply Qle_refl. }
      done.
  - intros pre cat post x y t1 _ Hx Hy Ht1.
    exists (score_nonTO x y t1). rewrite tally_nonTOs_app, Ht1. simpl.
    apply getitem_Ok in Hx, Hy. rewrite Hx, Hy. simpl. split; [done|].
    unfold score_nonTO, float_gt.
    split; [|split].
    + intros Hlt. by apply float_lt_spec in Hlt as ->.
    + intros Hlt. pose proof Hlt as Hlt'. apply float_lt_spec in Hlt as ->.
      apply Qlt_le_weak, float_lt_false in Hlt' as ->. done.
    + intros Heq.
      assert (float_lt x y = false) as ->.
      { apply float_lt_false. rewrite Heq. apply Qle_refl. }
      assert (float_lt y x = false) as ->.
      { apply float_lt_false. rewrite Heq. apply Qle_refl. }
      done.
Qed.

Lemma C8_turnovers_inverted_witness :
  compare_rows ["PTS"; "REB"] "TO"
    (sample_row "ann" 410 (401 # 2) 55) (sample_row "bob" 433 (401 # 2) 61)
  = Ok {| curScore := 1; vsScore := 1; tieScore := 1 |}.
Proof.
  destruct (C8_turnovers_inverted sample_cats "TO"
              (sample_row "ann" 410 (401 # 2) 55)
              (sample_row "bob" 433 (401 # 2) 61) 55 61
              {| curScore := 0; vsScore := 1; tieScore := 1 |}
              eq_refl eq_refl eq_refl eq_refl)
    as [(t & Ht & Hlt & _) _].
  rewrite (Hlt eq_refl) in Ht. exact Ht.
Defined.

(** ** C10 *)

Lemma winner_value_swap t :
  (winner_value t + winner_value (swap_tally t) == 1)%Q.
Proof.
  unfold winner_value, swap_tally. simpl.
  destruct (Z.gtb_spec (curScore t) (vsScore t)),
           (Z.gtb_spec (vsScore t) (curScore t)); try lia; reflexivity.
Qed.

(** C10. Before the diagonal is overwritten the two arrays are
    anti-symmetric: for distinct row indices [i] and [j],
    [matchupWinner[i, j] + matchupWinner[j, i] = 1], and [matchupScore[j, i]]
    is written from the counts of [matchupScore[i, j]] with the win and loss
    counts exchanged and the same tie count.  The returned arrays keep
    these entries. *)
Theorem C10_antisymmetry statCats TOs df i j curTeam vsTeam :
  last_item statCats = Ok TOs →
  all_have_columns statCats df = true →
  df !! i = Some curTeam → df !! j = Some vsTeam → i ≠ j →
  ∃ arr df' score winner t wij wji,
    comparison_loops (all_but_last statCats) TOs df = Ok arr
    ∧ create_matchup_comparison statCats df = Ok (df', score, winner)
    ∧ compare_rows (all_but_last statCats) TOs curTeam vsTeam = Ok t
    ∧ mget (matchupWinner arr) i j = Some wij
    ∧ mget (matchupWinner arr) j i = Some wji
    ∧ (wij + wji == 1)%Q
    ∧ mget (matchupScore arr) i j = Some (Some (format_score t))
    ∧ mget (matchupScore arr) j i
      = Some (Some (format_score {| curScore := vsScore t;
                                    vsScore := curScore t;
                                    tieScore := tieScore t |}))
    ∧ mget winner i j = Some wij ∧ mget winner j i = Some wji
    ∧ mget score i j = mget (matchupScore arr) i j
    ∧ mget score j i = mget (matchupScore arr) j i.
Proof.
  intros Hlast Hcols Hi Hj Hne.
  destruct (returned_arrays _ _ _ Hlast Hcols)
    as (arr & df' & score & winner & Hloops & Hrun & Hcells & Hoff & _).
  pose proof (lookup_lt_Some _ _ _ Hi) as Hin.
  pose proof (lookup_lt_Some _ _ _ Hj) as Hjn.
  destruct (Hcells i j Hin Hjn) as (c1 & v1 & t & Hc1 & Hv1 & Ht & Hs & Hw).
  destruct (Hcells j i Hjn Hin) as (c2 & v2 & t' & Hc2 & Hv2 & Ht' & Hs' & Hw').
  rewrite Hi in Hc1, Hv2. rewrite Hj in Hv1, Hc2.
  injection Hc1 as <-. injection Hv1 as <-.
  injection Hc2 as <-. injection Hv2 as <-.
  rewrite (compare_rows_swap _ _ _ _ _ Ht) in Ht'. injection Ht' as <-.
  exists arr, df', score, winner, t, (winner_value t),
    (winner_value (swap_tally t)).
  destruct (Hoff i j Hne) as [Hsij Hwij].
  destruct (Hoff j i (not_eq_sym Hne)) as [Hsji Hwji].
  repeat split; try done.
  - apply winner_value_swap.
  - by rewrite Hwij.
  - by rewrite Hwji.
Qed.

Lemma C10_antisymmetry_witness :
  ∃ arr,
    comparison_loops ["PTS"; "REB"] "TO" sample_df = Ok arr
    ∧ mget (matchupScore arr) 1 2 = Some (Some "2-1")
    ∧ mget (matchupScore arr) 2 1 = Some (Some "1-2").
Proof.
  destruct (C10_antisymmetry sample_cats "TO" sample_df 1 2 _ _
              eq_refl eq_refl eq_refl eq_refl)
    as (arr & _ & _ & _ & t & _ & _ & Hloops & _ & Ht & _ & _ & _ & Hs & Hs' & _);
    [discriminate|].
  injection Ht as <-.
  exists arr. split; [done|]. split; [exact Hs | exact Hs'].
Defined.

(** ** C9 *)

Lemma fix_names_teams_lookup df i row :
  df !! i = Some row →
  ∃ row', fix_names_teams df !! i = Some row' ∧ stats row' = stats row.
Proof.
  intros H. unfold fix_names_teams. rewrite lookup_map, H. simpl. eauto.
Qed.

(** C9. Once the summary columns are computed, every team row of the
    dataframe returned by [create_matchup_comparison] satisfies
    [totalWins + totalLosses + totalTies = n - 1], [n] being the number of
    team rows. *)
Theorem C9_totals_add_up statCats TOs df :
  last_item statCats = Ok TOs →
  all_have_columns statCats df = true →
  ∃ df' score winner,
    create_matchup_comparison statCats df = Ok (df', score, winner)
    ∧ length df' = length df
    ∧ ∀ i row, df' !! i = Some row →
        ∃ w l t,
          stats row !! "totalWins" = Some w
          ∧ stats row !! "totalLosses" = Some l
          ∧ stats row !! "totalTies" = Some t
          ∧ (w + l + t == inject_Z (Z.of_nat (length df)) - 1)%Q.
Proof.
  intros Hlast Hcols.
  destruct (create_matchup_comparison_run _ _ _ Hlast Hcols)
    as (arr & Hloops & Hsq & Hcells).
  pose proof (create_matchup_comparison_unfold _ _ _ _ Hlast Hloops) as Hrun.
  simpl in Hrun. do 3 eexists. split; [exact Hrun|].
  set (winner0 := set_diag 0%Q (matchupWinner arr)) in *.
  assert (length winner0 = length df) as Hlen0.
  { destruct Hsq as [_ Hsq]. by apply (square_set_diag _ _ 0%Q) in Hsq as [? _]. }
  set (df1 := set_column "totalWins" (sum_axis1 (set_where_ne 1 0 winner0)) df)
    in *.
  assert (length df1 = length df) as Hl1.
  { apply length_set_column. unfold sum_axis1, set_where_ne.
    by rewrite !length_map. }
  set (df2 := set_column "totalLosses" _ df1) in *.
  assert (length df2 = length df) as Hl2.
  { unfold df2. rewrite length_set_column; [done|].
    unfold sum_axis1, set_where_ne. rewrite !length_map. congruence. }
  set (df3 := set_column "totalTies" _ df2) in *.
  assert (length df3 = length df) as Hl3.
  { unfold df3. rewrite length_set_column; [done|].
    unfold sum_axis1, set_where_eq, set_where_ne. rewrite !length_map.
    congruence. }
  split.
  { unfold fix_names_teams. by rewrite length_map. }
  intros i row' Hrow'.
  assert (i < length df)%nat as Hi.
  { apply lookup_lt_Some in Hrow'. unfold fix_names_teams in Hrow'.
    rewrite length_map in Hrow'. lia. }
  subst df3 df2 df1.
  destruct (lookup_lt_is_Some_2 df i Hi) as [row Hrow].
  destruct (winner0_row statCats TOs df arr i Hsq Hcells Hi)
    as (r & Hr & Hrlen & Hout).
  fold winner0 in Hr.
  destruct (set_column_lookup "totalWins"
              (sum_axis1 (set_where_ne 1 0 winner0)) df i row (wins_of r) Hrow)
    as (row1 & Hrow1 & _ & _ & Hst1).
  { apply sum_axis1_lookup. unfold set_where_ne. by rewrite lookup_map, Hr. }
  destruct (set_column_lookup "totalLosses"
              (map (fun s => (s - 1)%Q)
                 (sum_axis1 (map (map (fun c => (1 - c)%Q))
                               (set_where_ne 0 1 winner0))))
              _ i row1 (losses_of r) Hrow1)
    as (row2 & Hrow2 & _ & _ & Hst2).
  { rewrite lookup_map.
    erewrite sum_axis1_lookup;
      [done | unfold set_where_ne; by rewrite !lookup_map, Hr]. }
  destruct (set_column_lookup "totalTies"
              (sum_axis1 (set_where_eq (1 # 2) 1 (set_where_ne (1 # 2) 0 winner0)))
              _ i row2 (ties_of r) Hrow2)
    as (row3 & Hrow3 & _ & _ & Hst3).
  { apply sum_axis1_lookup. unfold set_where_eq, set_where_ne.
    by rewrite !lookup_map, Hr. }
  destruct (fix_names_teams_lookup _ _ _ Hrow3) as (row4 & Hrow4 & Hst4).
  rewrite Hrow4 in Hrow'. injection Hrow' as <-.
  exists (wins_of r), (losses_of r), (ties_of r).
  rewrite Hst4, Hst3, Hst2, Hst1.
  split; [by rewrite !lookup_insert_ne, lookup_insert_eq by done|].
  split; [by rewrite lookup_insert_ne, lookup_insert_eq by done|].
  split; [by rewrite lookup_insert_eq|].
  rewrite <- Hrlen. by apply row_totals.
Qed.

Lemma C9_totals_add_up_witness :
  ∃ df' score winner,
    create_matchup_comparison sample_cats sample_df = Ok (df', score, winner)
    ∧ length df' = 3%nat
    ∧ ∀ i row, df' !! i = Some row →
        ∃ w l t,
          stats row !! "totalWins" = Some w
          ∧ stats row !! "totalLosses" = Some l
          ∧ stats row !! "totalTies" = Some t
          ∧ (w + l + t == 2)%Q.
Proof.
  exact (C9_totals_add_up sample_cats "TO" sample_df eq_refl eq_refl).
Defined.

(** ** max_min_stats *)

Lemma column_cells_spec df stat :
  (∀ row, row ∈ df → is_Some (stats row !! stat)) →
  ∃ col, column_cells df stat = Ok col
    ∧ Forall2 (fun row v => stats row !! stat = Some v) df col.
Proof.
  induction df as [|row df IH]; intros Hcols; simpl.
  - exists []. split; [done | constructor].
  - destruct (Hcols row) as [v Hv]; [by left|].
    destruct IH as (col & Hcol & Hall); [intros r Hr; apply Hcols; by right|].
    apply getitem_Ok in Hv as Hget. rewrite Hget. simpl. rewrite Hcol. simpl.
    exists (v :: col). split; [done | by constructor].
Qed.

Lemma fold_max_spec (rest : list Q) (v : Q) :
  let m := fold_left (fun m x => if float_gt x m then x else m) rest v in
  (m = v ∨ m ∈ rest) ∧ (v <= m)%Q ∧ ∀ x, x ∈ rest → (x <= m)%Q.
Proof.
  revert v. induction rest as [|x rest IH]; intros v; simpl.
  - split; [by left|]. split; [apply Qle_refl|]. intros x Hx. inversion Hx.
  - destruct (IH (if float_gt x v then x else v)) as (Hin & Hle & Hall).
    assert (v <= (if float_gt x v then x else v)
            ∧ x <= (if float_gt x v then x else v))%Q as [Hv Hx].
    { destruct (float_gt x v) eqn:Hgt.
      - apply float_gt_spec in Hgt. split; [by apply Qlt_le_weak | apply Qle_refl].
      - apply float_lt_false in Hgt. split; [apply Qle_refl | done]. }
    split; [|split].
    + destruct Hin as [->|Hin]; [|right; by right].
      destruct (float_gt x v); [right; by left | by left].
    + by eapply Qle_trans.
    + intros y [->|Hy]%elem_of_cons; [by eapply Qle_trans | by apply Hall].
Qed.

Lemma fold_min_spec (rest : list Q) (v : Q) :
  let m := fold_left (fun m x => if float_lt x m then x else m) rest v in
  (m = v ∨ m ∈ rest) ∧ (m <= v)%Q ∧ ∀ x, x ∈ rest → (m <= x)%Q.
Proof.
  revert v. induction rest as [|x rest IH]; intros v; simpl.
  - split; [by left|]. split; [apply Qle_refl|]. intros x Hx. inversion Hx.
  - destruct (IH (if float_lt x v then x else v)) as (Hin & Hle & Hall).
    assert ((if float_lt x v then x else v) <= v
            ∧ (if float_lt x v then x else v) <= x)%Q as [Hv Hx].
    { destruct (float_lt x v) eqn:Hlt.
      - apply float_lt_spec in Hlt. split; [by apply Qlt_le_weak | apply Qle_refl].
      - apply float_lt_false in Hlt. split; [apply Qle_refl | done]. }
    split; [|split].
    + destruct Hin as [->|Hin]; [|right; by right].
      destruct (float_lt x v); [right; by left | by left].
    + by eapply Qle_trans.
    + intros y [->|Hy]%elem_of_cons; [by eapply Qle_trans | by apply Hall].
Qed.

Lemma series_max_spec (col : list Q) :
  col ≠ [] →
  ∃ m, series_max col = Ok m ∧ m ∈ col ∧ ∀ x, x ∈ col → (x <= m)%Q.
Proof.
  destruct col as [|v rest]; [done|]. intros _. simpl.
  destruct (fold_max_spec rest v) as (Hin & Hle & Hall).
  eexists. split; [done|]. split.
  - destruct Hin as [->|Hin]; [by left | by right].
  - intros x [->|Hx]%elem_of_cons; [done | by apply Hall].
Qed.

Lemma series_min_spec (col : list Q) :
  col ≠ [] →
  ∃ m, series_min col = Ok m ∧ m ∈ col ∧ ∀ x, x ∈ col → (m <= x)%Q.
Proof.
  destruct col as [|v rest]; [done|]. intros _. simpl.
  destruct (fold_min_spec rest v) as (Hin & Hle & Hall).
  eexists. split; [done|]. split.
  - destruct Hin as [->|Hin]; [by left | by right].
  - intros x [->|Hx]%elem_of_cons; [done | by apply Hall].
Qed.

Lemma column_spec df stat :
  df ≠ [] → (∀ row, row ∈ df → is_Some (stats row !! stat)) →
  ∃ col, column df stat = Ok col ∧ col ≠ []
    ∧ Forall2 (fun row v => stats row !! stat = Some v) df col.
Proof.
  intros Hne Hcols.
  destruct (column_cells_spec df stat Hcols) as (col & Hcol & Hall).
  exists col. split; [|split; [|done]].
  - unfold column. by destruct df.
  - intros ->. apply Forall2_nil_inv_r in Hall. done.
Qed.

Lemma boolean_index_attains df stat val col :
  Forall2 (fun row v => stats row !! stat = Some v) df col →
  boolean_index df (map (fun v => float_eq v val) col)
  = List.filter (attains stat val) df.
Proof.
  induction 1 as [|row v df col Hv Hall IH]; simpl; [done|].
  unfold attains at 1. rewrite Hv, IH. done.
Qed.

Lemma stat_line_spec df stat val :
  df ≠ [] → (∀ row, row ∈ df → is_Some (stats row !! stat)) →
  stat_line df stat val
  = Ok {| Stat := stat; Value := val;
          Managers := join_comma
                        (map manager (List.filter (attains stat val) df)) |}.
Proof.
  intros Hne Hcols.
  destruct (column_spec df stat Hne Hcols) as (col & Hcol & _ & Hall).
  unfold stat_line. rewrite Hcol. simpl.
  by rewrite (boolean_index_attains _ _ _ _ Hall).
Qed.

Lemma column_elem_row df stat col :
  Forall2 (fun row v => stats row !! stat = Some v) df col →
  (∀ v, v ∈ col → ∃ row, row ∈ df ∧ stats row !! stat = Some v)
  ∧ (∀ row v, row ∈ df → stats row !! stat = Some v → v ∈ col).
Proof.
  induction 1 as [|row v df col Hv Hall [IH1 IH2]].
  - split; [intros v Hv | intros row v Hrow]; inversion Hv || inversion Hrow.
  - split.
    + intros w [->|Hw]%elem_of_cons.
      * exists row. split; [by left | done].
      * destruct (IH1 w Hw) as (r & Hr & Hrw). exists r. split; [by right | done].
    + intros r w [->|Hr]%elem_of_cons Hrw.
      * rewrite Hv in Hrw. injection Hrw as <-. by left.
      * right. by eapply IH2.
Qed.

Lemma all_have_columns_elem cats df stat row :
  all_have_columns cats df = true → stat ∈ cats → row ∈ df →
  is_Some (stats row !! stat).
Proof.
  intros Hall Hstat [i Hi]%list_elem_of_lookup.
  destruct (has_columns_lookup cats row stat) as [v Hv]; [|done|by exists v].
  by eapply all_have_columns_lookup.
Qed.

Lemma reduce_columns_spec (reduce : list Q → result Q) (R : list Q → Q → Prop)
    df cats :
  (∀ col, col ≠ [] → ∃ m, reduce col = Ok m ∧ R col m) →
  df ≠ [] →
  (∀ stat row, stat ∈ cats → row ∈ df → is_Some (stats row !! stat)) →
  ∃ vals, reduce_columns reduce df cats = Ok vals
    ∧ map fst vals = cats
    ∧ ∀ stat val, (stat, val) ∈ vals →
        ∃ col, Forall2 (fun row v => stats row !! stat = Some v) df col
               ∧ R col val.
Proof.
  intros Hreduce Hne. induction cats as [|stat cats IH]; intros Hcols; simpl.
  - exists []. split; [done|]. split; [done|]. intros ? ? H. inversion H.
  - destruct (column_spec df stat Hne) as (col & Hcol & Hcne & Hall).
    { intros row Hrow. apply Hcols; [by left | done]. }
    destruct (Hreduce col Hcne) as (m & Hm & HR).
    destruct IH as (vals & Hvals & Hfst & Hrest).
    { intros s row Hs Hrow. apply Hcols; [by right | done]. }
    rewrite Hcol. simpl. rewrite Hm. simpl. rewrite Hvals. simpl.
    exists ((stat, m) :: vals). split; [done|]. split; [by rewrite <- Hfst|].
    intros s v [[= -> ->]|Hin]%elem_of_cons; [eauto | by apply Hrest].
Qed.

Lemma stat_lines_spec df vals :
  df ≠ [] →
  (∀ stat row, stat ∈ map fst vals → row ∈ df → is_Some (stats row !! stat)) →
  stat_lines df vals = Ok (map (line_of df) vals).
Proof.
  intros Hne. induction vals as [|[stat val] vals IH]; intros Hcols; simpl.
  - done.
  - rewrite stat_line_spec; [|done|intros row Hrow; apply Hcols; [by left|done]].
    simpl. rewrite IH; [done|].
    intros s row Hs Hrow. apply Hcols; [by right | done].
Qed.

(** ** C4 *)

(** C4. For every stat category [max_min_stats] reports the true maximum
    (respectively minimum) of that category's column over all team rows,
    and the ['Manager(s)'] field is the list, joined by [', '], of the
    managers of exactly the rows that reach that value. *)
Theorem C4_max_min_stats origStatCats df :
  df ≠ [] →
  all_have_columns (origStatCats ++ ["FGM"; "FGA"; "FTM"; "FTA"]) df = true →
  ∃ maxStatDF minStatDF,
    max_min_stats origStatCats df = Ok (maxStatDF, minStatDF)
    ∧ map Stat maxStatDF = (origStatCats ++ ["FGM"; "FGA"; "FTM"; "FTA"])%list
    ∧ map Stat minStatDF = (origStatCats ++ ["FGM"; "FGA"; "FTM"; "FTA"])%list
    ∧ (∀ line, line ∈ maxStatDF →
         is_column_max df (Stat line) (Value line)
         ∧ Managers line
           = join_comma
               (map manager
                  (List.filter (attains (Stat line) (Value line)) df)))
    ∧ (∀ line, line ∈ minStatDF →
         is_column_min df (Stat line) (Value line)
         ∧ Managers line
           = join_comma
               (map manager
                  (List.filter (attains (Stat line) (Value line)) df))).
Proof.
  intros Hne Hcols.
  set (statCats := (origStatCats ++ ["FGM"; "FGA"; "FTM"; "FTA"])%list) in *.
  assert (∀ stat row, stat ∈ statCats → row ∈ df → is_Some (stats row !! stat))
    as Hsome.
  { intros stat row Hs Hr. by eapply all_have_columns_elem. }
  destruct (reduce_columns_spec series_max
              (fun col m => m ∈ col ∧ ∀ x, x ∈ col → (x <= m)%Q)
              df statCats series_max_spec Hne Hsome)
    as (maxCats & Hmax & Hfmax & Hpmax).
  destruct (reduce_columns_spec series_min
              (fun col m => m ∈ col ∧ ∀ x, x ∈ col → (m <= x)%Q)
              df statCats series_min_spec Hne Hsome)
    as (minCats & Hmin & Hfmin & Hpmin).
  exists (map (line_of df) maxCats), (map (line_of df) minCats).
  split.
  { unfold max_min_stats. fold statCats. rewrite Hmax. simpl.
    rewrite stat_lines_spec; [|done|by rewrite Hfmax]. simpl.
    rewrite Hmin. simpl.
    rewrite stat_lines_spec; [|done|by rewrite Hfmin]. done. }
  split; [by rewrite map_map|]. split; [by rewrite map_map|].
  split.
  - intros line ([stat val] & -> & Hin)%elem_of_map. simpl. split; [|done].
    destruct (Hpmax stat val Hin) as (col & Hall & Hmem & Hle).
    destruct (column_elem_row _ _ _ Hall) as [Hto Hfrom].
    split; [by apply Hto|]. intros row v Hrow Hv. apply Hle. by eapply Hfrom.
  - intros line ([stat val] & -> & Hin)%elem_of_map. simpl. split; [|done].
    destruct (Hpmin stat val Hin) as (col & Hall & Hmem & Hle).
    destruct (column_elem_row _ _ _ Hall) as [Hto Hfrom].
    split; [by apply Hto|]. intros row v Hrow Hv. apply Hle. by eapply Hfrom.
Qed.

Lemma C4_max_min_stats_witness :
  ∃ maxStatDF minStatDF,
    max_min_stats ["PTS"] sample_totals_df = Ok (maxStatDF, minStatDF)
    ∧ maxStatDF !! 0%nat
      = Some {| Stat := "PTS"; Value := 433; Managers := "bob, cy" |}
    ∧ minStatDF !! 3%nat
      = Some {| Stat := "FTM"; Value := 60; Managers := "ann, cy" |}.
Proof.
  destruct (C4_max_min_stats ["PTS"] sample_totals_df)
    as (maxStatDF & minStatDF & Hrun & _); [discriminate | reflexivity |].
  exists maxStatDF, minStatDF. split; [exact Hrun|].
  injection Hrun as <- <-. split; reflexivity.
Defined.

(** ** C7 *)

(** C7, as amended.  When [refresh] is true, [refresh_oauth_file] raises the
    [ValueError] of the extension check when the extension of the credential
    file is neither ['.json'] nor ['.yaml'], and for these two extensions
    control passes the check and goes on to load the file.  When [refresh]
    is false the extension is not looked at. *)
Theorem C7_extension_check
    (load : Format → string → result (gmap string string))
    (oauthFile : string) :
  ((splitext oauthFile).2 ≠ ".json" → (splitext oauthFile).2 ≠ ".yaml" →
   refresh_oauth_file load oauthFile true = Raise (ValueError wrong_format))
  ∧ ((splitext oauthFile).2 = ".json" →
     refresh_oauth_file load oauthFile true
     = (oauthKeys ← load Json oauthFile;
        rw ← rewrite_keys oauthFile Json oauthKeys; Ok (Some rw)))
  ∧ ((splitext oauthFile).2 = ".yaml" →
     refresh_oauth_file load oauthFile true
     = (oauthKeys ← load Yaml oauthFile;
        rw ← rewrite_keys oauthFile Yaml oauthKeys; Ok (Some rw)))
  ∧ refresh_oauth_file load oauthFile false = Ok None.
Proof.
  unfold refresh_oauth_file. split; [|split; [|split]].
  - intros Hj Hy.
    apply String.eqb_neq in Hj as ->. by apply String.eqb_neq in Hy as ->.
  - by intros ->.
  - by intros ->.
  - done.
Qed.

Lemma C7_extension_check_witness :
  refresh_oauth_file sample_load "keys/yahoo.oauth.txt" true
  = Raise (ValueError wrong_format)
  ∧ refresh_oauth_file sample_load "yahoo_oauth.json" true
    = Ok (Some {| rw_path := "yahoo_oauth.json"; rw_format := Json;
                  rw_keys := <["consumer_secret" := "s"]>
                               (<["consumer_key" := "k"]> ∅) |}).
Proof.
  split.
  - apply (C7_extension_check sample_load "keys/yahoo.oauth.txt");
      discriminate.
  - rewrite (proj1 (proj2 (C7_extension_check sample_load "yahoo_oauth.json")))
      by reflexivity.
    reflexivity.
Defined.

(** With the default [refresh=False] a credential file of any extension
    gets past [refresh_oauth_file] without the [ValueError]. *)
Lemma C7_no_check_without_refresh :
  (splitext "keys.txt").2 = ".txt"
  ∧ refresh_oauth_file sample_load "keys.txt" false = Ok None
  ∧ ¬ (∀ (oauthFile : string) (refresh : bool),
         (splitext oauthFile).2 ≠ ".json" → (splitext oauthFile).2 ≠ ".yaml" →
         ∃ msg, refresh_oauth_file sample_load oauthFile refresh
                = Raise (ValueError msg)).
Proof.
  split; [reflexivity|]. split; [reflexivity|].
  intros H. destruct (H "keys.txt" false) as [msg Hmsg]; discriminate.
Qed.

(** ** C6 *)

Lemma date_ranges_length startDate endDate :
  length (date_ranges startDate endDate) = Z.to_nat (endDate - startDate + 2).
Proof. unfold date_ranges, range. by rewrite length_map, length_seq. Qed.

Lemma date_ranges_lookup startDate endDate (d : nat) :
  (d < Z.to_nat (endDate - startDate + 2))%nat →
  date_ranges startDate endDate !! d
  = Some (combine (startDate + Z.of_nat d) 23 59 59).
Proof.
  intros Hd. unfold date_ranges, range.
  rewrite lookup_map, lookup_seq_lt by done. done.
Qed.

(** The walk of a week that runs from [startDate] to [endDate] has one
    entry more than the week has days, and the last entry is the day after
    [endDate]. *)
Lemma date_ranges_one_past_the_end startDate endDate :
  startDate ≤ endDate →
  length (date_ranges startDate endDate)
  = S (Z.to_nat (endDate - startDate + 1))
  ∧ last (date_ranges startDate endDate) = Some (combine (endDate + 1) 23 59 59).
Proof.
  intros Hle. rewrite date_ranges_length. split; [lia|].
  rewrite last_lookup, date_ranges_length.
  rewrite date_ranges_lookup by lia. f_equal. f_equal. lia.
Qed.

(** C6, at the week from Monday 2021-11-01 (ordinal 738095) to Sunday
    2021-11-07 (ordinal 738101): [dateRanges] holds eight timestamps, the
    seven days of the week and Monday 2021-11-08, and the accumulation loop
    runs its body once for each of the eight. *)
Theorem C6_walk_visits_an_extra_day :
  date_ranges 738095 738101
  = [combine 738095 23 59 59; combine 738096 23 59 59; combine 738097 23 59 59;
     combine 738098 23 59 59; combine 738099 23 59 59; combine 738100 23 59 59;
     combine 738101 23 59 59; combine 738102 23 59 59]
  ∧ map fst (enumerate (date_ranges 738095 738101))
    = [0; 1; 2; 3; 4; 5; 6; 7]%nat.
Proof. split; reflexivity. Qed.

(** ** The weekly accumulation *)

Section WeekFacts.

Context {V : Type} (zero : V) (add : V → V → V).
Context (statCats : list string).
Context (pID : Z) (X : nat).

Lemma ids_zero_stats (f : list (RosterRow V)) :
  ids (zero_stats zero statCats f) = ids f.
Proof. unfold ids, zero_stats. rewrite map_map. done. Qed.

Lemma ids_clear_flags (f : list (RosterRow V)) : ids (clear_flags f) = ids f.
Proof. unfold ids, clear_flags. rewrite map_map. done. Qed.






(** A change of the rows, one by one, that keeps the player of each row and
    the totals of the rows of [pID]. *)
Lemma tracks_map (g : RosterRow V → RosterRow V) (f : list (RosterRow V)) acc :
  (∀ r, player_id (g r) = player_id r) →
  (∀ r, player_id r = pID → totals (g r) = totals r) →
  tracks pID f acc → tracks pID (map g f) acc.
Proof.
  intros Hid Htot [Hin Hacc]. split.
  - unfold ids. rewrite map_map.
    erewrite map_ext; [exact Hin | intros r; apply Hid].
  - intros r' (r & -> & Hr)%elem_of_map Hp. rewrite Hid in Hp.
    rewrite Htot by done. by apply Hacc.
Qed.

Lemma tracks_clear_flags (f : list (RosterRow V)) acc :
  tracks pID f acc → tracks pID (clear_flags f) acc.
Proof. by apply tracks_map. Qed.





Lemma tracks_zero_stats (f : list (RosterRow V)) :
  pID ∈ ids f →
  tracks pID (zero_stats zero statCats f) (replicate (length statCats) zero).
Proof.
  intros Hin. split.
  - by rewrite ids_zero_stats.
  - by intros r' (r & -> & Hr)%elem_of_map _.
Qed.


(** *** Stores of frames *)

Lemma grows_refl (h : list (list (RosterRow V))) : grows h h.
Proof. split; [done|]. intros l f Hf. by exists f. Qed.

Lemma grows_trans (h1 h2 h3 : list (list (RosterRow V))) :
  grows h1 h2 → grows h2 h3 → grows h1 h3.
Proof.
  intros [Hl12 H12] [Hl23 H23]. split; [congruence|].
  intros l f Hf. destruct (H12 l f Hf) as (f2 & Hf2 & Hsub2).
  destruct (H23 l f2 Hf2) as (f3 & Hf3 & Hsub3).
  exists f3. split; [done|]. by etrans.
Qed.



Lemma player_ids_Ok (f : list (RosterRow V)) :
  f ≠ [] → player_ids f = Ok (ids f).
Proof. by destruct f. Qed.


Lemma grows_populated (h h' : list (list (RosterRow V))) :
  grows h h' → populated h → populated h'.
Proof.
  intros [Hlen Hg] Hpop l f' Hf' ->.
  destruct (lookup_lt_is_Some_2 h l) as [f Hf].
  { rewrite <- Hlen. by eapply lookup_lt_Some. }
  destruct (Hg l f Hf) as (f2 & Hf2 & Hsub).
  rewrite Hf' in Hf2. injection Hf2 as <-.
  destruct f as [|r f]; [by eapply Hpop|].
  specialize (Hsub (player_id r)). simpl in Hsub.
  assert (player_id r ∈ @nil Z) as Hbad by (apply Hsub; by left).
  inversion Hbad.
Qed.

Lemma grows_alter (g : list (RosterRow V) → list (RosterRow V)) l h :
  (∀ f, ids f ⊆ ids (g f)) → grows h (alter g l h).
Proof.
  intros Hg. split; [by rewrite length_alter|].
  intros l' f Hf. destruct (decide (l = l')) as [<-|Hne].
  - exists (g f). split; [by rewrite list_lookup_alter_eq, Hf | apply Hg].
  - exists f. split; [by rewrite list_lookup_alter_ne | done].
Qed.



(** *** The table of the day *)

Context (player_stats : datetime → Z → string → Cell V).








(** *** One player of one team *)



(** *** The loops over the players of one team *)

Lemma frame_at_Ok (h : list (list (RosterRow V))) (refs : list nat) idx l f :
  refs !! idx = Some l → h !! l = Some f → frame_at h refs idx = Ok f.
Proof. intros Hl Hf. unfold frame_at. by rewrite Hl, Hf. Qed.

Lemma grows_lookup (h h' : list (list (RosterRow V))) l f :
  grows h h' → h !! l = Some f → ∃ f', h' !! l = Some f' ∧ ids f ⊆ ids f'.
Proof. intros [_ H]. apply H. Qed.






(** *** The loops over the teams *)

(** The store on a given day: [n] teams, the frames of the Sunday rosters
    at [0 .. n-1], the frames of the totals at [n .. 2n-1], the frames of
    the day at [L .. L+n-1]; on the first day [L = n]. *)
Context (n L idx : nat).
Hypothesis HX : X = (n + idx)%nat.
Hypothesis Hidx : (idx < n)%nat.
Hypothesis HL : (L = n ∨ 2 * n ≤ L)%nat.

Lemma lookup_refs (base k : nat) :
  (k < n)%nat → seq base n !! k = Some (base + k)%nat.
Proof. intros Hk. by apply lookup_seq_lt. Qed.

Lemma collect_loop (h : list (list (RosterRow V))) fc ft acc :
  length h = (L + n)%nat → populated h →
  h !! (L + idx)%nat = Some fc → pID ∈ ids fc →
  h !! X = Some ft → tracks pID ft acc →
  (L = n → acc = replicate (length statCats) zero) →
  ∃ h' started,
    for_each (range n) (collect_body zero statCats (seq L n) (seq 0 n)) (h, [])
    = Ok (h', started)
    ∧ grows h h' ∧ pID ∈ started
    ∧ ∃ ft', h' !! X = Some ft' ∧ tracks pID ft' acc.
Proof.
  intros Hlen Hpop Hfc Hin Hft Htr Hzero.
  destruct (for_each_range_inv
    (fun k (s : list (list (RosterRow V)) * list Z) =>
       grows h s.1
       ∧ (∃ ft', s.1 !! X = Some ft' ∧ tracks pID ft' acc)
       ∧ ((idx < k)%nat → pID ∈ s.2))
    n (collect_body zero statCats (seq L n) (seq 0 n)) (h, []))
    as ([h' started] & Hrun & Hg & Htr' & Hstarted).
  - split; [apply grows_refl|]. split; [by exists ft | simpl; lia].
  - intros k [s started] Hk (Hg & (ft' & Hft' & Htr') & Hst). simpl in *.
    unfold collect_body, update_at. simpl. rewrite lookup_refs by done. simpl.
    set (s1 := alter (zero_stats zero statCats) (L + k)%nat s).
    assert (grows s s1) as Hg1.
    { apply grows_alter. intros f. by rewrite ids_zero_stats. }
    assert (grows h s1) as Hg1' by (by eapply grows_trans).
    destruct (lookup_lt_is_Some_2 s1 (L + k)%nat) as [roster Hroster].
    { destruct Hg1' as [-> _]. lia. }
    destruct (lookup_lt_is_Some_2 s1 (0 + k)%nat) as [prev Hprev].
    { destruct Hg1' as [-> _]. lia. }
    assert (populated s1) as Hpop1 by (by eapply grows_populated).
    rewrite (frame_at_Ok _ _ _ _ _ (lookup_refs L k Hk) Hroster). simpl.
    rewrite (player_ids_Ok roster) by (by eapply Hpop1). simpl.
    rewrite (frame_at_Ok _ _ _ _ _ (lookup_refs 0 k Hk) Hprev). simpl.
    rewrite (player_ids_Ok prev) by (by eapply Hpop1). simpl.
    eexists. split; [done|]. simpl. split; [done|]. split.
    + destruct (decide ((L + k)%nat = X)) as [Heq|Hne].
      * exists (zero_stats zero statCats ft'). split.
        { unfold s1. by rewrite Heq, list_lookup_alter_eq, Hft'. }
        rewrite Hzero by lia. apply tracks_zero_stats. by destruct Htr'.
      * exists ft'. split; [|done]. unfold s1. by rewrite list_lookup_alter_ne.
    + intros Hlt. apply elem_of_app.
      destruct (decide (idx < k)%nat) as [Hlt'|Hge]; [left; by apply Hst|].
      assert (k = idx) as -> by lia. right. apply elem_of_app. left.
      destruct (grows_lookup _ _ _ _ Hg1' Hfc) as (fc' & Hfc' & Hsub).
      rewrite Hfc' in Hroster. injection Hroster as <-. by apply Hsub.
  - exists h', started. simpl in *. split; [done|]. split; [done|].
    split; [apply Hstarted; lia | done].
Qed.



(** *** One day *)

Lemma init_loop (h : list (list (RosterRow V))) fc :
  length h = (L + n)%nat →
  h !! (L + idx)%nat = Some fc → pID ∈ ids fc →
  ∃ h' ft,
    for_each (range n)
      (fun k h0 => h1 ← update_at (seq L n) k (zero_stats zero statCats) h0;
                   update_at (seq L n) k clear_flags h1) h
    = Ok h'
    ∧ grows h h' ∧ h' !! (L + idx)%nat = Some ft
    ∧ tracks pID ft (replicate (length statCats) zero).
Proof.
  intros Hlen Hfc Hin.
  destruct (for_each_range_inv
    (fun k (s : list (list (RosterRow V))) =>
       grows h s
       ∧ ((idx < k)%nat →
          ∃ ft, s !! (L + idx)%nat = Some ft
                ∧ tracks pID ft (replicate (length statCats) zero)))
    n (fun k h0 => h1 ← update_at (seq L n) k (zero_stats zero statCats) h0;
                   update_at (seq L n) k clear_flags h1) h)
    as (h' & Hrun & Hg & Htr).
  - split; [apply grows_refl | lia].
  - intros k s Hk [Hg Htr]. unfold update_at.
    rewrite lookup_refs by done. simpl.
    eexists. split; [done|].
    assert (grows s (alter clear_flags (L + k)%nat
                       (alter (zero_stats zero statCats) (L + k)%nat s))) as Hg'.
    { eapply grows_trans; apply grows_alter; intros f.
      - by rewrite ids_zero_stats.
      - by rewrite ids_clear_flags. }
    split; [by eapply grows_trans|]. intros Hlt.
    destruct (decide (k = idx)) as [->|Hne].
    + destruct (grows_lookup _ _ _ _ Hg Hfc) as (fc' & Hfc' & Hsub).
      exists (clear_flags (zero_stats zero statCats fc')). split.
      * by rewrite !list_lookup_alter_eq, Hfc'.
      * apply tracks_clear_flags, tracks_zero_stats. by apply Hsub.
    + destruct Htr as (ft & Hft & Htr); [lia|].
      exists ft. split; [|done]. rewrite !list_lookup_alter_ne by lia. done.
  - destruct Htr as (ft & Hft & Htr); [lia|]. by exists h', ft.
Qed.

Hypothesis Hnine : length statCats = 9%nat.


End WeekFacts.

(** *** The walk over the days *)

Section WeekWalk.

Context {V : Type} (zero : V) (add : V → V → V).
Context {Team : Type} (teams : list Team).
Context (roster : Team → datetime → list Player).
Context (player_stats : datetime → Z → string → Cell V).
Context (statCats : list string).
Context (idx : nat) (team : Team) (pID : Z).
Hypothesis Hnine : length statCats = 9%nat.
Hypothesis Hteam : teams !! idx = Some team.

Lemma ids_new_frame (players : list Player) :
  ids (new_frame (V := V) players) = map p_id players.
Proof. unfold ids, new_frame. by rewrite map_map. Qed.


Lemma populated_app (h : list (list (RosterRow V))) (day : datetime) :
  populated h → (∀ t, t ∈ teams → roster t day ≠ []) →
  populated (h ++ map (fun t => new_frame (roster t day)) teams)%list.
Proof.
  intros Hpop Hday l f Hf.
  apply lookup_app_Some in Hf as [Hf|[_ Hf]]; [by eapply Hpop|].
  rewrite lookup_map in Hf.
  destruct (teams !! (l - length h)%nat) as [t|] eqn:Ht; [|done].
  injection Hf as <-. apply list_elem_of_lookup_2 in Ht.
  specialize (Hday t Ht). by destruct (roster t day).
Qed.

Lemma populated_setup (previousSunday : datetime) :
  (∀ t, t ∈ teams → roster t previousSunday ≠ []) →
  populated (heap (setup zero teams roster statCats previousSunday)).
Proof.
  intros Hday l f Hf. simpl in Hf. rewrite lookup_map in Hf.
  destruct (teams !! l) as [t|] eqn:Ht; [|done].
  injection Hf as <-. apply list_elem_of_lookup_2 in Ht.
  specialize (Hday t Ht). by destruct (roster t previousSunday).
Qed.






End WeekWalk.

(** ** C5 *)




(** * Further properties *)

(** ** create_matchup_comparison: errors *)

Lemma for_each_Raise_at {A S : Type} (xs1 xs2 : list A) (x : A)
    (body : A → S → result S) (s s1 : S) (e : exn) :
  for_each xs1 body s = Ok s1 → body x s1 = Raise e →
  for_each (xs1 ++ x :: xs2) body s = Raise e.
Proof.
  intros H1 Hx. rewrite for_each_app, H1. simpl. by rewrite Hx.
Qed.

Lemma range_split (n k : nat) :
  (k < n)%nat → range n = (range k ++ k :: seq (S k) (n - S k))%list.
Proof.
  intros Hk. unfold range.
  replace n with (k + S (n - S k))%nat at 1 by lia.
  by rewrite seq_app.
Qed.

Lemma forallb_false_first {A : Type} (p : A → bool) (l : list A) :
  forallb p l = false →
  ∃ j x, l !! j = Some x ∧ p x = false
         ∧ ∀ k y, (k < j)%nat → l !! k = Some y → p y = true.
Proof.
  induction l as [|a l IH]; simpl; [done|].
  destruct (p a) eqn:Ha; simpl.
  - intros (j & x & Hj & Hx & Hfirst)%IH.
    exists (S j), x. split; [done|]. split; [done|].
    intros [|k] y Hk Hy; simpl in Hy; [by injection Hy as <-|].
    apply (Hfirst k); [lia | done].
  - intros _. exists 0%nat, a. split; [done|]. split; [done|]. intros; lia.
Qed.

Lemma getitem_Raise row cat :
  stats row !! cat = None → getitem row cat = Raise (KeyError cat).
Proof. unfold getitem. by intros ->. Qed.

Lemma has_columns_cons cat cats row :
  has_columns (cat :: cats) row
  = bool_decide (is_Some (stats row !! cat)) && has_columns cats row.
Proof. reflexivity. Qed.

Lemma tally_nonTOs_missing cur vs cats t :
  has_columns cats cur && has_columns cats vs = false →
  ∃ key, key ∈ cats ∧ tally_nonTOs cur vs cats t = Raise (KeyError key).
Proof.
  revert t. induction cats as [|cat cats IH]; intros t Hmiss; [done|].
  rewrite !has_columns_cons in Hmiss. cbn [tally_nonTOs]. unfold getitem.
  destruct (stats cur !! cat) as [a|] eqn:Ha; cbn [mbind result_bind].
  - destruct (stats vs !! cat) as [b|] eqn:Hb; cbn [mbind result_bind].
    + rewrite !bool_decide_eq_true_2 in Hmiss by done. simpl in Hmiss.
      destruct (IH (score_nonTO a b t) Hmiss) as (key & Hkey & Hrun).
      exists key. split; [by right | done].
    + exists cat. split; [by left | done].
  - exists cat. split; [by left | done].
Qed.

Lemma compare_rows_missing nonTOs TOs cur vs :
  has_columns (nonTOs ++ [TOs]) cur && has_columns (nonTOs ++ [TOs]) vs = false →
  ∃ key, key ∈ (nonTOs ++ [TOs])%list
         ∧ compare_rows nonTOs TOs cur vs = Raise (KeyError key).
Proof.
  rewrite !has_columns_app. intros Hmiss. unfold compare_rows.
  destruct (has_columns nonTOs cur && has_columns nonTOs vs) eqn:Hnon.
  - apply andb_true_iff in Hnon as [Hc Hv].
    destruct (tally_nonTOs_total cur vs nonTOs tally0 Hc Hv) as (t0 & -> & _).
    simpl. exists TOs. split; [apply elem_of_app; right; by left|].
    rewrite Hc, Hv, !has_columns_cons in Hmiss. unfold getitem.
    destruct (stats cur !! TOs) as [a|] eqn:Ha; cbn [mbind result_bind]; [|done].
    destruct (stats vs !! TOs) as [b|] eqn:Hb; cbn [mbind result_bind]; [|done].
    rewrite !bool_decide_eq_true_2 in Hmiss by done. done.
  - destruct (tally_nonTOs_missing cur vs nonTOs tally0 Hnon) as (key & Hkey & ->).
    exists key. split; [apply elem_of_app; by left | done].
Qed.

Lemma outer_body_missing nonTOs TOs df arr :
  all_have_columns (nonTOs ++ [TOs]) df = false →
  ∃ key, key ∈ (nonTOs ++ [TOs])%list
         ∧ outer_body nonTOs TOs df 0 arr = Raise (KeyError key).
Proof.
  intros (j & bad & Hj & Hbad & Hfirst)%forallb_false_first.
  pose proof (lookup_lt_Some _ _ _ Hj) as Hjn.
  destruct (lookup_lt_is_Some_2 df 0) as [cur Hcur]; [lia|].
  unfold outer_body, df_loc. rewrite Hcur. simpl.
  destruct (for_each_range_inv (fun _ (_ : Arrays) => True) j
              (inner_body nonTOs TOs df 0 cur) arr) as (arr1 & Hrun1 & _);
    [done | |].
  { intros k s Hk _.
    destruct (lookup_lt_is_Some_2 df k) as [vs Hvs]; [lia|].
    destruct (compare_rows_total nonTOs TOs cur vs) as (t & Ht & _).
    - apply (Hfirst 0%nat); [lia | done].
    - by apply (Hfirst k).
    - unfold inner_body, df_loc. rewrite Hvs. simpl. rewrite Ht. simpl. eauto. }
  destruct (compare_rows_missing nonTOs TOs cur bad) as (key & Hkey & Hfail).
  { rewrite Hbad. apply andb_false_r. }
  exists key. split; [done|].
  rewrite (range_split (length df) j Hjn).
  apply (for_each_Raise_at _ _ _ _ _ arr1); [done|].
  unfold inner_body, df_loc. rewrite Hj. simpl. by rewrite Hfail.
Qed.

(** X1. Without any stat category [create_matchup_comparison] stops at
    [statCats[-1]] with an [IndexError], whatever the dataframe. *)
Theorem X1_no_categories (df : list TeamRow) :
  create_matchup_comparison [] df = Raise IndexError.
Proof. reflexivity. Qed.

Lemma all_have_columns_absent cats (df : list TeamRow) cat row :
  cat ∈ cats → row ∈ df → stats row !! cat = None →
  all_have_columns cats df = false.
Proof.
  intros Hcat Hrow Hnone.
  destruct (all_have_columns cats df) eqn:Hall; [|done].
  destruct (all_have_columns_elem cats df cat row Hall Hcat Hrow) as [v Hv].
  by rewrite Hnone in Hv.
Qed.

Lemma create_matchup_comparison_missing statCats TOs df :
  last_item statCats = Ok TOs →
  all_have_columns statCats df = false →
  ∃ key, key ∈ statCats
         ∧ create_matchup_comparison statCats df = Raise (KeyError key).
Proof.
  intros Hlast Hmiss. pose proof (last_item_split _ _ Hlast) as Hsplit.
  rewrite Hsplit in Hmiss.
  destruct (outer_body_missing (all_but_last statCats) TOs df
              {| matchupScore := np_full (length df) None;
                 matchupWinner := np_full (length df) 0%Q |} Hmiss)
    as (key & Hkey & Hfail).
  exists key. split; [by rewrite Hsplit|].
  unfold create_matchup_comparison. rewrite Hlast. simpl.
  unfold comparison_loops.
  apply forallb_false_first in Hmiss as (j & bad & Hj & _).
  apply lookup_lt_Some in Hj.
  rewrite (range_split (length df) 0) by lia. simpl. by rewrite Hfail.
Qed.

(** X2. On a dataframe with rows, a category that is not a column of the
    dataframe makes [create_matchup_comparison] raise a [KeyError] for one
    of the categories. *)
Theorem X2_missing_column statCats df cat :
  df ≠ [] → cat ∈ statCats →
  (∀ row, row ∈ df → stats row !! cat = None) →
  ∃ key, key ∈ statCats
         ∧ create_matchup_comparison statCats df = Raise (KeyError key).
Proof.
  intros Hne Hcat Habsent.
  destruct (last statCats) as [TOs|] eqn:Hlast.
  - apply (create_matchup_comparison_missing statCats TOs).
    + unfold last_item. by rewrite Hlast.
    + destruct df as [|row df]; [done|].
      apply (all_have_columns_absent _ _ cat row); [done|by left|].
      apply Habsent. by left.
  - apply last_None in Hlast. subst statCats. inversion Hcat.
Qed.

Lemma X2_missing_column_witness :
  ∃ key, create_matchup_comparison ["PTS"; "BLK"; "TO"] sample_df
         = Raise (KeyError key).
Proof.
  destruct (X2_missing_column ["PTS"; "BLK"; "TO"] sample_df "BLK")
    as (key & _ & Hrun).
  - discriminate.
  - right. by left.
  - intros row Hrow. unfold sample_df in Hrow.
    repeat (apply elem_of_cons in Hrow as [->|Hrow]; [reflexivity|]).
    inversion Hrow.
  - by exists key.
Defined.

(** ** create_matchup_comparison: the returned dataframe *)

Lemma set_column_lookup_eq name values df i row v :
  df !! i = Some row → values !! i = Some v →
  set_column name values df !! i
  = Some {| manager := manager row; teamName := teamName row;
            matchupNumber := matchupNumber row;
            stats := <[name := v]> (stats row) |}.
Proof.
  intros Hr Hv. unfold set_column. by rewrite lookup_zip_with, Hr, Hv.
Qed.

(** Row by row, what [create_matchup_comparison] returns. *)
Lemma returned_rows statCats TOs df :
  last_item statCats = Ok TOs →
  all_have_columns statCats df = true →
  ∃ arr df' score winner,
    comparison_loops (all_but_last statCats) TOs df = Ok arr
    ∧ create_matchup_comparison statCats df = Ok (df', score, winner)
    ∧ arrays_square (length df) arr
    ∧ score = set_diag (Some "N/A") (matchupScore arr)
    ∧ winner = set_diag (-1)%Q (set_diag 0%Q (matchupWinner arr))
    ∧ length df' = length df
    ∧ ∀ i row, df !! i = Some row →
        ∃ r0, set_diag 0%Q (matchupWinner arr) !! i = Some r0
          ∧ length r0 = length df
          ∧ (∀ c, c ∈ r0 → is_outcome c)
          ∧ r0 !! i = Some 0%Q
          ∧ df' !! i
            = Some {| manager := keep_name_chars (manager row);
                      teamName := keep_name_chars (teamName row);
                      matchupNumber := matchupNumber row;
                      stats := <["totalTies" := ties_of r0]>
                                 (<["totalLosses" := losses_of r0]>
                                    (<["totalWins" := wins_of r0]> (stats row))) |}.
Proof.
  intros Hlast Hcols.
  destruct (create_matchup_comparison_run _ _ _ Hlast Hcols)
    as (arr & Hloops & Hsq & Hcells).
  pose proof (create_matchup_comparison_unfold _ _ _ _ Hlast Hloops) as Hrun.
  simpl in Hrun. exists arr. do 3 eexists.
  split; [done|]. split; [exact Hrun|]. split; [done|].
  split; [done|]. split; [done|].
  set (winner0 := set_diag 0%Q (matchupWinner arr)) in *.
  assert (length winner0 = length df) as Hlen0.
  { destruct Hsq as [_ Hsq]. by apply (square_set_diag _ _ 0%Q) in Hsq as [? _]. }
  set (wins := sum_axis1 (set_where_ne 1 0 winner0)).
  set (losses := map (fun s => (s - 1)%Q)
                   (sum_axis1 (map (map (fun c => (1 - c)%Q))
                                 (set_where_ne 0 1 winner0)))).
  set (ties := sum_axis1 (set_where_eq (1 # 2) 1
                            (set_where_ne (1 # 2) 0 winner0))).
  assert (length wins = length df) as Hlw.
  { unfold wins, sum_axis1, set_where_ne. by rewrite !length_map. }
  assert (length losses = length df) as Hll.
  { unfold losses, sum_axis1, set_where_ne. by rewrite !length_map. }
  assert (length ties = length df) as Hlt.
  { unfold ties, sum_axis1, set_where_eq, set_where_ne. by rewrite !length_map. }
  split.
  { unfold fix_names_teams. rewrite length_map.
    rewrite length_set_column; rewrite length_set_column;
      rewrite ?length_set_column; congruence. }
  intros i row Hrow. pose proof (lookup_lt_Some _ _ _ Hrow) as Hi.
  destruct (winner0_row statCats TOs df arr i Hsq Hcells Hi)
    as (r0 & Hr0 & Hlenr & Hout).
  fold winner0 in Hr0.
  exists r0. split; [done|]. split; [done|]. split; [done|]. split.
  { destruct Hsq as [_ Hsq2].
    pose proof (mget_set_diag_eq (length df) (matchupWinner arr) 0%Q i Hsq2 Hi)
      as Hd.
    unfold mget in Hd. fold winner0 in Hd. rewrite Hr0 in Hd. exact Hd. }
  assert (wins !! i = Some (wins_of r0)) as Hw.
  { apply sum_axis1_lookup. unfold set_where_ne. by rewrite lookup_map, Hr0. }
  assert (losses !! i = Some (losses_of r0)) as Hl.
  { unfold losses. rewrite lookup_map. erewrite sum_axis1_lookup; [done|].
    unfold set_where_ne. by rewrite !lookup_map, Hr0. }
  assert (ties !! i = Some (ties_of r0)) as Ht.
  { apply sum_axis1_lookup. unfold set_where_eq, set_where_ne.
    by rewrite !lookup_map, Hr0. }
  pose proof (set_column_lookup_eq "totalWins" wins df i row _ Hrow Hw) as H1.
  pose proof (set_column_lookup_eq "totalLosses" losses _ i _ _ H1 Hl) as H2.
  pose proof (set_column_lookup_eq "totalTies" ties _ i _ _ H2 Ht) as H3.
  unfold fix_names_teams. rewrite lookup_map, H3. done.
Qed.

(** *** Counting the cells of a row *)

Lemma count_eq_cons v c row :
  count_eq v (c :: row)
  = ((if float_eq c v then 1 else 0) + count_eq v row)%nat.
Proof. unfold count_eq. simpl. by destruct (float_eq c v). Qed.

Lemma count_eq_app v row1 row2 :
  count_eq v (row1 ++ row2) = (count_eq v row1 + count_eq v row2)%nat.
Proof. unfold count_eq. by rewrite List.filter_app, length_app. Qed.

Lemma qsum_indicator (f : Q → Q) (v : Q) (row : list Q) :
  (∀ c, c ∈ row → (f c == if float_eq c v then 1 else 0)%Q) →
  (qsum (map f row) == inject_Z (Z.of_nat (count_eq v row)))%Q.
Proof.
  induction row as [|c row IH]; intros Hf; [reflexivity|].
  cbn [map]. rewrite qsum_cons, count_eq_cons.
  rewrite IH by (intros c' Hc'; apply Hf; by right).
  rewrite (Hf c) by (by left).
  destruct (float_eq c v).
  - rewrite Nat2Z.inj_add, inject_Z_plus. reflexivity.
  - simpl. ring.
Qed.

Lemma wins_of_count (row : list Q) :
  (∀ c, c ∈ row → is_outcome c) →
  (wins_of row == inject_Z (Z.of_nat (count_eq 1 row)))%Q.
Proof.
  intros Hrow. unfold wins_of. apply qsum_indicator.
  intros c Hc. destruct (Hrow c Hc) as [->|[->| ->]]; reflexivity.
Qed.

Lemma ties_of_count (row : list Q) :
  (∀ c, c ∈ row → is_outcome c) →
  (ties_of row == inject_Z (Z.of_nat (count_eq (1 # 2) row)))%Q.
Proof.
  intros Hrow. unfold ties_of. rewrite map_map. apply qsum_indicator.
  intros c Hc. destruct (Hrow c Hc) as [->|[->| ->]]; reflexivity.
Qed.

Lemma losses_of_count (row : list Q) :
  (∀ c, c ∈ row → is_outcome c) →
  (losses_of row == inject_Z (Z.of_nat (count_eq 0 row)) - 1)%Q.
Proof.
  intros Hrow. unfold losses_of. rewrite map_map.
  rewrite (qsum_indicator _ 0 row); [reflexivity|].
  intros c Hc. destruct (Hrow c Hc) as [->|[->| ->]]; reflexivity.
Qed.

(** Overwriting a zero cell with [-1] removes one zero and nothing else. *)
Lemma count_eq_insert_diag (v : Q) (row : list Q) (i : nat) :
  row !! i = Some 0%Q →
  (count_eq v row
   = (if float_eq 0 v then 1 else 0) + count_eq v (<[i := (-1)%Q]> row)
     - (if float_eq (-1) v then 1 else 0))%nat.
Proof.
  intros Hi. pose proof (lookup_lt_Some _ _ _ Hi) as Hlt.
  rewrite <- (take_drop_middle row i 0%Q Hi) at 1.
  rewrite insert_take_drop by done.
  rewrite !count_eq_app, !count_eq_cons.
  destruct (float_eq 0 v), (float_eq (-1) v); lia.
Qed.

(** X3. In what [create_matchup_comparison] returns, [totalWins],
    [totalLosses] and [totalTies] of team [i] are the numbers of cells of
    row [i] of the returned [matchupWinner] that hold 1, 0 and 0.5. *)
Theorem X3_totals_count_cells statCats TOs df :
  last_item statCats = Ok TOs →
  all_have_columns statCats df = true →
  ∃ df' score winner,
    create_matchup_comparison statCats df = Ok (df', score, winner)
    ∧ ∀ i row, df' !! i = Some row →
        ∃ cells w l t,
          winner !! i = Some cells
          ∧ stats row !! "totalWins" = Some w
          ∧ stats row !! "totalLosses" = Some l
          ∧ stats row !! "totalTies" = Some t
          ∧ (w == inject_Z (Z.of_nat (count_eq 1 cells)))%Q
          ∧ (l == inject_Z (Z.of_nat (count_eq 0 cells)))%Q
          ∧ (t == inject_Z (Z.of_nat (count_eq (1 # 2) cells)))%Q.
Proof.
  intros Hlast Hcols.
  destruct (returned_rows _ _ _ Hlast Hcols)
    as (arr & df' & score & winner & _ & Hrun & Hsq & _ & -> & Hlen & Hrows).
  exists df', score, (set_diag (-1)%Q (set_diag 0%Q (matchupWinner arr))).
  split; [done|].
  intros i row' Hrow'.
  destruct (lookup_lt_is_Some_2 df i) as [row Hrow].
  { rewrite <- Hlen. by eapply lookup_lt_Some. }
  destruct (Hrows i row Hrow) as (r0 & Hr0 & Hlen0 & Hout & Hdiag & Hdf').
  rewrite Hdf' in Hrow'. injection Hrow' as <-. simpl.
  exists (<[i := (-1)%Q]> r0), (wins_of r0), (losses_of r0), (ties_of r0).
  split.
  { unfold set_diag at 1. by rewrite list_lookup_imap, Hr0. }
  split; [by rewrite !lookup_insert_ne, lookup_insert_eq by done|].
  split; [by rewrite lookup_insert_ne, lookup_insert_eq by done|].
  split; [by rewrite lookup_insert_eq|].
  split; [|split].
  - rewrite wins_of_count by done.
    pose proof (count_eq_insert_diag 1 r0 i Hdiag) as Hc.
    change (float_eq 0 1) with false in Hc.
    change (float_eq (-1) 1) with false in Hc. cbv iota in Hc.
    by replace (count_eq 1 r0) with (count_eq 1 (<[i := (-1)%Q]> r0)) by lia.
  - rewrite losses_of_count by done.
    pose proof (count_eq_insert_diag 0 r0 i Hdiag) as Hc.
    change (float_eq 0 0) with true in Hc.
    change (float_eq (-1) 0) with false in Hc. cbv iota in Hc.
    replace (count_eq 0 r0) with (S (count_eq 0 (<[i := (-1)%Q]> r0))) by lia.
    rewrite Nat2Z.inj_succ, <- Z.add_1_r, inject_Z_plus. ring.
  - rewrite ties_of_count by done.
    pose proof (count_eq_insert_diag (1 # 2) r0 i Hdiag) as Hc.
    change (float_eq 0 (1 # 2)) with false in Hc.
    change (float_eq (-1) (1 # 2)) with false in Hc. cbv iota in Hc.
    by replace (count_eq (1 # 2) r0)
      with (count_eq (1 # 2) (<[i := (-1)%Q]> r0)) by lia.
Qed.

Lemma X3_totals_count_cells_witness :
  ∃ df' score winner,
    create_matchup_comparison sample_cats sample_df = Ok (df', score, winner)
    ∧ ∀ i row, df' !! i = Some row →
        ∃ cells w l t,
          winner !! i = Some cells
          ∧ stats row !! "totalWins" = Some w
          ∧ stats row !! "totalLosses" = Some l
          ∧ stats row !! "totalTies" = Some t
          ∧ (w == inject_Z (Z.of_nat (count_eq 1 cells)))%Q
          ∧ (l == inject_Z (Z.of_nat (count_eq 0 cells)))%Q
          ∧ (t == inject_Z (Z.of_nat (count_eq (1 # 2) cells)))%Q.
Proof.
  exact (X3_totals_count_cells sample_cats "TO" sample_df eq_refl eq_refl).
Defined.

(** X4. [create_matchup_comparison] returns the rows of its dataframe in
    the same order with the three summary columns added: the matchup
    number and every other float column of a row are unchanged, and the
    manager and team names are the cleaned names. *)
Theorem X4_rows_kept statCats TOs df :
  last_item statCats = Ok TOs →
  all_have_columns statCats df = true →
  ∃ df' score winner,
    create_matchup_comparison statCats df = Ok (df', score, winner)
    ∧ length df' = length df
    ∧ ∀ i row, df !! i = Some row →
        ∃ row', df' !! i = Some row'
          ∧ matchupNumber row' = matchupNumber row
          ∧ manager row' = keep_name_chars (manager row)
          ∧ teamName row' = keep_name_chars (teamName row)
          ∧ ∀ label, label ≠ "totalWins" → label ≠ "totalLosses" →
                     label ≠ "totalTies" →
                     stats row' !! label = stats row !! label.
Proof.
  intros Hlast Hcols.
  destruct (returned_rows _ _ _ Hlast Hcols)
    as (arr & df' & score & winner & _ & Hrun & _ & _ & _ & Hlen & Hrows).
  exists df', score, winner. split; [done|]. split; [done|].
  intros i row Hrow.
  destruct (Hrows i row Hrow) as (r0 & _ & _ & _ & _ & Hdf').
  eexists. split; [exact Hdf'|]. simpl. split; [done|]. split; [done|].
  split; [done|]. intros label Hw Hl Ht.
  by rewrite !lookup_insert_ne by done.
Qed.

Lemma X4_rows_kept_witness :
  ∃ df' score winner,
    create_matchup_comparison sample_cats sample_df = Ok (df', score, winner)
    ∧ (∃ row', df' !! 1%nat = Some row'
               ∧ manager row' = "bob" ∧ teamName row' = "bobs team"
               ∧ stats row' !! "REB" = Some (401 # 2)%Q).
Proof.
  destruct (X4_rows_kept sample_cats "TO" sample_df eq_refl eq_refl)
    as (df' & score & winner & Hrun & _ & Hrows).
  exists df', score, winner. split; [done|].
  destruct (Hrows 1%nat _ eq_refl) as (row' & Hrow' & _ & Hm & Ht & Hst).
  exists row'. split; [done|]. split; [done|]. split; [done|].
  by rewrite Hst.
Defined.

(** X5. Both arrays returned by [create_matchup_comparison] are [n] by [n]
    for [n] team rows, no cell of [matchupScore] is left without a text,
    and a cell of [matchupWinner] holds -1 on the diagonal and 1, 0 or 0.5
    elsewhere. *)
Theorem X5_arrays_filled statCats TOs df :
  last_item statCats = Ok TOs →
  all_have_columns statCats df = true →
  ∃ df' score winner,
    create_matchup_comparison statCats df = Ok (df', score, winner)
    ∧ square (length df) score ∧ square (length df) winner
    ∧ ∀ i j, (i < length df)%nat → (j < length df)%nat →
        (∃ text, mget score i j = Some (Some text))
        ∧ (i = j → mget winner i j = Some (-1)%Q)
        ∧ (i ≠ j → mget winner i j = Some 1%Q ∨ mget winner i j = Some 0%Q
                   ∨ mget winner i j = Some (1 # 2)%Q).
Proof.
  intros Hlast Hcols.
  destruct (returned_arrays _ _ _ Hlast Hcols)
    as (arr & df' & score & winner & Hloops & Hrun & Hcells & Hoff & Hdiag).
  destruct (returned_rows _ _ _ Hlast Hcols)
    as (arr2 & df2 & score2 & winner2 & Hloops2 & Hrun2 & [Hsq1 Hsq2]
        & Hs & Hw & _).
  rewrite Hloops in Hloops2. injection Hloops2 as <-.
  rewrite Hrun in Hrun2. injection Hrun2 as <- <- <-.
  exists df', score, winner. split; [done|].
  split; [rewrite Hs; by apply square_set_diag|].
  split; [rewrite Hw; by do 2 apply square_set_diag|].
  intros i j Hi Hj. destruct (decide (i = j)) as [<-|Hne].
  - destruct (Hdiag i Hi) as [Hsd Hwd]. split; [by eexists|].
    split; [done | by intros []].
  - destruct (Hoff i j Hne) as [Hso Hwo].
    destruct (Hcells i j Hi Hj) as (cur & vs & t & _ & _ & _ & Hst & Hwt).
    split; [rewrite Hso; by eexists|]. split; [done|]. intros _.
    rewrite Hwo, Hwt. destruct (winner_value_outcome t) as [->|[->| ->]]; auto.
Qed.

Lemma X5_arrays_filled_witness :
  ∃ df' score winner,
    create_matchup_comparison sample_cats sample_df = Ok (df', score, winner)
    ∧ square 3 score ∧ square 3 winner.
Proof.
  destruct (X5_arrays_filled sample_cats "TO" sample_df eq_refl eq_refl)
    as (df' & score & winner & Hrun & Hs & Hw & _).
  by exists df', score, winner.
Defined.

(** ** fix_names_teams *)

Lemma keep_name_chars_allowed (s : string) (c : ascii) :
  c ∈ list_ascii_of_string (keep_name_chars s) → name_char c = true.
Proof.
  induction s as [|a s IH]; simpl; [intros H; inversion H|].
  fold (name_char a). destruct (name_char a) eqn:Ha; [|done].
  simpl. intros [->|Hc]%elem_of_cons; [done | by apply IH].
Qed.

Lemma keep_name_chars_clean (s : string) :
  (∀ c, c ∈ list_ascii_of_string s → name_char c = true) →
  keep_name_chars s = s.
Proof.
  induction s as [|a s IH]; simpl; [done|]. intros Hall.
  fold (name_char a). rewrite (Hall a) by (by left).
  f_equal. apply IH. intros c Hc. apply Hall. by right.
Qed.

Lemma keep_name_chars_idem (s : string) :
  keep_name_chars (keep_name_chars s) = keep_name_chars s.
Proof. apply keep_name_chars_clean, keep_name_chars_allowed. Qed.

Lemma keep_name_chars_length (s : string) :
  (String.length (keep_name_chars s) ≤ String.length s)%nat.
Proof.
  induction s as [|a s IH]; simpl; [done|].
  destruct (isalnum a || Ascii.eqb a " " || Ascii.eqb a "-"); simpl; lia.
Qed.

(** X6. After [fix_names_teams] every character of every manager and team
    name is alphanumeric, a space or a dash, and running the function a
    second time changes nothing. *)
Theorem X6_fix_names_teams_idempotent (df : list TeamRow) :
  fix_names_teams (fix_names_teams df) = fix_names_teams df
  ∧ ∀ row c, row ∈ fix_names_teams df →
      c ∈ list_ascii_of_string (manager row)
      ∨ c ∈ list_ascii_of_string (teamName row) →
      isalnum c = true ∨ c = " "%char ∨ c = "-"%char.
Proof.
  split.
  - unfold fix_names_teams. rewrite map_map. apply map_ext.
    intros row. simpl. by rewrite !keep_name_chars_idem.
  - intros row c (row0 & -> & _)%elem_of_map Hc. simpl in Hc.
    assert (name_char c = true) as Hn.
    { destruct Hc as [Hc|Hc]; by eapply keep_name_chars_allowed. }
    unfold name_char in Hn.
    apply orb_true_iff in Hn as [Hn|Hn]; [|right; right; by apply Ascii.eqb_eq].
    apply orb_true_iff in Hn as [Hn|Hn]; [by left|].
    right; left; by apply Ascii.eqb_eq.
Qed.

(** X7. [fix_names_teams] only deletes characters from the two names: a
    name never gets longer, a name made of alphanumeric characters, spaces
    and dashes is returned as it is, and the number of rows, their order,
    the matchup numbers and the float columns are untouched. *)
Theorem X7_fix_names_teams_keeps (df : list TeamRow) :
  length (fix_names_teams df) = length df
  ∧ ∀ i row, df !! i = Some row →
      ∃ row', fix_names_teams df !! i = Some row'
        ∧ stats row' = stats row
        ∧ matchupNumber row' = matchupNumber row
        ∧ (String.length (manager row') ≤ String.length (manager row))%nat
        ∧ (String.length (teamName row') ≤ String.length (teamName row))%nat
        ∧ ((∀ c, c ∈ list_ascii_of_string (manager row) → name_char c = true) →
           manager row' = manager row)
        ∧ ((∀ c, c ∈ list_ascii_of_string (teamName row) → name_char c = true) →
           teamName row' = teamName row).
Proof.
  split; [unfold fix_names_teams; by rewrite length_map|].
  intros i row Hrow. unfold fix_names_teams. rewrite lookup_map, Hrow. simpl.
  eexists. split; [done|]. simpl. split; [done|]. split; [done|].
  split; [apply keep_name_chars_length|].
  split; [apply keep_name_chars_length|].
  split; apply keep_name_chars_clean.
Qed.

Lemma X7_fix_names_teams_keeps_witness :
  ∃ row', fix_names_teams sample_df !! 2%nat = Some row'
          ∧ manager row' = "cy" ∧ teamName row' = "cys team"
          ∧ stats row' !! "PTS" = Some 410%Q.
Proof.
  destruct (proj2 (X7_fix_names_teams_keeps sample_df) 2%nat _ eq_refl)
    as (row' & Hrow' & Hst & _ & _ & _ & Hm & _).
  exists row'. split; [done|]. split.
  - apply Hm. intros c Hc. vm_compute in Hc.
    repeat (apply elem_of_cons in Hc as [->|Hc]); [done | done | inversion Hc].
  - injection Hrow' as <-. split; reflexivity.
Defined.

Lemma X6_fix_names_teams_idempotent_witness :
  fix_names_teams (fix_names_teams sample_df) = fix_names_teams sample_df
  ∧ (isalnum "s" = true ∨ "s"%char = " "%char ∨ "s"%char = "-"%char).
Proof.
  split; [apply (X6_fix_names_teams_idempotent sample_df)|].
  apply (proj2 (X6_fix_names_teams_idempotent sample_df)
           {| manager := "ann"; teamName := "anns team"; matchupNumber := "0";
              stats := stats (sample_row "ann" 410 (401 # 2) 55) |} "s"%char).
  - apply (list_elem_of_lookup_2 _ 0%nat). reflexivity.
  - right. simpl. do 3 right. left.
Defined.

(** ** max_min_stats: errors and shape *)

Lemma column_cells_missing df stat row :
  row ∈ df → stats row !! stat = None →
  column_cells df stat = Raise (KeyError stat).
Proof.
  induction df as [|r df IH]; intros Hin Hnone; [inversion Hin|].
  simpl. unfold getitem at 1.
  destruct (stats r !! stat) as [v|] eqn:Hv; cbn [mbind result_bind]; [|done].
  apply elem_of_cons in Hin as [->|Hin]; [congruence|].
  by rewrite IH.
Qed.

Lemma column_missing df stat row :
  row ∈ df → stats row !! stat = None → column df stat = Raise (KeyError stat).
Proof.
  intros Hin Hnone. unfold column.
  destruct df; [inversion Hin|]. by eapply column_cells_missing.
Qed.

Lemma reduce_columns_missing (reduce : list Q → result Q) df cats :
  (∀ col, col ≠ [] → ∃ m, reduce col = Ok m) →
  df ≠ [] →
  (∃ stat row, stat ∈ cats ∧ row ∈ df ∧ stats row !! stat = None) →
  ∃ key, key ∈ cats ∧ reduce_columns reduce df cats = Raise (KeyError key).
Proof.
  intros Hreduce Hne. induction cats as [|stat cats IH];
    intros (s & row & Hs & Hrow & Hnone); [inversion Hs|].
  simpl.
  destruct (forallb (fun r => bool_decide (is_Some (stats r !! stat))) df)
    eqn:Hall.
  - destruct (column_spec df stat Hne) as (col & Hcol & Hcne & _).
    { intros r Hr. rewrite forallb_forall in Hall.
      apply list_elem_of_In in Hr. specialize (Hall r Hr).
      by apply bool_decide_eq_true in Hall. }
    destruct (Hreduce col Hcne) as (m & Hm).
    rewrite Hcol. simpl. rewrite Hm. simpl.
    destruct IH as (key & Hkey & Hfail).
    { apply elem_of_cons in Hs as [->|Hs].
      - rewrite forallb_forall in Hall. apply list_elem_of_In in Hrow.
        specialize (Hall _ Hrow). apply bool_decide_eq_true in Hall.
        rewrite Hnone in Hall. by destruct Hall.
      - by exists s, row. }
    rewrite Hfail. simpl. exists key. split; [by right | done].
  - apply forallb_false_first in Hall as (j & bad & Hj & Hbad & _).
    apply bool_decide_eq_false in Hbad.
    exists stat. split; [by left|].
    rewrite (column_missing df stat bad); [done | by eapply list_elem_of_lookup_2 |].
    destruct (stats bad !! stat) eqn:E; [|done]. exfalso. apply Hbad. by eexists.
Qed.

Lemma all_have_columns_false cats df :
  all_have_columns cats df = false →
  ∃ stat row, stat ∈ cats ∧ row ∈ df ∧ stats row !! stat = None.
Proof.
  intros (j & row & Hj & Hbad & _)%forallb_false_first.
  apply forallb_false_first in Hbad as (k & stat & Hk & Hstat & _).
  apply bool_decide_eq_false in Hstat.
  exists stat, row. split; [by eapply list_elem_of_lookup_2|].
  split; [by eapply list_elem_of_lookup_2|].
  destruct (stats row !! stat) eqn:E; [|done]. exfalso. apply Hstat. by eexists.
Qed.

(** X8. On a dataframe without rows, which has no columns either,
    [max_min_stats] raises a [KeyError], whatever the categories. *)
Theorem X8_max_min_stats_empty (origStatCats : list string) :
  ∃ key, max_min_stats origStatCats [] = Raise (KeyError key).
Proof. destruct origStatCats; by eexists. Qed.

(** X9. On a dataframe with rows, [max_min_stats] raises a [KeyError] when
    one of the requested columns (the categories and the four shot
    counts) is not a column of the dataframe. *)
Theorem X9_max_min_stats_missing_column origStatCats df cat :
  df ≠ [] →
  cat ∈ (origStatCats ++ ["FGM"; "FGA"; "FTM"; "FTA"])%list →
  (∀ row, row ∈ df → stats row !! cat = None) →
  ∃ key, max_min_stats origStatCats df = Raise (KeyError key).
Proof.
  intros Hne Hcat Habsent.
  assert (∃ stat row,
            stat ∈ (origStatCats ++ ["FGM"; "FGA"; "FTM"; "FTA"])%list
            ∧ row ∈ df ∧ stats row !! stat = None) as Hmiss.
  { destruct df as [|row df]; [done|]. exists cat, row.
    split; [done|]. split; [by left|]. apply Habsent. by left. }
  destruct (reduce_columns_missing series_max df _
              (fun col Hc => let '(ex_intro _ m (conj Hm _)) :=
                               series_max_spec col Hc in ex_intro _ m Hm)
              Hne Hmiss) as (key & Hkey & Hfail).
  exists key. unfold max_min_stats. by rewrite Hfail.
Qed.

Lemma X9_max_min_stats_missing_column_witness :
  ∃ key, max_min_stats sample_cats sample_df = Raise (KeyError key).
Proof.
  apply (X9_max_min_stats_missing_column sample_cats sample_df "FGM").
  - discriminate.
  - do 3 right. by left.
  - intros row Hrow. unfold sample_df in Hrow.
    repeat (apply elem_of_cons in Hrow as [->|Hrow]; [reflexivity|]).
    inversion Hrow.
Defined.

Lemma column_unique df stat col1 col2 :
  Forall2 (fun row v => stats row !! stat = Some v) df col1 →
  Forall2 (fun row v => stats row !! stat = Some v) df col2 →
  col1 = col2.
Proof.
  intros H1. revert col2. induction H1 as [|row v df col Hv H1 IH];
    intros col2 H2; inversion H2 as [|? w ? col' Hw H2']; subst; [done|].
  f_equal; [congruence | by apply IH].
Qed.

Lemma attains_filter_nonempty df stat val :
  (∃ row, row ∈ df ∧ stats row !! stat = Some val) →
  List.filter (attains stat val) df ≠ [].
Proof.
  intros (row & Hin & Hval) Hnil.
  assert (row ∈ List.filter (attains stat val) df) as Hmem.
  { apply elem_of_List_filter. split; [done|].
    unfold attains. rewrite Hval. apply Qeq_bool_refl. }
  rewrite Hnil in Hmem. inversion Hmem.
Qed.

Lemma attains_filter_all df stat val :
  (∀ row, row ∈ df → ∃ v, stats row !! stat = Some v ∧ (v == val)%Q) →
  List.filter (attains stat val) df = df.
Proof.
  induction df as [|r df IH]; intros Hall; simpl; [done|].
  destruct (Hall r) as (v & Hv & Heq); [by left|].
  unfold attains at 1. rewrite Hv.
  rewrite (proj2 (float_eq_spec v val) Heq). f_equal.
  apply IH. intros row Hrow. apply Hall. by right.
Qed.

(** X10. With every requested column present, the [k]-th lines of the two
    reports of [max_min_stats] are about the same category, the minimum is
    not above the maximum, each line names at least one row, and when the
    two values are equal both lines list every manager. *)
Theorem X10_min_below_max origStatCats df :
  df ≠ [] →
  all_have_columns (origStatCats ++ ["FGM"; "FGA"; "FTM"; "FTA"]) df = true →
  ∃ maxStatDF minStatDF,
    max_min_stats origStatCats df = Ok (maxStatDF, minStatDF)
    ∧ length maxStatDF = (length origStatCats + 4)%nat
    ∧ length minStatDF = (length origStatCats + 4)%nat
    ∧ ∀ k hi lo, maxStatDF !! k = Some hi → minStatDF !! k = Some lo →
        Stat hi = Stat lo
        ∧ (Value lo <= Value hi)%Q
        ∧ List.filter (attains (Stat hi) (Value hi)) df ≠ []
        ∧ List.filter (attains (Stat lo) (Value lo)) df ≠ []
        ∧ ((Value lo == Value hi)%Q →
           Managers hi = join_comma (map manager df)
           ∧ Managers lo = join_comma (map manager df)).
Proof.
  intros Hne Hcols.
  set (statCats := (origStatCats ++ ["FGM"; "FGA"; "FTM"; "FTA"])%list) in *.
  assert (∀ stat row, stat ∈ statCats → row ∈ df → is_Some (stats row !! stat))
    as Hsome.
  { intros stat row Hs Hr. by eapply all_have_columns_elem. }
  destruct (reduce_columns_spec series_max
              (fun col m => m ∈ col ∧ ∀ x, x ∈ col → (x <= m)%Q)
              df statCats series_max_spec Hne Hsome)
    as (maxCats & Hmax & Hfmax & Hpmax).
  destruct (reduce_columns_spec series_min
              (fun col m => m ∈ col ∧ ∀ x, x ∈ col → (m <= x)%Q)
              df statCats series_min_spec Hne Hsome)
    as (minCats & Hmin & Hfmin & Hpmin).
  exists (map (line_of df) maxCats), (map (line_of df) minCats).
  split.
  { unfold max_min_stats. fold statCats. rewrite Hmax. simpl.
    rewrite stat_lines_spec; [|done|by rewrite Hfmax]. simpl.
    rewrite Hmin. simpl.
    rewrite stat_lines_spec; [|done|by rewrite Hfmin]. done. }
  assert (length statCats = (length origStatCats + 4)%nat) as Hlen.
  { unfold statCats. by rewrite length_app. }
  split; [by rewrite length_map, <- (length_map fst), Hfmax|].
  split; [by rewrite length_map, <- (length_map fst), Hfmin|].
  intros k hi lo Hhi Hlo. rewrite lookup_map in Hhi, Hlo.
  destruct (maxCats !! k) as [[s1 v1]|] eqn:E1; [|done].
  destruct (minCats !! k) as [[s2 v2]|] eqn:E2; [|done].
  injection Hhi as <-. injection Hlo as <-. simpl.
  assert (s1 = s2) as <-.
  { assert (map fst maxCats !! k = Some s1) as H1 by (by rewrite lookup_map, E1).
    assert (map fst minCats !! k = Some s2) as H2 by (by rewrite lookup_map, E2).
    rewrite Hfmax in H1. rewrite Hfmin in H2. congruence. }
  destruct (Hpmax s1 v1 (list_elem_of_lookup_2 _ _ _ E1))
    as (col1 & Hall1 & Hin1 & Hle1).
  destruct (Hpmin s1 v2 (list_elem_of_lookup_2 _ _ _ E2))
    as (col2 & Hall2 & Hin2 & Hle2).
  rewrite <- (column_unique _ _ _ _ Hall1 Hall2) in *. clear Hall2.
  destruct (column_elem_row _ _ _ Hall1) as [Hto Hfrom].
  split; [done|]. split; [by apply Hle1|].
  split; [by apply attains_filter_nonempty, Hto|].
  split; [by apply attains_filter_nonempty, Hto|].
  intros Heq.
  assert (∀ row, row ∈ df → ∃ v, stats row !! s1 = Some v
                                ∧ (v == v1)%Q ∧ (v == v2)%Q) as Hflat.
  { intros row Hrow. destruct (Hsome s1 row) as [v Hv]; [|done|].
    - rewrite <- Hfmax. apply elem_of_map. exists (s1, v1).
      split; [done | by eapply list_elem_of_lookup_2].
    - exists v. split; [done|].
      pose proof (Hle1 v (Hfrom _ _ Hrow Hv)) as Hup.
      pose proof (Hle2 v (Hfrom _ _ Hrow Hv)) as Hdown.
      split; apply Qle_antisym; try done.
      + by rewrite <- Heq.
      + by rewrite Heq. }
  split; (rewrite attains_filter_all; [done|]);
    intros row Hrow; destruct (Hflat row Hrow) as (v & Hv & H1 & H2);
    by exists v.
Qed.

Lemma X10_min_below_max_witness :
  ∃ maxStatDF minStatDF,
    max_min_stats ["PTS"] sample_totals_df = Ok (maxStatDF, minStatDF)
    ∧ length maxStatDF = 5%nat ∧ length minStatDF = 5%nat.
Proof.
  destruct (X10_min_below_max ["PTS"] sample_totals_df)
    as (maxStatDF & minStatDF & Hrun & Hl1 & Hl2 & _);
    [discriminate | reflexivity |].
  by exists maxStatDF, minStatDF.
Defined.

(** ** highlight_max_and_min_cols *)

Lemma arg_scan_min (pre rest : list Q) (best : Q) (besti : nat) :
  pre !! besti = Some best →
  (∀ j y, pre !! j = Some y → (best <= y)%Q) →
  (∀ j y, (j < besti)%nat → pre !! j = Some y → (best < y)%Q) →
  first_min (pre ++ rest) (arg_scan float_lt rest (length pre) best besti).
Proof.
  revert pre best besti.
  induction rest as [|y rest IH]; intros pre best besti Hbest Hle Hlt.
  - simpl. rewrite app_nil_r. by exists best.
  - cbn [arg_scan].
    replace (pre ++ y :: rest)%list with ((pre ++ [y]) ++ rest)%list
      by (by rewrite <- app_assoc).
    replace (S (length pre)) with (length (pre ++ [y]))
      by (rewrite length_app; simpl; lia).
    destruct (float_lt y best) eqn:Hy.
    + apply float_lt_spec in Hy. apply IH.
      * by rewrite lookup_app_r, Nat.sub_diag by done.
      * intros j z [Hz|[_ Hz]]%lookup_app_Some.
        -- apply Qlt_le_weak. eapply Qlt_le_trans; [done|]. by eapply Hle.
        -- apply list_lookup_singleton_Some in Hz as [_ <-]. apply Qle_refl.
      * intros j z Hj Hz. rewrite lookup_app_l in Hz by done.
        eapply Qlt_le_trans; [done|]. by eapply Hle.
    + apply float_lt_false in Hy. apply IH.
      * apply lookup_app_l_Some. done.
      * intros j z [Hz|[_ Hz]]%lookup_app_Some; [by eapply Hle|].
        by apply list_lookup_singleton_Some in Hz as [_ <-].
      * intros j z Hj Hz.
        pose proof (lookup_lt_Some _ _ _ Hbest) as Hb.
        rewrite lookup_app_l in Hz by lia. by eapply Hlt.
Qed.

Lemma arg_scan_max (pre rest : list Q) (best : Q) (besti : nat) :
  pre !! besti = Some best →
  (∀ j y, pre !! j = Some y → (y <= best)%Q) →
  (∀ j y, (j < besti)%nat → pre !! j = Some y → (y < best)%Q) →
  first_max (pre ++ rest) (arg_scan float_gt rest (length pre) best besti).
Proof.
  revert pre best besti.
  induction rest as [|y rest IH]; intros pre best besti Hbest Hle Hlt.
  - simpl. rewrite app_nil_r. by exists best.
  - cbn [arg_scan].
    replace (pre ++ y :: rest)%list with ((pre ++ [y]) ++ rest)%list
      by (by rewrite <- app_assoc).
    replace (S (length pre)) with (length (pre ++ [y]))
      by (rewrite length_app; simpl; lia).
    destruct (float_gt y best) eqn:Hy.
    + apply float_gt_spec in Hy. apply IH.
      * by rewrite lookup_app_r, Nat.sub_diag by done.
      * intros j z [Hz|[_ Hz]]%lookup_app_Some.
        -- apply Qlt_le_weak. eapply Qle_lt_trans; [|done]. by eapply Hle.
        -- apply list_lookup_singleton_Some in Hz as [_ <-]. apply Qle_refl.
      * intros j z Hj Hz. rewrite lookup_app_l in Hz by done.
        eapply Qle_lt_trans; [|done]. by eapply Hle.
    + apply float_lt_false in Hy. apply IH.
      * apply lookup_app_l_Some. done.
      * intros j z [Hz|[_ Hz]]%lookup_app_Some; [by eapply Hle|].
        by apply list_lookup_singleton_Some in Hz as [_ <-].
      * intros j z Hj Hz.
        pose proof (lookup_lt_Some _ _ _ Hbest) as Hb.
        rewrite lookup_app_l in Hz by lia. by eapply Hlt.
Qed.

Lemma argmin_spec (row : list Q) :
  row ≠ [] → ∃ lo, argmin row = Ok lo ∧ first_min row lo.
Proof.
  destruct row as [|x rest]; [done|]. intros _. eexists. split; [done|].
  apply (arg_scan_min [x] rest x 0); [done | |].
  - intros j y Hy. apply list_lookup_singleton_Some in Hy as [_ <-].
    apply Qle_refl.
  - intros; lia.
Qed.

Lemma argmax_spec (row : list Q) :
  row ≠ [] → ∃ hi, argmax row = Ok hi ∧ first_max row hi.
Proof.
  destruct row as [|x rest]; [done|]. intros _. eexists. split; [done|].
  apply (arg_scan_max [x] rest x 0); [done | |].
  - intros j y Hy. apply list_lookup_singleton_Some in Hy as [_ <-].
    apply Qle_refl.
  - intros; lia.
Qed.

Lemma first_min_lt row lo : first_min row lo → (lo < length row)%nat.
Proof. intros (v & Hv & _). by eapply lookup_lt_Some. Qed.

Lemma first_max_lt row hi : first_max row hi → (hi < length row)%nat.
Proof. intros (v & Hv & _). by eapply lookup_lt_Some. Qed.

(** Two writes into a blank list of backgrounds; the second wins. *)
Lemma two_backgrounds (n a b : nat) (ca cb : string) :
  (a < n)%nat → (b < n)%nat →
  let out := <[b := cb]> (<[a := ca]> (replicate n "")) in
  length out = n
  ∧ out !! b = Some cb
  ∧ (a ≠ b → out !! a = Some ca)
  ∧ ∀ j, j ≠ a → j ≠ b → (j < n)%nat → out !! j = Some "".
Proof.
  intros Ha Hb out. unfold out.
  split; [by rewrite !length_insert, length_replicate|].
  split; [apply list_lookup_insert_eq;
          by rewrite length_insert, length_replicate|].
  split.
  - intros Hne. rewrite list_lookup_insert_ne by done.
    apply list_lookup_insert_eq. by rewrite length_replicate.
  - intros j Hja Hjb Hj. rewrite !list_lookup_insert_ne by done.
    by apply lookup_replicate_2.
Qed.

(** X11. [highlight_max_and_min_cols] raises a [ValueError] on a column
    without cells, and on any other column returns one background per
    cell. *)
Theorem X11_highlight_length (name : string) (row : list Q) :
  (row = [] → ∃ msg, highlight_max_and_min_cols name row = Raise (ValueError msg))
  ∧ (row ≠ [] → ∃ backgrounds,
       highlight_max_and_min_cols name row = Ok backgrounds
       ∧ length backgrounds = length row).
Proof.
  split.
  - intros ->. unfold highlight_max_and_min_cols.
    destruct (String.eqb name "TO"); by eexists.
  - intros Hne.
    destruct (argmin_spec row Hne) as (lo & Hlo & _).
    destruct (argmax_spec row Hne) as (hi & Hhi & _).
    unfold highlight_max_and_min_cols. rewrite Hlo, Hhi.
    destruct (String.eqb name "TO"); simpl; eexists; (split; [done|]);
      by rewrite !length_insert, length_replicate.
Qed.

Lemma X11_highlight_length_witness :
  (∃ msg, highlight_max_and_min_cols "PTS" [] = Raise (ValueError msg))
  ∧ ∃ backgrounds,
      highlight_max_and_min_cols "PTS" [3; 1; 4; 1; 5; 5]%Q = Ok backgrounds
      ∧ length backgrounds = 6%nat.
Proof.
  split.
  - by apply (X11_highlight_length "PTS" []).
  - by apply (X11_highlight_length "PTS" [3; 1; 4; 1; 5; 5]%Q).
Defined.

(** X12. In a column other than ['TO'] the first largest cell is painted
    green, the first smallest cell red unless it is that same cell, and no
    other cell is painted; in the column ['TO'] the first largest cell is
    red and the first smallest green unless it is that same cell. *)
Theorem X12_highlight_cells (name : string) (row : list Q) :
  row ≠ [] →
  ∃ backgrounds lo hi,
    highlight_max_and_min_cols name row = Ok backgrounds
    ∧ first_min row lo ∧ first_max row hi
    ∧ backgrounds !! hi = Some (if String.eqb name "TO" then red else green)
    ∧ (lo ≠ hi →
       backgrounds !! lo = Some (if String.eqb name "TO" then green else red))
    ∧ ∀ j, j ≠ lo → j ≠ hi → (j < length row)%nat →
           backgrounds !! j = Some "".
Proof.
  intros Hne.
  destruct (argmin_spec row Hne) as (lo & Hlo & Hmin).
  destruct (argmax_spec row Hne) as (hi & Hhi & Hmax).
  pose proof (first_min_lt _ _ Hmin) as Hlolt.
  pose proof (first_max_lt _ _ Hmax) as Hhilt.
  unfold highlight_max_and_min_cols. rewrite Hlo, Hhi.
  destruct (String.eqb name "TO"); simpl.
  - destruct (two_backgrounds (length row) lo hi green red Hlolt Hhilt)
      as (_ & H1 & H2 & H3).
    by exists (<[hi := red]> (<[lo := green]> (replicate (length row) ""))),
      lo, hi.
  - destruct (two_backgrounds (length row) lo hi red green Hlolt Hhilt)
      as (_ & H1 & H2 & H3).
    by exists (<[hi := green]> (<[lo := red]> (replicate (length row) ""))),
      lo, hi.
Qed.

Lemma X12_highlight_cells_witness :
  ∃ backgrounds,
    highlight_max_and_min_cols "TO" [3; 1; 4; 1; 5; 5]%Q = Ok backgrounds
    ∧ backgrounds !! 4%nat = Some red ∧ backgrounds !! 1%nat = Some green.
Proof.
  destruct (X12_highlight_cells "TO" [3; 1; 4; 1; 5; 5]%Q)
    as (backgrounds & lo & hi & Hrun & _); [discriminate|].
  exists backgrounds. split; [done|]. injection Hrun as <-. split; reflexivity.
Defined.

(** X13. When all cells of a column are equal only its first cell is
    painted: green in a column other than ['TO'], with no red cell, and
    red in the column ['TO'], with no green cell. *)
Theorem X13_highlight_flat_column (name : string) (row : list Q) :
  row ≠ [] →
  (∀ x y, x ∈ row → y ∈ row → (x == y)%Q) →
  highlight_max_and_min_cols name row
  = Ok (<[0%nat := if String.eqb name "TO" then red else green]>
          (replicate (length row) "")).
Proof.
  intros Hne Hflat.
  destruct (argmin_spec row Hne) as (lo & Hlo & (v & Hv & _ & Hfirst)).
  destruct (argmax_spec row Hne) as (hi & Hhi & (w & Hw & _ & Hfirst')).
  assert (∃ x, row !! 0%nat = Some x) as [x Hx] by (destruct row; by eauto).
  assert (lo = 0%nat) as ->.
  { destruct lo; [done|]. exfalso.
    apply (Qlt_irrefl v). rewrite (Hflat v x) at 2.
    - apply (Hfirst 0%nat); [lia | done].
    - by eapply list_elem_of_lookup_2.
    - by eapply list_elem_of_lookup_2. }
  assert (hi = 0%nat) as ->.
  { destruct hi; [done|]. exfalso.
    apply (Qlt_irrefl w). rewrite (Hflat w x) at 1.
    - apply (Hfirst' 0%nat); [lia | done].
    - by eapply list_elem_of_lookup_2.
    - by eapply list_elem_of_lookup_2. }
  unfold highlight_max_and_min_cols. rewrite Hlo, Hhi.
  destruct (String.eqb name "TO"); simpl; by rewrite list_insert_insert_eq.
Qed.

Lemma X13_highlight_flat_column_witness :
  highlight_max_and_min_cols "TO" [2; 4 # 2; 2]%Q = Ok [red; ""; ""].
Proof.
  rewrite (X13_highlight_flat_column "TO" [2; 4 # 2; 2]%Q); [done | done |].
  intros x y Hx Hy.
  repeat (apply elem_of_cons in Hx as [->|Hx]);
    repeat (apply elem_of_cons in Hy as [->|Hy]);
    try reflexivity; try (inversion Hx); inversion Hy.
Defined.

(** ** refresh_oauth_file *)

Lemma refresh_oauth_file_format
    (load : Format → string → result (gmap string string))
    (oauthFile : string) (fmt : Format) :
  format_of oauthFile fmt →
  refresh_oauth_file load oauthFile true
  = (oauthKeys ← load fmt oauthFile;
     rw ← rewrite_keys oauthFile fmt oauthKeys; Ok (Some rw)).
Proof.
  unfold refresh_oauth_file. by intros [[-> ->]|[-> ->]].
Qed.

(** X14. A refresh of a json or yaml credential file that holds both keys
    writes back, to the same path and in the same format, a dict with
    [consumer_key] and [consumer_secret] as they were read and nothing
    else: every other entry of the file (tokens, expiry) is dropped. *)
Theorem X14_refresh_keeps_two_keys
    (load : Format → string → result (gmap string string))
    (oauthFile : string) (fmt : Format) (oauthKeys : gmap string string)
    (key secret : string) :
  format_of oauthFile fmt →
  load fmt oauthFile = Ok oauthKeys →
  oauthKeys !! "consumer_key" = Some key →
  oauthKeys !! "consumer_secret" = Some secret →
  ∃ rw, refresh_oauth_file load oauthFile true = Ok (Some rw)
    ∧ rw_path rw = oauthFile ∧ rw_format rw = fmt
    ∧ rw_keys rw !! "consumer_key" = Some key
    ∧ rw_keys rw !! "consumer_secret" = Some secret
    ∧ ∀ other, other ≠ "consumer_key" → other ≠ "consumer_secret" →
               rw_keys rw !! other = None.
Proof.
  intros Hfmt Hload Hkey Hsecret.
  rewrite (refresh_oauth_file_format load oauthFile fmt Hfmt), Hload. simpl.
  unfold rewrite_keys, dict_get. rewrite Hkey, Hsecret. simpl.
  eexists. split; [done|]. simpl. split; [done|]. split; [done|].
  split; [by rewrite lookup_insert_ne, lookup_insert_eq by done|].
  split; [by rewrite lookup_insert_eq|].
  intros other Hk Hs. by rewrite !lookup_insert_ne, lookup_empty by done.
Qed.

Lemma X14_refresh_keeps_two_keys_witness :
  ∃ rw, refresh_oauth_file sample_load "yahoo_oauth.json" true = Ok (Some rw)
    ∧ rw_keys rw !! "access_token" = None.
Proof.
  destruct (X14_refresh_keeps_two_keys sample_load "yahoo_oauth.json" Json
              _ "k" "s" (or_introl (conj eq_refl eq_refl)) eq_refl
              eq_refl eq_refl) as (rw & Hrun & _ & _ & _ & _ & Hother).
  exists rw. split; [done|]. by apply Hother.
Defined.

(** X15. A refresh of a json or yaml credential file passes on the error
    of reading or parsing the file, raises [KeyError('consumer_key')] when
    the file has no consumer key, and [KeyError('consumer_secret')] when
    it has the key but no secret; in none of these cases is anything
    written back. *)
Theorem X15_refresh_errors
    (load : Format → string → result (gmap string string))
    (oauthFile : string) (fmt : Format) :
  format_of oauthFile fmt →
  (∀ e, load fmt oauthFile = Raise e →
        refresh_oauth_file load oauthFile true = Raise e)
  ∧ (∀ oauthKeys, load fmt oauthFile = Ok oauthKeys →
       oauthKeys !! "consumer_key" = None →
       refresh_oauth_file load oauthFile true
       = Raise (KeyError "consumer_key"))
  ∧ (∀ oauthKeys, load fmt oauthFile = Ok oauthKeys →
       is_Some (oauthKeys !! "consumer_key") →
       oauthKeys !! "consumer_secret" = None →
       refresh_oauth_file load oauthFile true
       = Raise (KeyError "consumer_secret")).
Proof.
  intros Hfmt. rewrite (refresh_oauth_file_format load oauthFile fmt Hfmt).
  split; [|split].
  - by intros e ->.
  - intros oauthKeys -> Hnone. simpl. unfold rewrite_keys, dict_get.
    by rewrite Hnone.
  - intros oauthKeys -> [key Hkey] Hnone. simpl. unfold rewrite_keys, dict_get.
    by rewrite Hkey, Hnone.
Qed.

Lemma X15_refresh_errors_witness :
  refresh_oauth_file sample_load_yaml "keys.yaml" true
  = Raise (KeyError "consumer_secret")
  ∧ refresh_oauth_file sample_load_yaml "other.yaml" true
    = Raise (OSError "other.yaml").
Proof.
  split.
  - eapply (proj2 (proj2 (X15_refresh_errors sample_load_yaml "keys.yaml" Yaml
                            (or_intror (conj eq_refl eq_refl))))).
    + reflexivity.
    + by eexists.
    + reflexivity.
  - by apply (proj1 (X15_refresh_errors sample_load_yaml "other.yaml" Yaml
                       (or_intror (conj eq_refl eq_refl)))).
Defined.

(** ** The main script: improved and worsened categories *)

Lemma sign_trichotomy (x : Q) :
  (float_gt x 0 = true ∧ float_lt x 0 = false ∧ float_eq x 0 = false)
  ∨ (float_gt x 0 = false ∧ float_lt x 0 = true ∧ float_eq x 0 = false)
  ∨ (float_gt x 0 = false ∧ float_lt x 0 = false ∧ float_eq x 0 = true).
Proof.
  destruct (float_gt x 0) eqn:Hgt, (float_lt x 0) eqn:Hlt,
           (float_eq x 0) eqn:Heq; auto; exfalso.
  - apply float_gt_spec in Hgt. apply float_lt_spec in Hlt.
    apply (Qlt_irrefl 0). by eapply Qlt_trans.
  - apply float_gt_spec in Hgt. apply float_lt_spec in Hlt.
    apply (Qlt_irrefl 0). by eapply Qlt_trans.
  - apply float_gt_spec in Hgt. apply float_eq_spec in Heq.
    rewrite Heq in Hgt. by apply (Qlt_irrefl 0).
  - apply float_lt_spec in Hlt. apply float_eq_spec in Heq.
    rewrite Heq in Hlt. by apply (Qlt_irrefl 0).
  - apply float_lt_false in Hgt. apply float_lt_false in Hlt.
    apply not_true_iff_false in Heq. apply Heq, float_eq_spec.
    by apply Qle_antisym.
Qed.

Lemma sign_count (xs : list Q) :
  count_positive xs + count_negative xs + Z.of_nat (count_eq 0 xs)
  = Z.of_nat (length xs).
Proof.
  unfold count_positive, count_negative, count_eq.
  induction xs as [|x xs IH]; [done|]. cbn [List.filter].
  destruct (sign_trichotomy x) as [(-> & -> & ->)|[(-> & -> & ->)|(-> & -> & ->)]];
    cbn [length]; lia.
Qed.

(** X16. For the stored differences of a team, [improvement] and
    [worsened] of lines 616-617 count different categories: with the
    number of categories whose difference is zero they add up to the number
    of counting categories.  Without any counting category the lines raise
    an [IndexError]. *)
Theorem X16_improved_worsened (addedPlayerStats : list Q) :
  (addedPlayerStats = [] → improved_worsened addedPlayerStats = Raise IndexError)
  ∧ (addedPlayerStats ≠ [] →
     ∃ improvement worsened,
       improved_worsened addedPlayerStats = Ok (improvement, worsened)
       ∧ 0 ≤ improvement ∧ 0 ≤ worsened
       ∧ improvement + worsened + Z.of_nat (count_eq 0 addedPlayerStats)
         = Z.of_nat (length addedPlayerStats)).
Proof.
  split; [by intros ->|]. intros Hne.
  destruct (exists_last Hne) as (nonTOs & to & ->).
  unfold improved_worsened. rewrite last_snoc, removelast_last.
  eexists _, _. split; [done|].
  pose proof (sign_count nonTOs) as Hn.
  rewrite count_eq_app, length_app, !Nat2Z.inj_add.
  unfold count_positive, count_negative, count_eq in *. cbn [List.filter length].
  destruct (sign_trichotomy to) as [(-> & -> & ->)|[(-> & -> & ->)|(-> & -> & ->)]];
    cbn [length]; lia.
Qed.

Lemma X16_improved_worsened_witness :
  improved_worsened [3; -2; 0; 5]%Q = Ok (1, 2)
  ∧ improved_worsened [] = Raise IndexError.
Proof.
  split.
  - destruct (proj2 (X16_improved_worsened [3; -2; 0; 5]%Q))
      as (i & w & Hrun & _); [discriminate|].
    rewrite Hrun. by injection Hrun as <- <-.
  - by apply (proj1 (X16_improved_worsened [])).
Defined.

(** ** The main script: the boost of the added players and its colours *)

Lemma item_Ok {A : Type} (xs : list A) (c : nat) (x : A) :
  xs !! c = Some x → item xs c = Ok x.
Proof. unfold item. by intros ->. Qed.

Lemma is_last_true (c n : nat) :
  (Z.of_nat c =? Z.of_nat n - 1) = true ↔ S c = n.
Proof. rewrite Z.eqb_eq. lia. Qed.

Lemma is_last_false (c n : nat) :
  (Z.of_nat c =? Z.of_nat n - 1) = false ↔ S c ≠ n.
Proof. rewrite Z.eqb_neq. lia. Qed.

Lemma boost_spec (float_sub : Q → Q → Q)
    (addedPlayerStats weekTotalsDifference : list Q) :
  (length addedPlayerStats ≤ length weekTotalsDifference)%nat →
  ∃ playerBoost,
    player_boost float_sub addedPlayerStats weekTotalsDifference = Ok playerBoost
    ∧ length playerBoost = length addedPlayerStats
    ∧ ∀ c a d, addedPlayerStats !! c = Some a →
        weekTotalsDifference !! c = Some d →
        (S c ≠ length addedPlayerStats →
           ((d < 0)%Q → playerBoost !! c = Some Dash)
           ∧ (¬ (d < 0)%Q → playerBoost !! c = Some (Num (float_sub a d))))
        ∧ (S c = length addedPlayerStats →
           ((a < d)%Q → playerBoost !! c = Some Dash)
           ∧ (¬ (a < d)%Q → playerBoost !! c = Some (Num (float_sub a d)))).
Proof.
  intros Hlen. unfold player_boost.
  destruct (for_each_range_inv
    (fun k (pb : list (Cell Q)) =>
       length pb = k
       ∧ ∀ c a d, (c < k)%nat → addedPlayerStats !! c = Some a →
           weekTotalsDifference !! c = Some d →
           (S c ≠ length addedPlayerStats →
              ((d < 0)%Q → pb !! c = Some Dash)
              ∧ (¬ (d < 0)%Q → pb !! c = Some (Num (float_sub a d))))
           ∧ (S c = length addedPlayerStats →
              ((a < d)%Q → pb !! c = Some Dash)
              ∧ (¬ (a < d)%Q → pb !! c = Some (Num (float_sub a d)))))
    (length addedPlayerStats)
    (boost_body float_sub addedPlayerStats weekTotalsDifference) [])
    as (pb & Hrun & Hpl & Hspec).
  - split; [done|]. intros; lia.
  - intros k pb Hk [Hpl Hspec].
    destruct (lookup_lt_is_Some_2 addedPlayerStats k Hk) as [a Ha].
    destruct (lookup_lt_is_Some_2 weekTotalsDifference k) as [d Hd]; [lia|].
    assert (∀ cell, ∃ pb', pb' = (pb ++ [cell])%list ∧ length pb' = S k
              ∧ pb' !! k = Some cell
              ∧ ∀ c, (c < k)%nat → pb' !! c = pb !! c) as Hpush.
    { intros cell. eexists. split; [done|].
      split; [rewrite length_app; simpl; lia|].
      split; [by rewrite lookup_app_r, Hpl, Nat.sub_diag by lia|].
      intros c Hc. by rewrite lookup_app_l by lia. }
    assert (∀ cell,
      (S k ≠ length addedPlayerStats →
         ((d < 0)%Q → cell = Dash) ∧ (¬ (d < 0)%Q → cell = Num (float_sub a d))) →
      (S k = length addedPlayerStats →
         ((a < d)%Q → cell = Dash) ∧ (¬ (a < d)%Q → cell = Num (float_sub a d))) →
      ∃ s', Ok (pb ++ [cell])%list = Ok s' ∧ length s' = S k
        ∧ ∀ c a0 d0, (c < S k)%nat → addedPlayerStats !! c = Some a0 →
            weekTotalsDifference !! c = Some d0 →
            (S c ≠ length addedPlayerStats →
               ((d0 < 0)%Q → s' !! c = Some Dash)
               ∧ (¬ (d0 < 0)%Q → s' !! c = Some (Num (float_sub a0 d0))))
            ∧ (S c = length addedPlayerStats →
               ((a0 < d0)%Q → s' !! c = Some Dash)
               ∧ (¬ (a0 < d0)%Q → s' !! c = Some (Num (float_sub a0 d0)))))
      as Hstep.
    { intros cell Hmid Hend.
      destruct (Hpush cell) as (pb' & -> & Hl' & Hat & Hold).
      eexists. split; [done|]. split; [done|].
      intros c a0 d0 Hc Ha0 Hd0.
      destruct (decide (c = k)) as [->|Hne].
      - rewrite Ha in Ha0. rewrite Hd in Hd0.
        injection Ha0 as <-. injection Hd0 as <-. rewrite Hat.
        split; intros Hpos; [destruct (Hmid Hpos) | destruct (Hend Hpos)];
          split; intros Hcmp; f_equal; auto.
      - rewrite Hold by lia. apply Hspec; [lia | done | done]. }
    unfold boost_body.
    destruct (Z.of_nat k =? Z.of_nat (length addedPlayerStats) - 1) eqn:Hlast.
    + apply is_last_true in Hlast.
      rewrite (item_Ok _ _ _ Hd), (item_Ok _ _ _ Ha). simpl.
      destruct (float_gt d a) eqn:Hgt.
      * apply float_gt_spec in Hgt. apply Hstep; [lia|]. by intros _.
      * apply float_lt_false in Hgt. apply Hstep; [lia|]. intros _.
        split; [|done]. intros Hlt. exfalso. by apply (Qlt_not_le _ _ Hlt).
    + apply is_last_false in Hlast.
      rewrite (item_Ok _ _ _ Hd). simpl.
      destruct (float_lt d 0) eqn:Hlt.
      * apply float_lt_spec in Hlt. apply Hstep; [|lia]. by intros _.
      * rewrite (item_Ok _ _ _ Ha). simpl.
        apply float_lt_false in Hlt. apply Hstep; [|lia]. intros _.
        split; [|done]. intros Hneg. exfalso. by apply (Qlt_not_le _ _ Hneg).
  - exists pb. split; [done|]. split; [done|].
    intros c a d Ha Hd. apply Hspec; [by eapply lookup_lt_Some | done | done].
Qed.

(** X17. When the week's differences cover every counting category,
    [playerBoost] gets one entry per category.  In a category other than
    the last the entry is ['-'] exactly when the week's difference is
    negative; in the last category (turnovers) it is ['-'] exactly when the
    difference is above the added players' total; every other entry is the
    float that the subtraction of the difference from the added total
    gives, whatever its rounding. *)
Theorem X17_player_boost (float_sub : Q → Q → Q)
    (addedPlayerStats weekTotalsDifference : list Q) :
  (length addedPlayerStats ≤ length weekTotalsDifference)%nat →
  ∃ playerBoost,
    player_boost float_sub addedPlayerStats weekTotalsDifference = Ok playerBoost
    ∧ length playerBoost = length addedPlayerStats
    ∧ ∀ c a d, addedPlayerStats !! c = Some a →
        weekTotalsDifference !! c = Some d →
        (S c ≠ length addedPlayerStats →
           ((d < 0)%Q → playerBoost !! c = Some Dash)
           ∧ (¬ (d < 0)%Q → playerBoost !! c = Some (Num (float_sub a d))))
        ∧ (S c = length addedPlayerStats →
           ((a < d)%Q → playerBoost !! c = Some Dash)
           ∧ (¬ (a < d)%Q → playerBoost !! c = Some (Num (float_sub a d)))).
Proof. apply boost_spec. Qed.

Lemma X17_player_boost_witness :
  player_boost Qminus [3; -2; 5]%Q [1; -4; 7]%Q = Ok [Num 2%Q; Dash; Dash].
Proof.
  destruct (X17_player_boost Qminus [3; -2; 5]%Q [1; -4; 7]%Q)
    as (pb & Hrun & _); [simpl; lia|].
  rewrite Hrun. by injection Hrun as <-.
Defined.

Lemma highlight_loop (addedPlayerStats weekTotalsDifference : list Q) (n : nat) :
  (n ≤ length addedPlayerStats)%nat →
  (n ≤ length weekTotalsDifference)%nat →
  ∃ out,
    for_each (range n)
      (highlight_body addedPlayerStats weekTotalsDifference) [""] = Ok out
    ∧ length out = S n
    ∧ out !! 0%nat = Some ""
    ∧ ∀ c a d, (c < n)%nat → addedPlayerStats !! c = Some a →
        weekTotalsDifference !! c = Some d →
        (S c ≠ length addedPlayerStats →
           ((d < 0)%Q → out !! S c = Some red)
           ∧ (¬ (d < 0)%Q → (a < d)%Q → out !! S c = Some yellow)
           ∧ (¬ (d < 0)%Q → ¬ (a < d)%Q → out !! S c = Some green))
        ∧ (S c = length addedPlayerStats →
           ((d < 0)%Q → out !! S c = Some green)
           ∧ (¬ (d < 0)%Q → (a < d)%Q → out !! S c = Some yellow)
           ∧ (¬ (d < 0)%Q → ¬ (a < d)%Q → out !! S c = Some red)).
Proof.
  intros Hla Hld.
  destruct (for_each_range_inv
    (fun k (out : list string) =>
       length out = S k ∧ out !! 0%nat = Some ""
       ∧ ∀ c a d, (c < k)%nat → addedPlayerStats !! c = Some a →
           weekTotalsDifference !! c = Some d →
           (S c ≠ length addedPlayerStats →
              ((d < 0)%Q → out !! S c = Some red)
              ∧ (¬ (d < 0)%Q → (a < d)%Q → out !! S c = Some yellow)
              ∧ (¬ (d < 0)%Q → ¬ (a < d)%Q → out !! S c = Some green))
           ∧ (S c = length addedPlayerStats →
              ((d < 0)%Q → out !! S c = Some green)
              ∧ (¬ (d < 0)%Q → (a < d)%Q → out !! S c = Some yellow)
              ∧ (¬ (d < 0)%Q → ¬ (a < d)%Q → out !! S c = Some red)))
    n (highlight_body addedPlayerStats weekTotalsDifference) [""])
    as (out & Hrun & Hol & H0 & Hspec).
  - split; [done|]. split; [done|]. intros; lia.
  - intros k out Hk (Hol & H0 & Hspec).
    destruct (lookup_lt_is_Some_2 addedPlayerStats k) as [a Ha]; [lia|].
    destruct (lookup_lt_is_Some_2 weekTotalsDifference k) as [d Hd]; [lia|].
    assert (∀ colour,
      (S k ≠ length addedPlayerStats →
         ((d < 0)%Q → colour = red)
         ∧ (¬ (d < 0)%Q → (a < d)%Q → colour = yellow)
         ∧ (¬ (d < 0)%Q → ¬ (a < d)%Q → colour = green)) →
      (S k = length addedPlayerStats →
         ((d < 0)%Q → colour = green)
         ∧ (¬ (d < 0)%Q → (a < d)%Q → colour = yellow)
         ∧ (¬ (d < 0)%Q → ¬ (a < d)%Q → colour = red)) →
      ∃ s', Ok (out ++ [colour])%list = Ok s' ∧ length s' = S (S k)
        ∧ s' !! 0%nat = Some ""
        ∧ ∀ c a0 d0, (c < S k)%nat → addedPlayerStats !! c = Some a0 →
            weekTotalsDifference !! c = Some d0 →
            (S c ≠ length addedPlayerStats →
               ((d0 < 0)%Q → s' !! S c = Some red)
               ∧ (¬ (d0 < 0)%Q → (a0 < d0)%Q → s' !! S c = Some yellow)
               ∧ (¬ (d0 < 0)%Q → ¬ (a0 < d0)%Q → s' !! S c = Some green))
            ∧ (S c = length addedPlayerStats →
               ((d0 < 0)%Q → s' !! S c = Some green)
               ∧ (¬ (d0 < 0)%Q → (a0 < d0)%Q → s' !! S c = Some yellow)
               ∧ (¬ (d0 < 0)%Q → ¬ (a0 < d0)%Q → s' !! S c = Some red)))
      as Hstep.
    { intros colour Hmid Hend. eexists. split; [done|].
      split; [rewrite length_app; simpl; lia|].
      split; [by rewrite lookup_app_l by lia|].
      intros c a0 d0 Hc Ha0 Hd0.
      destruct (decide (c = k)) as [->|Hne].
      - rewrite Ha in Ha0. rewrite Hd in Hd0.
        injection Ha0 as <-. injection Hd0 as <-.
        rewrite lookup_app_r, Hol, Nat.sub_diag by lia. simpl.
        split; intros Hpos;
          [destruct (Hmid Hpos) as (?&?&?) | destruct (Hend Hpos) as (?&?&?)];
          repeat split; intros; f_equal; auto.
      - rewrite lookup_app_l by lia. apply Hspec; [lia | done | done]. }
    unfold highlight_body.
    rewrite (item_Ok _ _ _ Hd). cbn [mbind result_bind].
    destruct (Z.of_nat k =? Z.of_nat (length addedPlayerStats) - 1) eqn:Hlast.
    + apply is_last_true in Hlast.
      destruct (float_lt d 0) eqn:Hlt.
      * apply float_lt_spec in Hlt. apply Hstep; [lia|]. intros _.
        repeat split; (done || (intros; by exfalso)).
      * apply float_lt_false in Hlt. rewrite (item_Ok _ _ _ Ha). simpl.
        destruct (float_gt d a) eqn:Hgt.
        -- apply float_gt_spec in Hgt. apply Hstep; [lia|]. intros _.
           repeat split; try done.
           intros Hneg. exfalso. by apply (Qlt_not_le _ _ Hneg).
        -- apply float_lt_false in Hgt. apply Hstep; [lia|]. intros _.
           repeat split; try done.
           ++ intros Hneg. exfalso. by apply (Qlt_not_le _ _ Hneg).
           ++ intros _ Hcmp. exfalso. by apply (Qlt_not_le _ _ Hcmp).
    + apply is_last_false in Hlast.
      destruct (float_lt d 0) eqn:Hlt.
      * apply float_lt_spec in Hlt. apply Hstep; [|lia]. intros _.
        repeat split; (done || (intros; by exfalso)).
      * apply float_lt_false in Hlt. rewrite (item_Ok _ _ _ Ha). simpl.
        destruct (float_gt d a) eqn:Hgt.
        -- apply float_gt_spec in Hgt. apply Hstep; [|lia]. intros _.
           repeat split; try done.
           intros Hneg. exfalso. by apply (Qlt_not_le _ _ Hneg).
        -- apply float_lt_false in Hgt. apply Hstep; [|lia]. intros _.
           repeat split; try done.
           ++ intros Hneg. exfalso. by apply (Qlt_not_le _ _ Hneg).
           ++ intros _ Hcmp. exfalso. by apply (Qlt_not_le _ _ Hcmp).
  - by exists out.
Qed.

(** X18. For a manager of the dict, [highlight_adds] returns a blank cell
    for the manager followed by one colour per counting category, and the
    colours agree with [playerBoost]: in a category other than the last the
    cell is red exactly when the boost is ['-']; in the last category
    (turnovers) a yellow cell has the boost ['-'] and a red cell has a
    number.  For a manager that is not in the dict it raises a
    [KeyError]. *)
Theorem X18_highlight_adds_agrees (float_sub : Q → Q → Q) (manager : string)
    (addedCountingStatsDict : gmap string (list Q * list Q)) :
  (addedCountingStatsDict !! manager = None →
   ∀ ncols, highlight_adds manager ncols addedCountingStatsDict
            = Raise (KeyError manager))
  ∧ ∀ addedPlayerStats weekTotalsDifference,
      addedCountingStatsDict !! manager
      = Some (addedPlayerStats, weekTotalsDifference) →
      (length addedPlayerStats ≤ length weekTotalsDifference)%nat →
      ∃ colours playerBoost,
        highlight_adds manager (S (length addedPlayerStats))
          addedCountingStatsDict = Ok colours
        ∧ player_boost float_sub addedPlayerStats weekTotalsDifference = Ok playerBoost
        ∧ length colours = S (length playerBoost)
        ∧ colours !! 0%nat = Some ""
        ∧ ∀ c, (c < length addedPlayerStats)%nat →
            (S c ≠ length addedPlayerStats →
               (colours !! S c = Some red ↔ playerBoost !! c = Some Dash))
            ∧ (S c = length addedPlayerStats →
               (colours !! S c = Some yellow → playerBoost !! c = Some Dash)
               ∧ (colours !! S c = Some red →
                  ∃ v, playerBoost !! c = Some (Num v))).
Proof.
  split.
  { intros Hnone ncols. unfold highlight_adds. by rewrite Hnone. }
  intros added diff Hdict Hlen.
  destruct (highlight_loop added diff (length added) (le_n _) Hlen)
    as (out & Hrun & Hol & H0 & Hcol).
  destruct (boost_spec float_sub added diff Hlen) as (pb & Hpb & Hpl & Hboost).
  exists out, pb. split.
  { unfold highlight_adds. rewrite Hdict. simpl. by rewrite Nat.sub_0_r. }
  split; [done|]. split; [by rewrite Hpl|]. split; [done|].
  intros c Hc.
  destruct (lookup_lt_is_Some_2 added c Hc) as [a Ha].
  destruct (lookup_lt_is_Some_2 diff c) as [d Hd]; [lia|].
  destruct (Hcol c a d Hc Ha Hd) as [Hmid Hend].
  destruct (Hboost c a d Ha Hd) as [Bmid Bend].
  split; intros Hpos.
  - destruct (Hmid Hpos) as (Hr & Hy & Hg). destruct (Bmid Hpos) as [Bd Bn].
    destruct (Qlt_le_dec d 0) as [Hneg|Hnn].
    + rewrite (Hr Hneg), (Bd Hneg). done.
    + apply Qle_not_lt in Hnn. rewrite (Bn Hnn).
      destruct (Qlt_le_dec a d) as [Hlt|Hge].
      * rewrite (Hy Hnn Hlt). split; discriminate.
      * apply Qle_not_lt in Hge. rewrite (Hg Hnn Hge). split; discriminate.
  - destruct (Hend Hpos) as (Hg & Hy & Hr). destruct (Bend Hpos) as [Bd Bn].
    destruct (Qlt_le_dec a d) as [Hlt|Hge].
    + rewrite (Bd Hlt). split; [done|].
      destruct (Qlt_le_dec d 0) as [Hneg|Hnn].
      * rewrite (Hg Hneg). discriminate.
      * apply Qle_not_lt in Hnn. rewrite (Hy Hnn Hlt). discriminate.
    + apply Qle_not_lt in Hge. rewrite (Bn Hge). split; [|by eexists].
      destruct (Qlt_le_dec d 0) as [Hneg|Hnn].
      * rewrite (Hg Hneg). discriminate.
      * apply Qle_not_lt in Hnn. rewrite (Hr Hnn Hge). discriminate.
Qed.

Lemma X18_highlight_adds_agrees_witness :
  (∃ colours playerBoost,
     highlight_adds "ann" 4 (<["ann" := ([3; -2; 5]%Q, [1; -4; 7]%Q)]> ∅)
     = Ok colours
     ∧ player_boost Qminus [3; -2; 5]%Q [1; -4; 7]%Q = Ok playerBoost
     ∧ length colours = S (length playerBoost)
     ∧ colours !! 0%nat = Some "")
  ∧ highlight_adds "bob" 4 (<["ann" := ([3; -2; 5]%Q, [1; -4; 7]%Q)]> ∅)
    = Raise (KeyError "bob").
Proof.
  pose proof (X18_highlight_adds_agrees Qminus "ann"
                (<["ann" := ([3; -2; 5]%Q, [1; -4; 7]%Q)]> ∅)) as [_ Hann].
  pose proof (X18_highlight_adds_agrees Qminus "bob"
                (<["ann" := ([3; -2; 5]%Q, [1; -4; 7]%Q)]> ∅)) as [Hbob _].
  split.
  - destruct (Hann [3; -2; 5]%Q [1; -4; 7]%Q eq_refl)
      as (colours & pb & Hrun & Hpb & Hl & H0 & _); [simpl; lia|].
    exists colours, pb. repeat split; assumption.
  - apply Hbob. reflexivity.
Defined.

(** ** extract_matchup_scores *)

Lemma for_each_ext {A S : Type} (xs : list A) (f g : A → S → result S) s :
  (∀ x s, x ∈ xs → f x s = g x s) →
  for_each xs f s = for_each xs g s.
Proof.
  revert s. induction xs as [|x xs IH]; intros s Hfg; simpl; [done|].
  rewrite (Hfg x s); [|by left].
  destruct (g x s) as [s'|e]; simpl; [|done].
  apply IH. intros y t Hy. apply Hfg. by right.
Qed.

(** A loop over the positions of a list that reads the item at each
    position, unrolled at the last item. *)
Lemma for_each_items_snoc {A S : Type} (xs : list A) (x : A)
    (f : nat → A → S → result S) (s : S) :
  for_each (range (length (xs ++ [x])))
    (fun i s => y ← item (xs ++ [x]) i; f i y s) s
  = (s' ← for_each (range (length xs)) (fun i s => y ← item xs i; f i y s) s;
     f (length xs) x s').
Proof.
  rewrite length_app, Nat.add_1_r, range_S, for_each_app.
  rewrite (for_each_ext _ _ (fun i s => y ← item xs i; f i y s)).
  - destruct (for_each _ _ s) as [s'|e]; simpl; [|done].
    unfold item. rewrite list_lookup_middle; [|done]. simpl.
    by destruct (f (length xs) x s').
  - intros i t Hi. unfold range in Hi. apply elem_of_seq in Hi.
    unfold item. rewrite lookup_app_l; [done|lia].
Qed.

Section ExtractProps.

Variable float : string → result Q.

Lemma labeled_stats_runs statCats teamStats labeledStats :
  (∀ v, v ∈ take (length statCats) teamStats → ∃ q, float v = Ok q)
  ↔ ∃ out, labeled_stats float statCats teamStats labeledStats = Ok out.
Proof.
  revert teamStats labeledStats.
  induction statCats as [|c cats IH]; intros [|v vals] acc; simpl.
  - split; [eauto | intros _ v Hv; inversion Hv].
  - split; [eauto | intros _ w Hw; inversion Hw].
  - split; [eauto | intros _ v Hv; inversion Hv].
  - split.
    + intros H. destruct (H v) as [q Hq]; [by left|]. rewrite Hq. simpl.
      apply IH. intros w Hw. apply H. by right.
    + intros [out H]. destruct (float v) as [q|e] eqn:Hq; simpl in H; [|done].
      intros w [->|Hw]%elem_of_cons; [eauto|].
      eapply IH; [by exists out | done].
Qed.

Lemma labeled_stats_lookup statCats teamStats labeledStats out :
  labeled_stats float statCats teamStats labeledStats = Ok out →
  (∀ k c v, statCats !! k = Some c → teamStats !! k = Some v →
     c ∉ drop (S k) statCats → ∃ q, float v = Ok q ∧ out !! c = Some q)
  ∧ (∀ c, c ∉ take (length teamStats) statCats → out !! c = labeledStats !! c)
  ∧ (∀ c, c ∈ take (length teamStats) statCats → is_Some (out !! c)).
Proof.
  revert teamStats labeledStats.
  induction statCats as [|c0 cats IH]; intros [|v0 vals] acc; simpl.
  - intros [= <-]. split; [intros k c v Hk; inversion Hk|]. split; [done|].
    intros c Hc. inversion Hc.
  - intros [= <-]. split; [intros k c v Hk; inversion Hk|]. split; [done|].
    intros c Hc. inversion Hc.
  - intros [= <-]. split; [intros k c v _ Hk; inversion Hk|]. split; [done|].
    intros c Hc. inversion Hc.
  - destruct (float v0) as [q0|e] eqn:Hq0; simpl; [|done]. intros Hrun.
    destruct (IH _ _ Hrun) as (Hval & Hout & Hsome).
    assert (∀ c, c ∉ take (length vals) cats → c = c0 → out !! c = Some q0)
      as Hhead.
    { intros c Hc ->. rewrite (Hout _ Hc). by rewrite lookup_insert_eq. }
    split; [|split].
    + intros [|k] c v Hc Hv Hlater; simpl in *.
      * injection Hc as ->. injection Hv as ->. exists q0. split; [done|].
        apply Hhead; [|done]. intros Hin. apply Hlater.
        apply elem_of_take in Hin as (i & Hi & _).
        by eapply list_elem_of_lookup_2.
      * by eapply Hval.
    + intros c Hc. apply not_elem_of_cons in Hc as [Hne Hc].
      rewrite (Hout _ Hc). by rewrite lookup_insert_ne.
    + intros c Hc. destruct (decide (c ∈ take (length vals) cats)) as [Hin|Hnin].
      * by apply Hsome.
      * apply elem_of_cons in Hc as [->|Hc]; [|done].
        rewrite (Hhead c0 Hnin eq_refl). by eexists.
Qed.

Lemma extract_team_Ok statCats m team row :
  extract_team float statCats m team = Ok row
  ↔ ∃ fg pct ft rest fgm fga ftm fta labeled,
      stat_values team = fg :: pct :: ft :: rest
      ∧ shots_parse float fg fgm fga
      ∧ shots_parse float ft ftm fta
      ∧ labeled_stats float statCats (pct :: rest) ∅ = Ok labeled
      ∧ row = {| manager := nickname team; teamName := team_name team;
                 matchupNumber := m;
                 stats := <["FTA" := fta]>
                            (<["FTM" := ftm]>
                               (<["FGA" := fga]> (<["FGM" := fgm]> labeled))) |}.
Proof.
  unfold extract_team, shots_parse. split.
  - intros H.
    destruct (stat_values team) as [|fg [|pct [|ft rest]]] eqn:Hsv;
      try (simpl in H; discriminate H).
    unfold item in H. cbn [lookup list_lookup mbind result_bind] in H.
    change (drop 3 (fg :: pct :: ft :: rest)) with rest in H.
    destruct (labeled_stats float statCats (pct :: rest) ∅) as [labeled|e]
      eqn:Hl; cbn [mbind result_bind] in H; [|discriminate H].
    destruct (split "/" fg) as [|m1 [|a1 more1]] eqn:Hfg;
      cbn [lookup list_lookup mbind result_bind] in H; [discriminate H| |].
    { destruct (float m1); discriminate H. }
    destruct (float m1) as [fgm|] eqn:Hm1;
      cbn [mbind result_bind] in H; [|discriminate H].
    destruct (float a1) as [fga|] eqn:Ha1;
      cbn [mbind result_bind] in H; [|discriminate H].
    destruct (split "/" ft) as [|m2 [|a2 more2]] eqn:Hft;
      cbn [lookup list_lookup mbind result_bind] in H; [discriminate H| |].
    { destruct (float m2); discriminate H. }
    destruct (float m2) as [ftm|] eqn:Hm2;
      cbn [mbind result_bind] in H; [|discriminate H].
    destruct (float a2) as [fta|] eqn:Ha2;
      cbn [mbind result_bind] in H; [|discriminate H].
    injection H as <-.
    exists fg, pct, ft, rest, fgm, fga, ftm, fta, labeled.
    split; [done|]. split; [by exists m1, a1, more1|].
    split; [by exists m2, a2, more2|]. done.
  - intros (fg & pct & ft & rest & fgm & fga & ftm & fta & labeled & Hsv
            & (m1 & a1 & more1 & Hfg & Hm1 & Ha1)
            & (m2 & a2 & more2 & Hft & Hm2 & Ha2) & Hl & ->).
    rewrite Hsv. unfold item.
    cbn [lookup list_lookup mbind result_bind].
    change (drop 3 (fg :: pct :: ft :: rest)) with rest.
    rewrite Hl, Hfg, Hft.
    cbn [lookup list_lookup mbind result_bind].
    rewrite Hm1. cbn [mbind result_bind]. rewrite Ha1. cbn [mbind result_bind].
    rewrite Hm2. cbn [mbind result_bind]. rewrite Ha2. done.
Qed.

Lemma extract_team_runs statCats m team :
  team_parses float statCats team
  ↔ ∃ row, extract_team float statCats m team = Ok row.
Proof.
  split.
  - intros (fg & pct & ft & rest & fgm & fga & ftm & fta & Hsv & Hfg & Hft & Hall).
    apply (labeled_stats_runs statCats (pct :: rest) ∅) in Hall as [labeled Hl].
    eexists. apply extract_team_Ok.
    by exists fg, pct, ft, rest, fgm, fga, ftm, fta, labeled.
  - intros [row (fg & pct & ft & rest & fgm & fga & ftm & fta & labeled & Hsv
                 & Hfg & Hft & Hl & _)%extract_team_Ok].
    exists fg, pct, ft, rest, fgm, fga, ftm, fta.
    split; [done|]. split; [done|]. split; [done|].
    apply (labeled_stats_runs statCats (pct :: rest) ∅). by exists labeled.
Qed.

(** The loop over the teams of one matchup appends one row per team. *)
Lemma extract_teams_spec statCats m (curMatchup : list TeamEntry) matchupStats out :
  for_each (range (length curMatchup))
    (fun team rows =>
       entry ← item curMatchup team;
       row ← extract_team float statCats m entry;
       Ok (rows ++ [row])%list) matchupStats = Ok out
  ↔ ∃ rows, out = (matchupStats ++ rows)%list
            ∧ Forall2 (fun team row => extract_team float statCats m team = Ok row)
                curMatchup rows.
Proof.
  revert out. induction curMatchup as [|team teams IH] using rev_ind; intros out.
  - simpl. split.
    + intros [= <-]. exists []. by rewrite app_nil_r.
    + intros (rows & -> & Hall). apply Forall2_nil_inv_l in Hall as ->.
      by rewrite app_nil_r.
  - rewrite (for_each_items_snoc teams team
               (fun _ entry rows =>
                  row ← extract_team float statCats m entry;
                  Ok (rows ++ [row])%list)).
    rewrite bind_Ok. split.
    + intros (mid & (rows & -> & Hall)%IH & Hlast).
      destruct (extract_team float statCats m team) as [row|e] eqn:Hrow;
        simpl in Hlast; [|done].
      injection Hlast as <-. exists (rows ++ [row])%list.
      split; [by rewrite app_assoc|].
      apply Forall2_app; [done|]. by constructor.
    + intros (rows' & -> & Hall).
      apply Forall2_app_inv_l in Hall as (rows & last & Hall & Hlast & ->).
      apply Forall2_cons_inv_l in Hlast as (row & nil & Hrow & Hnil & ->).
      apply Forall2_nil_inv_l in Hnil as ->.
      exists (matchupStats ++ rows)%list. split.
      * apply IH. by exists rows.
      * rewrite Hrow. simpl. by rewrite app_assoc.
Qed.

Lemma scoreboard_teams_snoc (curWeek : list (list TeamEntry)) curMatchup :
  scoreboard_teams (curWeek ++ [curMatchup])
  = (scoreboard_teams curWeek ++ map (pair (length curWeek)) curMatchup)%list.
Proof.
  unfold scoreboard_teams. rewrite imap_app, concat_app. simpl.
  by rewrite app_nil_r, Nat.add_0_r.
Qed.

(** The whole extraction returns exactly when every team of the
    scoreboard can be read, and then holds their rows in order. *)
Lemma extract_matchup_scores_Ok statCats curWeek df :
  extract_matchup_scores float statCats curWeek = Ok df
  ↔ Forall2 (fun kt row =>
               extract_team float statCats (str_of_int (Z.of_nat kt.1)) kt.2
               = Ok row) (scoreboard_teams curWeek) df.
Proof.
  unfold extract_matchup_scores. revert df.
  induction curWeek as [|curMatchup curWeek IH] using rev_ind; intros df.
  - simpl. split; [intros [= <-]; constructor|].
    intros H. by apply Forall2_nil_inv_l in H as ->.
  - unfold extract_matchup.
    rewrite (for_each_items_snoc curWeek curMatchup
               (fun matchupNumber curMatchup matchupStats =>
                  for_each (range (length curMatchup))
                    (fun team rows =>
                       entry ← item curMatchup team;
                       row ← extract_team float statCats
                               (str_of_int (Z.of_nat matchupNumber)) entry;
                       Ok (rows ++ [row])%list) matchupStats)).
    rewrite bind_Ok, scoreboard_teams_snoc. split.
    + intros (mid & Hmid%IH & (rows & -> & Hrows)%extract_teams_spec).
      apply Forall2_app; [done|].
      rewrite map_fmap. by apply Forall2_fmap_l.
    + intros (mid & rows & Hmid & Hrows & ->)%Forall2_app_inv_l.
      exists mid. split; [by apply IH|].
      apply extract_teams_spec. exists rows. split; [done|].
      rewrite map_fmap in Hrows. by apply Forall2_fmap_l in Hrows.
Qed.

End ExtractProps.

Lemma scoreboard_teams_elem (curWeek : list (list TeamEntry)) k team :
  (k, team) ∈ scoreboard_teams curWeek
  ↔ ∃ curMatchup, curWeek !! k = Some curMatchup ∧ team ∈ curMatchup.
Proof.
  induction curWeek as [|w ws IH] using rev_ind.
  - split; [intros H; inversion H | intros (? & H & _); inversion H].
  - rewrite scoreboard_teams_snoc, elem_of_app, IH, elem_of_map. split.
    + intros [(m & Hm & Hin)|(t & [= -> ->] & Hin)].
      * exists m. split; [|done]. by apply lookup_app_l_Some.
      * exists w. split; [|done]. by apply list_lookup_middle.
    + intros (m & Hm & Hin).
      apply lookup_app_Some in Hm as [Hm|[Hge Hm]]; [left; eauto|].
      apply list_lookup_singleton_Some in Hm as [Hk ->].
      right. exists team. split; [|done]. f_equal. lia.
Qed.

Lemma Forall2_choice {A B : Type} (P : A → B → Prop) (xs : list A) :
  (∀ x, x ∈ xs → ∃ y, P x y) → ∃ ys, Forall2 P xs ys.
Proof.
  induction xs as [|x xs IH]; intros H.
  - exists []. constructor.
  - destruct (H x) as [y Hy]; [by left|].
    destruct IH as [ys Hys]; [intros z Hz; apply H; by right|].
    exists (y :: ys). by constructor.
Qed.

Lemma all_have_columns_intro cats (df : list TeamRow) :
  (∀ row stat, row ∈ df → stat ∈ cats → is_Some (stats row !! stat)) →
  all_have_columns cats df = true.
Proof.
  intros H. unfold all_have_columns, has_columns.
  apply forallb_forall. intros row Hrow%list_elem_of_In.
  apply forallb_forall. intros stat Hstat%list_elem_of_In.
  apply bool_decide_eq_true. by apply H.
Qed.

Lemma max_min_stats_runs origStatCats (df : list TeamRow) :
  df ≠ [] →
  all_have_columns (origStatCats ++ ["FGM"; "FGA"; "FTM"; "FTA"]) df = true →
  ∃ report, max_min_stats origStatCats df = Ok report.
Proof.
  intros Hne Hcols.
  set (statCats := (origStatCats ++ ["FGM"; "FGA"; "FTM"; "FTA"])%list) in *.
  assert (∀ stat row, stat ∈ statCats → row ∈ df → is_Some (stats row !! stat))
    as Hsome.
  { intros stat row Hs Hr. by eapply all_have_columns_elem. }
  destruct (reduce_columns_spec series_max (fun _ _ => True) df statCats)
    as (maxCats & Hmax & Hfmax & _); [|done|done|].
  { intros col Hc. destruct (series_max_spec col Hc) as (m & Hm & _). eauto. }
  destruct (reduce_columns_spec series_min (fun _ _ => True) df statCats)
    as (minCats & Hmin & Hfmin & _); [|done|done|].
  { intros col Hc. destruct (series_min_spec col Hc) as (m & Hm & _). eauto. }
  eexists. unfold max_min_stats. fold statCats. rewrite Hmax. simpl.
  rewrite stat_lines_spec; [|done|by rewrite Hfmax]. simpl.
  rewrite Hmin. simpl.
  rewrite stat_lines_spec; [|done|by rewrite Hfmin]. done.
Qed.

(** The columns of an extracted row. *)
Lemma extract_team_columns float statCats m team row :
  extract_team float statCats m team = Ok row →
  ∀ c, is_Some (stats row !! c)
       ↔ c ∈ ["FGM"; "FGA"; "FTM"; "FTA"]
         ∨ c ∈ take (length (stat_values team) - 2) statCats.
Proof.
  intros (fg & pct & ft & rest & fgm & fga & ftm & fta & labeled & Hsv
          & _ & _ & Hl & ->)%extract_team_Ok c.
  destruct (labeled_stats_lookup float _ _ _ _ Hl) as (_ & Hout & Hsome).
  rewrite Hsv. simpl length. replace (S (S (S (length rest))) - 2)%nat
    with (S (length rest)) by lia.
  cbn [stats]. rewrite !lookup_insert_is_Some.
  split.
  - intros [<-|[_ [<-|[_ [<-|[_ [<-|[_ Hc]]]]]]]].
    + left. by do 3 right; left.
    + left. by do 2 right; left.
    + left. by right; left.
    + left. by left.
    + destruct (decide (c ∈ take (S (length rest)) statCats)); [by right|].
      rewrite (Hout c) in Hc by done. rewrite lookup_empty in Hc.
      by destruct Hc.
  - intros [Hc|Hc].
    + destruct (decide ("FTA" = c)); [by left|]. right. split; [done|].
      destruct (decide ("FTM" = c)); [by left|]. right. split; [done|].
      destruct (decide ("FGA" = c)); [by left|]. right. split; [done|].
      destruct (decide ("FGM" = c)); [by left|].
      repeat (apply elem_of_cons in Hc as [->|Hc]; [done|]). inversion Hc.
    + destruct (decide ("FTA" = c)); [by left|]. right. split; [done|].
      destruct (decide ("FTM" = c)); [by left|]. right. split; [done|].
      destruct (decide ("FGA" = c)); [by left|]. right. split; [done|].
      destruct (decide ("FGM" = c)); [by left|]. right. split; [done|].
      by apply Hsome.
Qed.

(** X19. When every team of the scoreboard can be read (three stat values
    or more, ["made/attempted"] texts in the first and the third, numbers
    in the values paired with a category), [extract_matchup_scores]
    returns one row per team in scoreboard order, with the nickname of the
    manager, the name of the team and the position of the matchup as
    text. *)
Theorem X19_extract_rows (float : string → result Q) statCats curWeek :
  (∀ curMatchup team, curMatchup ∈ curWeek → team ∈ curMatchup →
     team_parses float statCats team) →
  ∃ df, extract_matchup_scores float statCats curWeek = Ok df
    ∧ map (fun row => (manager row, teamName row, matchupNumber row)) df
      = map (fun kt => (nickname kt.2, team_name kt.2,
                        str_of_int (Z.of_nat kt.1)))
          (scoreboard_teams curWeek).
Proof.
  intros Hall.
  destruct (Forall2_choice
              (fun kt row =>
                 extract_team float statCats (str_of_int (Z.of_nat kt.1)) kt.2
                 = Ok row) (scoreboard_teams curWeek)) as [df Hdf].
  { intros [k team] (curMatchup & Hk & Hin)%scoreboard_teams_elem.
    apply extract_team_runs. eapply Hall; [|done].
    by eapply list_elem_of_lookup_2. }
  exists df. split; [by apply extract_matchup_scores_Ok|].
  induction Hdf as [|[k team] row kts rows Hrow _ IH]; [done|].
  simpl. rewrite IH. f_equal.
  apply extract_team_Ok in Hrow
    as (? & ? & ? & ? & ? & ? & ? & ? & ? & _ & _ & _ & _ & ->).
  done.
Qed.

Lemma X19_extract_rows_witness :
  ∃ df, extract_matchup_scores sample_float ["FG%"; "PTS"]
          [[ {| nickname := "ann"; team_name := "Aces";
                stat_values := ["3/7"; "43"; "4/5"; "45"; "101"] |};
             {| nickname := "bob"; team_name := "Bulls";
                stat_values := ["5/9"; "56"; "1/2"; "50"; "98"] |} ]] = Ok df
    ∧ map (fun row => (manager row, teamName row, matchupNumber row)) df
      = [("ann", "Aces", "0"); ("bob", "Bulls", "0")].
Proof.
  apply (X19_extract_rows sample_float ["FG%"; "PTS"]
           [[ {| nickname := "ann"; team_name := "Aces";
                 stat_values := ["3/7"; "43"; "4/5"; "45"; "101"] |};
              {| nickname := "bob"; team_name := "Bulls";
                 stat_values := ["5/9"; "56"; "1/2"; "50"; "98"] |} ]]).
  intros curMatchup team [->|Hm]%elem_of_cons; [|inversion Hm].
  intros [->|[->|Ht]%elem_of_cons]%elem_of_cons; [| |inversion Ht].
  - exists "3/7", "43", "4/5", ["45"; "101"], (3%Q), (7%Q), (4%Q), (5%Q).
    split; [done|]. split; [by exists "3", "7", []|].
    split; [by exists "4", "5", []|].
    intros v [->|[->|Hv]%elem_of_cons]%elem_of_cons; [by eexists..|inversion Hv].
  - exists "5/9", "56", "1/2", ["50"; "98"], (5%Q), (9%Q), (1%Q), (2%Q).
    split; [done|]. split; [by exists "5", "9", []|].
    split; [by exists "1", "2", []|].
    intros v [->|[->|Hv]%elem_of_cons]%elem_of_cons; [by eexists..|inversion Hv].
Defined.

(** X20. A single team of the scoreboard that cannot be read (fewer than
    three stat values, a first or third value that is not
    ["made/attempted"], or a value that is not a number under one of the
    categories) makes [extract_matchup_scores] raise: no frame is
    returned for the other teams. *)
Theorem X20_extract_malformed (float : string → result Q) statCats curWeek
    curMatchup team :
  curMatchup ∈ curWeek → team ∈ curMatchup →
  ¬ team_parses float statCats team →
  ∃ e, extract_matchup_scores float statCats curWeek = Raise e.
Proof.
  intros [k Hk]%list_elem_of_lookup Hteam Hbad.
  destruct (extract_matchup_scores float statCats curWeek) as [df|e] eqn:Hrun;
    [|by exists e].
  apply extract_matchup_scores_Ok in Hrun. destruct Hbad.
  assert ((k, team) ∈ scoreboard_teams curWeek) as [i Hi]%list_elem_of_lookup.
  { apply scoreboard_teams_elem. eauto. }
  destruct (Forall2_lookup_l _ _ _ _ _ Hrun Hi) as (row & _ & Hrow).
  apply (extract_team_runs float statCats (str_of_int (Z.of_nat k))).
  by exists row.
Qed.

Lemma X20_extract_malformed_witness :
  ∃ e, extract_matchup_scores sample_float ["FG%"; "PTS"]
         [[ {| nickname := "ann"; team_name := "Aces";
               stat_values := ["3/7"; "43"; "4/5"; "45"; "101"] |};
            {| nickname := "bob"; team_name := "Bulls";
               stat_values := ["5/9"; "56"] |} ]] = Raise e.
Proof.
  eapply (X20_extract_malformed sample_float ["FG%"; "PTS"] _ _
            {| nickname := "bob"; team_name := "Bulls";
               stat_values := ["5/9"; "56"] |}).
  - by left.
  - right. by left.
  - intros (fg & pct & ft & rest & ? & ? & ? & ? & Hsv & _). discriminate Hsv.
Defined.



(** X22. The three functions fit together.  When the league has a
    category, the scoreboard has a team, and every team can be read and
    brings a stat value for every category, the frame of
    [extract_matchup_scores] has every column that
    [create_matchup_comparison] and [max_min_stats] read, and so has the
    frame that [create_matchup_comparison] gives back; called with
    [visualize=False], and the exports of files apart, the three calls
    return one after the other, on one row per team.  The plots of
    [visualize=True] are no part of this. *)
Theorem X22_functions_compose (float : string → result Q) statCats curWeek :
  statCats ≠ [] →
  (∃ curMatchup, curMatchup ∈ curWeek ∧ curMatchup ≠ []) →
  (∀ curMatchup team, curMatchup ∈ curWeek → team ∈ curMatchup →
     team_parses float statCats team
     ∧ (length statCats + 2 ≤ length (stat_values team))%nat) →
  ∃ df df' matchupScore matchupWinner report,
    extract_matchup_scores float statCats curWeek = Ok df
    ∧ all_have_columns (statCats ++ ["FGM"; "FGA"; "FTM"; "FTA"]) df = true
    ∧ create_matchup_comparison statCats df
      = Ok (df', matchupScore, matchupWinner)
    ∧ all_have_columns (statCats ++ ["FGM"; "FGA"; "FTM"; "FTA"]) df' = true
    ∧ max_min_stats statCats df' = Ok report
    ∧ length df = length (scoreboard_teams curWeek)
    ∧ length df' = length df.
Proof.
  intros Hcats (w & Hw & Hwne) Hall.
  destruct (Forall2_choice
              (fun kt row =>
                 extract_team float statCats (str_of_int (Z.of_nat kt.1)) kt.2
                 = Ok row) (scoreboard_teams curWeek)) as [df Hdf].
  { intros [k team] (curMatchup & Hk & Hin)%scoreboard_teams_elem.
    apply extract_team_runs. eapply Hall; [|done].
    by eapply list_elem_of_lookup_2. }
  assert (∀ row stat, row ∈ df →
            stat ∈ (statCats ++ ["FGM"; "FGA"; "FTM"; "FTA"])%list →
            is_Some (stats row !! stat)) as Hcols.
  { intros row stat [i Hi]%list_elem_of_lookup Hstat.
    destruct (Forall2_lookup_r _ _ _ _ _ Hdf Hi) as ([k team] & Hkt & Hrow).
    simpl in Hrow. apply (extract_team_columns _ _ _ _ _ Hrow).
    apply elem_of_app in Hstat as [Hstat|Hstat]; [right|by left].
    assert ((k, team) ∈ scoreboard_teams curWeek)
      as (curMatchup & Hk & Hin)%scoreboard_teams_elem
      by by eapply list_elem_of_lookup_2.
    destruct (Hall curMatchup team) as [_ Hlen];
      [by eapply list_elem_of_lookup_2 | done |].
    rewrite take_ge; [done|lia]. }
  assert (df ≠ []) as Hne.
  { destruct w as [|team w]; [done|].
    apply list_elem_of_lookup in Hw as [k Hk].
    assert ((k, team) ∈ scoreboard_teams curWeek) as [i Hi]%list_elem_of_lookup.
    { apply scoreboard_teams_elem. exists (team :: w). split; [done|by left]. }
    destruct (Forall2_lookup_l _ _ _ _ _ Hdf Hi) as (row & Hrow & _).
    intros ->. inversion Hrow. }
  destruct (last statCats) as [TOs|] eqn:Hlast;
    [|by apply last_None in Hlast].
  destruct (returned_rows statCats TOs df)
    as (arr & df' & score & winner & _ & Hrun & _ & _ & _ & Hlen & Hrows).
  { unfold last_item. by rewrite Hlast. }
  { apply all_have_columns_intro. intros row stat Hrow Hstat.
    apply Hcols; [done|]. apply elem_of_app. by left. }
  assert (all_have_columns (statCats ++ ["FGM"; "FGA"; "FTM"; "FTA"]) df'
          = true) as Hcols'.
  { apply all_have_columns_intro.
    intros row' stat [i Hi]%list_elem_of_lookup Hstat.
    destruct (lookup_lt_is_Some_2 df i) as [row Hrow].
    { rewrite <- Hlen. by eapply lookup_lt_Some. }
    destruct (Hrows i row Hrow) as (r0 & _ & _ & _ & _ & Hrow').
    rewrite Hi in Hrow'. injection Hrow' as ->. cbn [stats].
    rewrite !lookup_insert_is_Some'. do 3 right.
    apply Hcols; [by eapply list_elem_of_lookup_2 | done]. }
  destruct (max_min_stats_runs statCats df') as [report Hreport]; [|done|].
  { intros ->. destruct df; [done|discriminate Hlen]. }
  exists df, df', score, winner, report.
  split; [by apply extract_matchup_scores_Ok|].
  split; [by apply all_have_columns_intro|].
  split; [done|]. split; [done|]. split; [done|]. split; [|done].
  symmetry. by eapply Forall2_length.
Qed.

Lemma X22_functions_compose_witness :
  ∃ df df' matchupScore matchupWinner report,
    extract_matchup_scores sample_float ["FG%"; "PTS"]
      [[ {| nickname := "ann"; team_name := "Aces";
            stat_values := ["3/7"; "43"; "4/5"; "45"; "101"] |};
         {| nickname := "bob"; team_name := "Bulls";
            stat_values := ["5/9"; "56"; "1/2"; "50"; "98"] |} ]] = Ok df
    ∧ all_have_columns (["FG%"; "PTS"] ++ ["FGM"; "FGA"; "FTM"; "FTA"]) df
      = true
    ∧ create_matchup_comparison ["FG%"; "PTS"] df
      = Ok (df', matchupScore, matchupWinner)
    ∧ all_have_columns (["FG%"; "PTS"] ++ ["FGM"; "FGA"; "FTM"; "FTA"]) df'
      = true
    ∧ max_min_stats ["FG%"; "PTS"] df' = Ok report
    ∧ length df = 2%nat
    ∧ length df' = length df.
Proof.
  apply (X22_functions_compose sample_float ["FG%"; "PTS"]
           [[ {| nickname := "ann"; team_name := "Aces";
                 stat_values := ["3/7"; "43"; "4/5"; "45"; "101"] |};
              {| nickname := "bob"; team_name := "Bulls";
                 stat_values := ["5/9"; "56"; "1/2"; "50"; "98"] |} ]]).
  - done.
  - eexists. split; [by left | done].
  - intros curMatchup team [->|Hm]%elem_of_cons; [|inversion Hm].
    intros [->|[->|Ht]%elem_of_cons]%elem_of_cons; [| |inversion Ht].
    + split; [|simpl; lia].
      exists "3/7", "43", "4/5", ["45"; "101"], (3%Q), (7%Q), (4%Q), (5%Q).
      split; [done|]. split; [by exists "3", "7", []|].
      split; [by exists "4", "5", []|].
      intros v [->|[->|Hv]%elem_of_cons]%elem_of_cons;
        [by eexists..|inversion Hv].
    + split; [|simpl; lia].
      exists "5/9", "56", "1/2", ["50"; "98"], (5%Q), (9%Q), (1%Q), (2%Q).
      split; [done|]. split; [by exists "5", "9", []|].
      split; [by exists "1", "2", []|].
      intros v [->|[->|Hv]%elem_of_cons]%elem_of_cons;
        [by eexists..|inversion Hv].
Defined.

(** ** The differences of a matchup *)

Lemma enumerate_snoc {A : Type} (xs : list A) (x : A) :
  enumerate (xs ++ [x]) = (enumerate xs ++ [(length xs, x)])%list.
Proof.
  unfold enumerate. rewrite length_app, Nat.add_1_r, seq_S.
  rewrite zip_with_app by (by rewrite length_seq). done.
Qed.

Lemma matchup_index_rows (df : list TeamRow) (m : string) :
  Forall2 (fun i row => df !! i = Some row) (matchup_index df m) (rows_of df m).
Proof.
  unfold matchup_index, rows_of.
  induction df as [|r df IH] using rev_ind; [constructor|].
  rewrite enumerate_snoc, !List.filter_app, map_app.
  apply Forall2_app.
  - eapply Forall2_impl; [exact IH|]. intros i row Hi.
    by apply lookup_app_l_Some.
  - simpl. destruct (String.eqb (matchupNumber r) m); simpl; [|constructor].
    constructor; [|constructor]. by apply list_lookup_middle.
Qed.

Lemma rows_of_elem (df : list TeamRow) (m : string) row :
  row ∈ rows_of df m ↔ row ∈ df ∧ matchupNumber row = m.
Proof.
  unfold rows_of. rewrite elem_of_List_filter, String.eqb_eq. tauto.
Qed.

Lemma row_cells_Ok (row : TeamRow) (cols : list string) :
  has_columns cols row = true → row_cells row cols = Ok (cells_of row cols).
Proof.
  induction cols as [|c cols IH]; [done|].
  rewrite has_columns_cons. intros [Hc Hrest]%andb_true_iff.
  apply bool_decide_eq_true in Hc as [v Hv].
  simpl. unfold getitem. rewrite Hv. simpl. by rewrite (IH Hrest).
Qed.

Lemma matchup_diff_body_two float_sub countingStats (df : list TeamRow) m
    cur vs d :
  rows_of df m = [cur; vs] →
  has_columns countingStats cur = true → has_columns countingStats vs = true →
  matchup_diff_body float_sub countingStats df m d
  = Ok (<[manager vs := diff_entry float_sub countingStats vs cur]>
          (<[manager cur := diff_entry float_sub countingStats cur vs]> d)).
Proof.
  intros Hrows Hcur Hvs. pose proof (matchup_index_rows df m) as Hidx.
  assert (matchupNumber cur = m ∧ matchupNumber vs = m) as [Hm1 Hm2].
  { split; eapply rows_of_elem; rewrite Hrows; [by left | by right; left]. }
  rewrite Hrows in Hidx.
  apply Forall2_cons_inv_r in Hidx as (i & idx' & Hi & Hidx & Heq).
  apply Forall2_cons_inv_r in Hidx as (j & idx'' & Hj & Hidx & ->).
  apply Forall2_nil_inv_r in Hidx as ->.
  unfold matchup_diff_body, df_loc, diff_entry. rewrite Heq, Hi, Hj. simpl.
  rewrite !row_cells_Ok by done. simpl. by rewrite Hm1, Hm2.
Qed.

Lemma matchup_diff_body_unpack float_sub countingStats (df : list TeamRow) m d :
  length (rows_of df m) ≠ 2%nat →
  ∃ msg, matchup_diff_body float_sub countingStats df m d
         = Raise (ValueError msg).
Proof.
  intros Hlen. pose proof (matchup_index_rows df m) as Hidx.
  apply Forall2_length in Hidx. unfold matchup_diff_body.
  destruct (matchup_index df m) as [|i [|j [|k idx]]]; simpl in *;
    [by eexists..|congruence|by eexists].
Qed.

Lemma matchup_numbers_Ok (df : list TeamRow) :
  df ≠ [] → matchup_numbers df = Ok (remove_dups (map matchupNumber df)).
Proof. by destruct df. Qed.

Lemma matchup_loop_unpack float_sub countingStats (df : list TeamRow) ms d :
  (∀ row, row ∈ df → has_columns countingStats row = true) →
  (∃ m, m ∈ ms ∧ length (rows_of df m) ≠ 2%nat) →
  ∃ msg, for_each ms (matchup_diff_body float_sub countingStats df) d
         = Raise (ValueError msg).
Proof.
  intros Hcols. revert d. induction ms as [|m ms IH]; intros d (bad & Hin & Hbad).
  { inversion Hin. }
  simpl. destruct (decide (length (rows_of df m) = 2%nat)) as [Htwo|Hne].
  - destruct (rows_of df m) as [|cur [|vs [|]]] eqn:Hrows; try done.
    rewrite (matchup_diff_body_two _ _ _ _ cur vs); [|done|..].
    + simpl. apply IH. exists bad. split; [|done].
      apply elem_of_cons in Hin as [->|Hin]; [|done].
      by rewrite Hrows in Hbad.
    + apply Hcols. eapply rows_of_elem. rewrite Hrows. by left.
    + apply Hcols. eapply rows_of_elem. rewrite Hrows. by right; left.
  - destruct (matchup_diff_body_unpack float_sub countingStats df m d Hne)
      as [msg ->].
    by exists msg.
Qed.

Lemma all_have_columns_row cats (df : list TeamRow) row :
  all_have_columns cats df = true → row ∈ df → has_columns cats row = true.
Proof.
  intros Hall [i Hi]%list_elem_of_lookup. by eapply all_have_columns_lookup.
Qed.

(** X23. [i,j = df[df['matchupNumber']==m].index] needs two rows: on a
    frame that has the counting columns, a matchup number that is on one
    row only, or on three or more, makes the loop of [matchupDiffs] raise
    a [ValueError]. *)
Theorem X23_matchup_diffs_unpack (float_sub : Q → Q → Q) statCats
    (df : list TeamRow) row :
  all_have_columns (drop 2 statCats) df = true →
  row ∈ df →
  length (rows_of df (matchupNumber row)) ≠ 2%nat →
  ∃ msg, matchup_diffs float_sub statCats df = Raise (ValueError msg).
Proof.
  intros Hcols Hrow Hbad. unfold matchup_diffs.
  rewrite (matchup_numbers_Ok df) by (intros ->; inversion Hrow).
  cbn [mbind result_bind]. apply matchup_loop_unpack.
  - intros r Hr. by eapply all_have_columns_row.
  - exists (matchupNumber row). split; [|done].
    apply elem_of_remove_dups, elem_of_map. eauto.
Qed.

Lemma X23_matchup_diffs_unpack_witness :
  ∃ msg,
    matchup_diffs Qminus ["FG%"; "FT%"; "PTS"]
      [ {| manager := "ann"; teamName := "Aces"; matchupNumber := "0";
           stats := <["PTS" := 45%Q]> ∅ |};
        {| manager := "bob"; teamName := "Bulls"; matchupNumber := "0";
           stats := <["PTS" := 50%Q]> ∅ |};
        {| manager := "cy"; teamName := "Colts"; matchupNumber := "1";
           stats := <["PTS" := 40%Q]> ∅ |} ]
    = Raise (ValueError msg).
Proof.
  apply (X23_matchup_diffs_unpack Qminus ["FG%"; "FT%"; "PTS"] _
           {| manager := "cy"; teamName := "Colts"; matchupNumber := "1";
              stats := <["PTS" := 40%Q]> ∅ |}).
  - reflexivity.
  - do 2 right. by left.
  - simpl. lia.
Defined.

Lemma manager_inj (df : list TeamRow) r1 r2 :
  NoDup (map manager df) → r1 ∈ df → r2 ∈ df →
  manager r1 = manager r2 → r1 = r2.
Proof.
  induction df as [|r df IH]; simpl; [intros _ H; inversion H|].
  intros [Hnot Hnd]%NoDup_cons [->|H1]%elem_of_cons [->|H2]%elem_of_cons Heq.
  - done.
  - destruct Hnot. apply elem_of_map. eauto.
  - destruct Hnot. apply elem_of_map. eauto.
  - by apply IH.
Qed.

Lemma rows_of_managers (df : list TeamRow) m cur vs :
  NoDup (map manager df) → rows_of df m = [cur; vs] →
  manager cur ≠ manager vs.
Proof.
  intros Hnd Hrows.
  assert (NoDup (map manager (rows_of df m))) as Hsub.
  { unfold rows_of. clear Hrows. induction df as [|r df IH]; simpl; [constructor|].
    simpl in Hnd. apply NoDup_cons in Hnd as [Hnot Hnd].
    destruct (String.eqb (matchupNumber r) m); simpl; [|by apply IH].
    apply NoDup_cons. split; [|by apply IH].
    intros (r' & Heq & [Hin _]%elem_of_List_filter)%elem_of_map.
    apply Hnot, elem_of_map. eauto. }
  rewrite Hrows in Hsub. simpl in Hsub.
  apply NoDup_cons in Hsub as [Hnot _]. intros Heq. apply Hnot.
  rewrite Heq. by left.
Qed.

Lemma matchup_loop_spec float_sub countingStats (df : list TeamRow) ms d :
  (∀ row, row ∈ df → has_columns countingStats row = true) →
  NoDup (map manager df) → NoDup ms →
  (∀ m, m ∈ ms → length (rows_of df m) = 2%nat) →
  ∃ d', for_each ms (matchup_diff_body float_sub countingStats df) d = Ok d'
    ∧ (∀ m cur vs, m ∈ ms → rows_of df m = [cur; vs] →
         d' !! manager cur = Some (diff_entry float_sub countingStats cur vs)
         ∧ d' !! manager vs = Some (diff_entry float_sub countingStats vs cur))
    ∧ (∀ key, (∀ row, row ∈ df → matchupNumber row ∈ ms → manager row ≠ key) →
         d' !! key = d !! key).
Proof.
  intros Hcols Hnd. revert d.
  induction ms as [|m ms IH]; intros d Hms Htwo; simpl.
  { exists d. split; [done|]. split; [|done]. intros m cur vs Hm. inversion Hm. }
  apply NoDup_cons in Hms as [Hfresh Hms].
  assert (length (rows_of df m) = 2%nat) as Hlen by (apply Htwo; by left).
  destruct (rows_of df m) as [|cur [|vs [|]]] eqn:Hrows;
    try (simpl in Hlen; discriminate Hlen).
  assert (cur ∈ df ∧ matchupNumber cur = m) as [Hcur Hmcur].
  { apply rows_of_elem. rewrite Hrows. by left. }
  assert (vs ∈ df ∧ matchupNumber vs = m) as [Hvs Hmvs].
  { apply rows_of_elem. rewrite Hrows. by right; left. }
  pose proof (rows_of_managers df m cur vs Hnd Hrows) as Hne.
  rewrite (matchup_diff_body_two _ _ _ _ cur vs) by auto. simpl.
  destruct (IH (<[manager vs := diff_entry float_sub countingStats vs cur]>
                  (<[manager cur := diff_entry float_sub countingStats cur vs]>
                     d)))
    as (d' & Hrun & Hpairs & Hrest); [done|..].
  { intros m' Hm'. apply Htwo. by right. }
  exists d'. split; [done|].
  assert (∀ row, row ∈ df → matchupNumber row = m →
            ∀ other, other ∈ df → matchupNumber other ∈ ms →
                     manager other ≠ manager row) as Hout.
  { intros row Hrow Hm other Hother Hin Heq.
    apply (manager_inj df) in Heq; [|done..]. subst other.
    by rewrite Hm in Hin. }
  split.
  - intros m' cur' vs' [->|Hm']%elem_of_cons Hrows'; [|by eapply Hpairs].
    rewrite Hrows in Hrows'. injection Hrows' as <- <-.
    rewrite (Hrest (manager cur)) by (by apply (Hout cur)).
    rewrite (Hrest (manager vs)) by (by apply (Hout vs)). split.
    + by rewrite lookup_insert_ne, lookup_insert_eq.
    + by rewrite lookup_insert_eq.
  - intros key Hkey. rewrite Hrest.
    + rewrite !lookup_insert_ne; [done|..].
      * apply Hkey; [done|]. rewrite Hmcur. by left.
      * apply Hkey; [done|]. rewrite Hmvs. by left.
    + intros row Hrow Hin. apply Hkey; [done|]. by right.
Qed.

Lemma diff_entry_cells float_sub countingStats cur vs k c a b :
  countingStats !! k = Some c →
  stats cur !! c = Some a → stats vs !! c = Some b →
  md_stats (diff_entry float_sub countingStats cur vs) !! k
  = Some (float_sub a b).
Proof.
  intros Hc Ha Hb. unfold diff_entry, cells_of. simpl.
  by rewrite lookup_zip_with, !lookup_map, Hc; simpl; rewrite Ha, Hb.
Qed.

(** X24. On a frame with rows that has the counting columns, where no two
    rows have the same manager and every matchup number is on exactly two
    rows, the loop of [matchupDiffs] returns a dict with one key per
    manager.  The value of a manager holds the opponent, who is the manager
    of the other row of the matchup, the matchup number, and one difference
    per counting category: the float that the subtraction of the
    opponent's cell from the manager's cell gives, whatever its
    rounding. *)
Theorem X24_matchup_diffs (float_sub : Q → Q → Q) statCats
    (df : list TeamRow) :
  df ≠ [] →
  all_have_columns (drop 2 statCats) df = true →
  NoDup (map manager df) →
  (∀ row, row ∈ df → length (rows_of df (matchupNumber row)) = 2%nat) →
  ∃ matchupDiffs,
    matchup_diffs float_sub statCats df = Ok matchupDiffs
    ∧ (∀ key, is_Some (matchupDiffs !! key) ↔ key ∈ map manager df)
    ∧ ∀ cur vs, cur ∈ df → vs ∈ df → cur ≠ vs →
        matchupNumber cur = matchupNumber vs →
        ∃ entry,
          matchupDiffs !! manager cur = Some entry
          ∧ md_opponent entry = manager vs
          ∧ md_number entry = matchupNumber cur
          ∧ length (md_stats entry) = length (drop 2 statCats)
          ∧ ∀ k c a b, drop 2 statCats !! k = Some c →
              stats cur !! c = Some a → stats vs !! c = Some b →
              md_stats entry !! k = Some (float_sub a b).
Proof.
  intros Hne Hcols Hnd Htwo. set (countingStats := drop 2 statCats) in *.
  destruct (matchup_loop_spec float_sub countingStats df
              (remove_dups (map matchupNumber df)) ∅)
    as (d & Hrun & Hpairs & Hrest).
  { intros row Hrow. by eapply all_have_columns_row. }
  { done. }
  { apply NoDup_remove_dups. }
  { intros m (row & -> & Hrow)%elem_of_remove_dups%elem_of_map. by apply Htwo. }
  assert (∀ row, row ∈ df →
            matchupNumber row ∈ remove_dups (map matchupNumber df)) as Hnum.
  { intros row Hrow. apply elem_of_remove_dups, elem_of_map. eauto. }
  assert (∀ row, row ∈ df →
            ∃ a b, rows_of df (matchupNumber row) = [a; b]
                   ∧ (row = a ∨ row = b)) as Hpair.
  { intros row Hrow. specialize (Htwo row Hrow).
    assert (row ∈ rows_of df (matchupNumber row)) as Hin
      by by apply rows_of_elem.
    destruct (rows_of df (matchupNumber row)) as [|a [|b [|]]]; try done.
    exists a, b. split; [done|].
    apply elem_of_cons in Hin as [->|Hin]; [by left|].
    apply elem_of_cons in Hin as [->|Hin]; [by right|]. inversion Hin. }
  exists d. split.
  { unfold matchup_diffs. fold countingStats.
    by rewrite (matchup_numbers_Ok df Hne). }
  split.
  - intros key. split.
    + intros Hsome. destruct (decide (key ∈ map manager df)) as [|Hnot]; [done|].
      rewrite Hrest, lookup_empty in Hsome; [by destruct Hsome|].
      intros row Hrow _ <-. apply Hnot, elem_of_map. eauto.
    + intros (row & -> & Hrow)%elem_of_map.
      destruct (Hpair row Hrow) as (a & b & Hrows & [->| ->]);
        destruct (Hpairs _ a b (Hnum _ Hrow) Hrows) as [Ha Hb];
        by eexists.
  - intros cur vs Hcur Hvs Hdiff Hsame.
    destruct (Hpair cur Hcur) as (a & b & Hrows & Hc).
    assert (vs ∈ rows_of df (matchupNumber cur)) as Hin
      by by apply rows_of_elem.
    rewrite Hrows in Hin.
    destruct (Hpairs _ a b (Hnum _ Hcur) Hrows) as [Ha Hb].
    exists (diff_entry float_sub countingStats cur vs).
    split; [|split; [done|split; [done|split]]].
    + destruct Hc as [->| ->].
      * apply elem_of_cons in Hin as [->|Hin]; [done|].
        apply elem_of_cons in Hin as [->|Hin]; [done|]. inversion Hin.
      * apply elem_of_cons in Hin as [->|Hin]; [done|].
        apply elem_of_cons in Hin as [->|Hin]; [done|]. inversion Hin.
    + unfold diff_entry, cells_of. simpl.
      rewrite length_zip_with, !length_map. lia.
    + intros k c x y. apply diff_entry_cells.
Qed.

Lemma X24_matchup_diffs_witness :
  ∃ matchupDiffs,
    matchup_diffs Qminus ["FG%"; "FT%"; "PTS"; "TO"]
      [ {| manager := "ann"; teamName := "Aces"; matchupNumber := "0";
           stats := <["PTS" := 45%Q]> (<["TO" := 9%Q]> ∅) |};
        {| manager := "bob"; teamName := "Bulls"; matchupNumber := "0";
           stats := <["PTS" := 50%Q]> (<["TO" := 7%Q]> ∅) |} ]
    = Ok matchupDiffs
    ∧ (∀ key, is_Some (matchupDiffs !! key) ↔ key ∈ ["ann"; "bob"]).
Proof.
  destruct (X24_matchup_diffs Qminus ["FG%"; "FT%"; "PTS"; "TO"]
              [ {| manager := "ann"; teamName := "Aces"; matchupNumber := "0";
                   stats := <["PTS" := 45%Q]> (<["TO" := 9%Q]> ∅) |};
                {| manager := "bob"; teamName := "Bulls"; matchupNumber := "0";
                   stats := <["PTS" := 50%Q]> (<["TO" := 7%Q]> ∅) |} ])
    as (matchupDiffs & Hrun & Hkeys & _).
  - discriminate.
  - reflexivity.
  - apply (bool_decide_unpack _). reflexivity.
  - intros row [->|[->|Hrow]%elem_of_cons]%elem_of_cons;
      [reflexivity | reflexivity | inversion Hrow].
  - exists matchupDiffs. split; [exact Hrun | exact Hkeys].
Defined.

(** X27. The frame of an empty scoreboard has no columns: the loop of
    [matchupDiffs] stops at [df['matchupNumber']] with a [KeyError],
    whatever the categories. *)
Theorem X27_matchup_diffs_empty (float_sub : Q → Q → Q) statCats :
  matchup_diffs float_sub statCats [] = Raise (KeyError "matchupNumber").
Proof. reflexivity. Qed.

(** ** The first day of the week *)

(** A loop stops with the exception [e] when one of its steps raises [e]
    in every state of the invariant and every other step keeps the
    invariant or raises [e] as well. *)
Lemma for_each_raises {A S : Type} (P : S → Prop) (e : exn) (xs : list A)
    (body : A → S → result S) (s : S) :
  P s →
  (∀ x s, x ∈ xs → P s → body x s = Raise e ∨ ∃ s', body x s = Ok s' ∧ P s') →
  (∃ x, x ∈ xs ∧ ∀ s, P s → body x s = Raise e) →
  for_each xs body s = Raise e.
Proof.
  revert s. induction xs as [|x xs IH]; intros s HP Hstep (bad & Hin & Hbad).
  { inversion Hin. }
  simpl. destruct (Hstep x s) as [->|(s' & Hs' & HP')]; [by left|done|done|].
  rewrite Hs'. simpl. apply elem_of_cons in Hin as [->|Hin].
  { rewrite (Hbad s HP) in Hs'. discriminate Hs'. }
  apply IH; [done| |eauto]. intros y t Hy. apply Hstep. by right.
Qed.

Lemma lengths_alter {V : Type} (g : list (RosterRow V) → list (RosterRow V))
    (l : nat) (h : list (list (RosterRow V))) :
  (∀ f, length (g f) = length f) →
  map length (alter g l h) = map length h.
Proof.
  intros Hg. revert l. induction h as [|f h IH]; intros [|l]; simpl; [done..| |].
  - by rewrite Hg.
  - f_equal. apply IH.
Qed.

Section WeekErrors.

Context {V : Type} (zero : V) (add : V → V → V).
Context {Team : Type} (teams : list Team).
Context (roster : Team → datetime → list Player).
Context (player_stats : datetime → Z → string → Cell V).
Context (statCats : list string).

(** The store when the first day starts: the Sunday rosters, then the
    rosters of the day. *)
Lemma first_day_init (day previousSunday : datetime) :
  let n := length teams in
  let h0 := (heap (setup zero teams roster statCats previousSunday)
             ++ map (fun t => new_frame (roster t day)) teams)%list in
  ∃ h1,
    for_each (range n)
      (fun idx h =>
         h ← update_at (seq n n) idx (zero_stats zero statCats) h;
         update_at (seq n n) idx clear_flags h) h0 = Ok h1
    ∧ map length h1 = map length h0.
Proof.
  intros n h0.
  apply (for_each_inv (fun h => map length h = map length h0)); [done|].
  intros k h Hk%elem_of_seq Hshape. unfold update_at.
  rewrite lookup_seq_lt by lia. simpl. eexists. split; [done|].
  rewrite !lengths_alter; [done|..]; intros f;
    (unfold clear_flags || unfold zero_stats); by rewrite length_map.
Qed.

Lemma first_day_shape (day previousSunday : datetime) k t
    (h : list (list (RosterRow V))) :
  map length h
  = map length (heap (setup zero teams roster statCats previousSunday)
                ++ map (fun t => new_frame (roster t day)) teams)%list →
  teams !! k = Some t →
  ∃ fs fc, h !! k = Some fs ∧ h !! (length teams + k)%nat = Some fc
           ∧ length fs = length (roster t previousSunday)
           ∧ length fc = length (roster t day).
Proof.
  intros Hshape Ht. pose proof (lookup_lt_Some _ _ _ Ht) as Hk.
  assert (∀ l f0, (heap (setup zero teams roster statCats previousSunday)
                   ++ map (fun t => new_frame (roster t day)) teams)%list !! l
                  = Some f0 →
                  ∃ f, h !! l = Some f ∧ length f = length f0) as Hsame.
  { intros l f0 Hl.
    assert (map length h !! l = Some (length f0)) as Hlen.
    { rewrite Hshape, lookup_map, Hl. done. }
    rewrite lookup_map in Hlen. destruct (h !! l) as [f|]; [|done].
    injection Hlen as Hlen. by exists f. }
  destruct (Hsame k (zero_stats zero statCats (new_frame (roster t previousSunday))))
    as (fs & Hfs & Hls).
  { simpl. rewrite lookup_app_l by (rewrite length_map; lia).
    by rewrite lookup_map, Ht. }
  destruct (Hsame (length teams + k)%nat (new_frame (roster t day)))
    as (fc & Hfc & Hlc).
  { simpl. rewrite lookup_app_r by (rewrite length_map; lia).
    rewrite length_map.
    replace (length teams + k - length teams)%nat with k by lia.
    by rewrite lookup_map, Ht. }
  exists fs, fc. split; [done|]. split; [done|].
  unfold zero_stats, new_frame in *. rewrite !length_map in Hls.
  rewrite length_map in Hlc. done.
Qed.

(** A team without players, on the Sunday before the week or on its first
    day, stops the first day at [roster['player_id']]. *)
Lemma first_day_empty_roster (day previousSunday : datetime) t :
  t ∈ teams →
  roster t previousSunday = [] ∨ roster t day = [] →
  day_body zero add teams roster player_stats statCats (0%nat, day)
    (setup zero teams roster statCats previousSunday)
  = Raise (KeyError "player_id").
Proof.
  intros [k Hk]%list_elem_of_lookup Hempty.
  destruct (first_day_init day previousSunday) as (h1 & Hrun1 & Hshape1).
  unfold day_body. cbn [heap sundayRefs totalsRefs Nat.eqb setup] in *.
  rewrite length_map. rewrite Hrun1. cbn [mbind result_bind].
  unfold day_steps. rewrite !length_seq.
  set (n := length teams) in *.
  rewrite (for_each_raises
             (fun s : list (list (RosterRow V)) * list Z =>
                map length s.1 = map length h1)
             (KeyError "player_id")); [done|done| |].
  - intros i [h acc] Hi%elem_of_seq Hshape. simpl in Hshape.
    destruct (lookup_lt_is_Some_2 teams i) as [ti Hti]; [lia|].
    unfold collect_body, update_at, frame_at. cbn [fst snd].
    rewrite !lookup_seq_lt by lia. cbn [mbind result_bind].
    destruct (first_day_shape day previousSunday i ti
                (alter (zero_stats zero statCats) (n + i)%nat h))
      as (fs & fc & Hfs & Hfc & _ & _); [|done|].
    { rewrite lengths_alter; [by rewrite Hshape|].
      intros f. unfold zero_stats. by rewrite length_map. }
    fold n in Hfc. rewrite Hfc. cbn [mbind result_bind].
    destruct fc as [|rc fc]; [by left|]. cbn [player_ids mbind result_bind].
    simpl Nat.add. rewrite Hfs. cbn [mbind result_bind].
    destruct fs as [|rs fs]; [by left|]. right. eexists. split; [done|].
    simpl. rewrite lengths_alter; [done|].
    intros f. unfold zero_stats. by rewrite length_map.
  - exists k. split; [apply elem_of_seq; apply lookup_lt_Some in Hk; lia|].
    intros [h acc] Hshape. simpl in Hshape.
    pose proof (lookup_lt_Some _ _ _ Hk) as Hlt.
    unfold collect_body, update_at, frame_at. cbn [fst snd].
    rewrite !lookup_seq_lt by done. cbn [mbind result_bind].
    destruct (first_day_shape day previousSunday k t
                (alter (zero_stats zero statCats) (n + k)%nat h))
      as (fs & fc & Hfs & Hfc & Hls & Hlc); [|done|].
    { rewrite lengths_alter; [by rewrite Hshape|].
      intros f. unfold zero_stats. by rewrite length_map. }
    fold n in Hfc. rewrite Hfc. cbn [mbind result_bind].
    destruct fc as [|rc fc]; [done|]. cbn [player_ids mbind result_bind].
    simpl Nat.add. rewrite Hfs. cbn [mbind result_bind].
    destruct fs as [|rs fs]; [done|].
    destruct Hempty as [He|He]; rewrite He in *; discriminate.
Qed.

(** The table of the stat lines is compared with a list of nine dashes:
    with rosters that have players, any other number of categories stops
    the first day there. *)
Lemma first_day_not_nine (day previousSunday : datetime) :
  length statCats ≠ 9%nat → teams ≠ [] →
  (∀ t, t ∈ teams → roster t previousSunday ≠ []) →
  (∀ t, t ∈ teams → roster t day ≠ []) →
  day_body zero add teams roster player_stats statCats (0%nat, day)
    (setup zero teams roster statCats previousSunday)
  = Raise (ValueError "Unable to coerce to Series").
Proof.
  intros Hnine Hteams Hsunday Hday.
  destruct (teams !! 0%nat) as [team|] eqn:Hteam;
    [|by destruct teams].
  pose proof (lookup_lt_Some _ _ _ Hteam) as Hidx.
  destruct (roster team day) as [|p ps] eqn:Hroster.
  { destruct (Hday team); [by eapply list_elem_of_lookup_2 | done]. }
  set (pID := p_id p).
  pose proof (populated_app teams roster _ day
                (populated_setup zero teams roster statCats previousSunday
                   Hsunday) Hday) as Hpop0.
  unfold day_body, setup in *. cbn [heap sundayRefs totalsRefs Nat.eqb] in *.
  rewrite length_map.
  set (n := length teams) in *.
  set (h0 := (_ ++ _)%list) in *.
  assert (length h0 = (n + n)%nat) as Hlen0.
  { unfold h0. by rewrite length_app, !length_map. }
  assert (h0 !! (n + 0)%nat = Some (new_frame (roster team day))) as Hfc.
  { unfold h0. rewrite lookup_app_r by (rewrite length_map; lia).
    rewrite length_map. replace (n + 0 - length teams)%nat with 0%nat by lia.
    by rewrite lookup_map, Hteam. }
  assert (pID ∈ ids (new_frame (V := V) (roster team day))) as Hin.
  { rewrite ids_new_frame, Hroster. by left. }
  destruct (init_loop zero statCats pID (n + 0) n n 0 eq_refl Hidx
              (or_introl eq_refl) h0 _ Hlen0 Hfc Hin)
    as (h1 & ft1 & Hrun1 & Hg1 & Hft1 & Htr1).
  rewrite Hrun1. cbn [mbind result_bind].
  assert (populated h1) as Hpop1 by (by eapply grows_populated).
  unfold day_steps. rewrite !length_seq.
  destruct (collect_loop zero statCats pID (n + 0) n n 0 eq_refl Hidx
              (or_introl eq_refl) h1 ft1 ft1
              (replicate (length statCats) zero))
    as (h2 & started & Hrun2 & _ & Hst & _); try done.
  { destruct Hg1 as [-> _]. done. }
  { by destruct Htr1. }
  fold n. rewrite Hrun2. cbn [mbind result_bind snd].
  unfold fetch_player_stats.
  apply elem_of_remove_dups in Hst.
  destruct (remove_dups started) as [|x xs]; [inversion Hst|].
  apply Nat.eqb_neq in Hnine. by rewrite Hnine.
Qed.

End WeekErrors.

Lemma date_ranges_first (startDate endDate : Z) :
  startDate - 1 ≤ endDate →
  ∃ rest, date_ranges startDate endDate = combine startDate 23 59 59 :: rest.
Proof.
  intros Hle. unfold date_ranges, range.
  destruct (Z.to_nat (endDate - startDate + 2)) as [|k] eqn:Hk; [lia|].
  simpl. rewrite Z.add_0_r. eauto.
Qed.

(** X25. The loop over the days of lines 494-557 only runs for a league
    with nine stat categories: with any other number of them, and a league
    whose teams have players on the Sunday before the week and on its
    first day, [(playerStats[statCats] == ['-']*9)] raises a [ValueError]
    on the first day. *)
Theorem X25_nine_categories {V Team : Type} (zero : V) (add : V → V → V)
    (teams : list Team) (roster : Team → datetime → list Player)
    (player_stats : datetime → Z → string → Cell V) (statCats : list string)
    (startDate endDate : Z) :
  length statCats ≠ 9%nat →
  teams ≠ [] →
  startDate - 1 ≤ endDate →
  (∀ t, t ∈ teams → roster t (previous_sunday startDate) ≠ []) →
  (∀ t, t ∈ teams → roster t (combine startDate 23 59 59) ≠ []) →
  ∃ msg,
    weekly_accumulation zero add teams roster player_stats statCats
      startDate endDate = Raise (ValueError msg).
Proof.
  intros Hnine Hteams Hle Hsunday Hday.
  destruct (date_ranges_first startDate endDate Hle) as [rest Hdays].
  unfold weekly_accumulation, walk_days, enumerate. rewrite Hdays.
  cbn [length seq zip_with for_each].
  rewrite first_day_not_nine by done. by eexists.
Qed.

Lemma X25_nine_categories_witness :
  ∃ msg,
    weekly_accumulation 0 Z.add [0%nat; 1%nat] sample_roster
      sample_player_stats ["PTS"; "REB"; "TO"] 100 102
    = Raise (ValueError msg).
Proof.
  apply (X25_nine_categories 0 Z.add [0%nat; 1%nat] sample_roster
           sample_player_stats ["PTS"; "REB"; "TO"] 100 102).
  - simpl. lia.
  - done.
  - lia.
  - intros t _. unfold sample_roster. by destruct t.
  - intros t _. unfold sample_roster. by destruct t.
Defined.

(** X26. A team without players, on the Sunday before the week or on its
    first day, stops the loop over the days of lines 494-557 on the first
    day: the frame of an empty roster has no ['player_id'] column, and
    reading it raises a [KeyError], whatever the other teams, the stat
    lines and the number of categories are. *)
Theorem X26_empty_roster {V Team : Type} (zero : V) (add : V → V → V)
    (teams : list Team) (roster : Team → datetime → list Player)
    (player_stats : datetime → Z → string → Cell V) (statCats : list string)
    (startDate endDate : Z) (team : Team) :
  team ∈ teams →
  startDate - 1 ≤ endDate →
  roster team (previous_sunday startDate) = []
  ∨ roster team (combine startDate 23 59 59) = [] →
  weekly_accumulation zero add teams roster player_stats statCats
    startDate endDate = Raise (KeyError "player_id").
Proof.
  intros Hteam Hle Hempty.
  destruct (date_ranges_first startDate endDate Hle) as [rest Hdays].
  unfold weekly_accumulation, walk_days, enumerate. rewrite Hdays.
  cbn [length seq zip_with for_each].
  by rewrite (first_day_empty_roster zero add teams roster player_stats
                statCats _ _ team Hteam Hempty).
Qed.

Lemma X26_empty_roster_witness :
  weekly_accumulation 0 Z.add [0%nat; 1%nat]
    (fun t day => match t with O => [sample_player 1] | _ => [] end)
    sample_player_stats sample_categories 100 102
  = Raise (KeyError "player_id").
Proof.
  apply (X26_empty_roster 0 Z.add [0%nat; 1%nat]
           (fun t day => match t with O => [sample_player 1] | _ => [] end)
           sample_player_stats sample_categories 100 102 1%nat).
  - right. by left.
  - lia.
  - by left.
Defined.
